(** * xmlctx: namespace-aware XML decoding, shallow embedding

    This development embeds the decoder of [decoder.go] (package
    [xmlctx]) and states its matching, coercion and frame properties.

    Conventions.
    - Go strings are byte strings: [string].
    - The namespace context [Decoder.namespaces] is a [gmap string string];
      a Go lookup [m[k]] with the comma-ok form is [m !! k].
    - [encoding/xml] is an external collaborator.  Its token source is a
      list of reads (a token, or a non-EOF error); reading from the empty
      list is [io.EOF].
    - A [reflect.Value] is a pair of a static type ([GoType]) and a
      dynamic value ([Value]); a write through reflection returns the
      updated value.  Types that implement [xml.Unmarshaler],
      [encoding.TextUnmarshaler] or [xml.UnmarshalerAttr] delegate to user
      code and are outside the embedding; the loop that [decodeElement]
      runs around [UnmarshalText] is embedded on its own, as
      [textUnmarshalerLoop], with the user's method as a parameter. *)

From Stdlib Require Import Ascii String ZArith.
From stdpp Require Import base option list strings gmap.

Set Warnings "-register-all".

Local Open Scope string_scope.
Local Open Scope Z_scope.

(** ** Package [strings] *)

Module Strings.

(** [strings.HasPrefix(s, prefix)] *)
Fixpoint HasPrefix (s prefix : string) {struct prefix} : bool :=
  match prefix with
  | EmptyString => true
  | String c p' =>
      match s with
      | EmptyString => false
      | String c' s' => if Ascii.eqb c' c then HasPrefix s' p' else false
      end
  end.

(** [strings.Contains(s, substr)] *)
Fixpoint Contains (s substr : string) {struct s} : bool :=
  match s with
  | EmptyString => HasPrefix EmptyString substr
  | String _ s' => HasPrefix s substr || Contains s' substr
  end.

(** [strings.Split(s, sep)]; every call site passes a one-byte separator. *)
Fixpoint Split (s : string) (sep : ascii) : list string :=
  match s with
  | EmptyString => [EmptyString]
  | String c s' =>
      if Ascii.eqb c sep then EmptyString :: Split s' sep
      else match Split s' sep with
           | x :: xs => String c x :: xs
           | [] => [String c EmptyString]
           end
  end.

(** [strings.SplitN(s, sep, n)] for [n >= 0] and a one-byte separator. *)
Fixpoint SplitN (s : string) (sep : ascii) (n : nat) {struct s} : list string :=
  match n with
  | O => []
  | S O => [s]
  | S n' =>
      match s with
      | EmptyString => [EmptyString]
      | String c s' =>
          if Ascii.eqb c sep then EmptyString :: SplitN s' sep n'
          else match SplitN s' sep n with
               | x :: xs => String c x :: xs
               | [] => [String c EmptyString]
               end
      end
  end.

(** [strings.Join(elems, sep)] *)
Fixpoint Join (elems : list string) (sep : string) : string :=
  match elems with
  | [] => EmptyString
  | [x] => x
  | x :: xs => x +:+ sep +:+ Join xs sep
  end.

(** White space as [strings.TrimSpace] sees it on ASCII text:
    tab, line feed, vertical tab, form feed, carriage return, space. *)
Definition isSpace (c : ascii) : bool :=
  let n := nat_of_ascii c in
  ((9 <=? n)%nat && (n <=? 13)%nat) || (n =? 32)%nat.

Fixpoint TrimLeft (s : string) : string :=
  match s with
  | EmptyString => EmptyString
  | String c s' => if isSpace c then TrimLeft s' else s
  end.

Fixpoint TrimRight (s : string) : string :=
  match s with
  | EmptyString => EmptyString
  | String c s' =>
      match TrimRight s' with
      | EmptyString => if isSpace c then EmptyString else String c EmptyString
      | r => String c r
      end
  end.

(** [strings.TrimSpace(s)] *)
Definition TrimSpace (s : string) : string := TrimRight (TrimLeft s).

End Strings.

(** ** Names, attributes and the decoder's namespace context *)

(** [xml.Name] *)
Record Name := mkName { Space : string; Local : string }.

(** [xml.Attr] *)
Record Attr := mkAttr { AName : Name; AValue : string }.

(** [Decoder]: the token source is threaded separately, the namespace
    context is the only other field. *)
Record Decoder := mkDecoder { namespaces : gmap string string }.

Definition colon : ascii := ":"%char.

(** [matchesField] checks if a struct tag matches an element. *)
Definition matchesField (d : Decoder) (tag elemLocal elemNS : string) : bool :=
  if Strings.Contains tag ":" then
    let parts := Strings.SplitN tag colon 2 in
    let tagPrefix := nth 0 parts "" in
    let tagLocal := nth 1 parts "" in
    match namespaces d !! tagPrefix with
    | None => false
    | Some expectedNS =>
        String.eqb tagLocal elemLocal && String.eqb expectedNS elemNS
    end
  else if negb (String.eqb tag elemLocal) then false
  else
    match namespaces d !! "" with
    | Some defaultNS => String.eqb elemNS defaultNS
    | None => String.eqb elemNS ""
    end.

(** [matchesAttribute] checks if a struct tag matches an attribute. *)
Definition matchesAttribute (d : Decoder) (tag : string) (attr : Attr) : bool :=
  if Strings.Contains tag ":" then
    let parts := Strings.SplitN tag colon 2 in
    let tagPrefix := nth 0 parts "" in
    let tagLocal := nth 1 parts "" in
    match namespaces d !! tagPrefix with
    | None => false
    | Some expectedNS =>
        String.eqb tagLocal (Local (AName attr))
        && String.eqb expectedNS (Space (AName attr))
    end
  else String.eqb tag (Local (AName attr)).

(** ** Package [strconv], base 10 and bit size 64 *)

Module Strconv.

Definition digit (c : ascii) : option Z :=
  let n := nat_of_ascii c in
  if ((48 <=? n)%nat && (n <=? 57)%nat) then Some (Z.of_nat n - 48) else None.

Fixpoint digits (s : string) (acc : Z) : option Z :=
  match s with
  | EmptyString => Some acc
  | String c s' =>
      match digit c with
      | Some k => digits s' (10 * acc + k)
      | None => None
      end
  end.

(** [strconv.ParseUint(s, 10, 64)]; [None] is a [*NumError]
    (syntax or range). *)
Definition ParseUint (s : string) : option Z :=
  match s with
  | EmptyString => None
  | _ =>
      match digits s 0 with
      | Some n => if n <? 2 ^ 64 then Some n else None
      | None => None
      end
  end.

(** [strconv.ParseInt(s, 10, 64)] *)
Definition ParseInt (s : string) : option Z :=
  match s with
  | EmptyString => None
  | String c s' =>
      let neg := Ascii.eqb c "-" in
      let body := if Ascii.eqb c "+" || neg then s' else s in
      match body with
      | EmptyString => None
      | _ =>
          match digits body 0 with
          | None => None
          | Some un =>
              if negb neg && (2 ^ 63 <=? un) then None
              else if neg && (2 ^ 63 <? un) then None
              else Some (if neg then - un else un)
          end
      end
  end.

End Strconv.

(** ** Static types and dynamic values ([reflect]) *)

(** Integer kinds: [Int]/[Uint] (64 bits on the platforms modelled) and
    the fixed-width ones. *)
Inductive Width := WNative | W8 | W16 | W32 | W64.

Definition bits (w : Width) : Z :=
  match w with
  | WNative => 64 | W8 => 8 | W16 => 16 | W32 => 32 | W64 => 64
  end.

(** A Go type as [reflect.Type] shows it.  [TOther] stands for every kind
    [decodeElement] and [setFieldValue] have no case for (floats, maps,
    interfaces, ...).  [FTag] is the value of the field's [xml] key,
    empty when the key is absent. *)
Inductive GoType :=
| TString
| TBool
| TInt (w : Width)
| TUint (w : Width)
| TOther (kind : string)
| TPtr (elem : GoType)
| TSlice (elem : GoType)
| TStruct (name : string) (fields : list StructField)
with StructField :=
| Field (fname ftag : string) (ftype : GoType).

Definition FName (f : StructField) : string := let 'Field n _ _ := f in n.
Definition FTag (f : StructField) : string := let 'Field _ t _ := f in t.
Definition FType (f : StructField) : GoType := let 'Field _ _ t := f in t.

(** [t.NumField()] and [t.Field(i)] *)
Definition fieldsOf (t : GoType) : list StructField :=
  match t with
  | TStruct _ fs => fs
  | _ => []
  end.

Definition Width_eqb (a b : Width) : bool :=
  match a, b with
  | WNative, WNative | W8, W8 | W16, W16 | W32, W32 | W64, W64 => true
  | _, _ => false
  end.

(** Identity of types, the [==] of [reflect.Type]. *)
Fixpoint GoType_eqb (a b : GoType) {struct a} : bool :=
  match a, b with
  | TString, TString => true
  | TBool, TBool => true
  | TInt w, TInt w' => Width_eqb w w'
  | TUint w, TUint w' => Width_eqb w w'
  | TOther k, TOther k' => String.eqb k k'
  | TPtr x, TPtr y => GoType_eqb x y
  | TSlice x, TSlice y => GoType_eqb x y
  | TStruct n fs, TStruct m gs =>
      String.eqb n m &&
      (fix fields_eqb (fs gs : list StructField) {struct fs} : bool :=
         match fs, gs with
         | [], [] => true
         | Field n1 t1 ty1 :: fs', Field n2 t2 ty2 :: gs' =>
             String.eqb n1 n2 && String.eqb t1 t2 && GoType_eqb ty1 ty2
             && fields_eqb fs' gs'
         | _, _ => false
         end) fs gs
  | _, _ => false
  end.

Inductive Value :=
| VString (s : string)
| VBool (b : bool)
| VInt (n : Z)
| VUint (n : Z)
| VOther
| VPtr (pointee : option Value)
| VSlice (elems : list Value)
| VStruct (fields : list Value).

(** The zero value of a type, what [reflect.New(t).Elem()] holds. *)
Fixpoint zero (t : GoType) : Value :=
  match t with
  | TString => VString ""
  | TBool => VBool false
  | TInt _ => VInt 0
  | TUint _ => VUint 0
  | TOther _ => VOther
  | TPtr _ => VPtr None
  | TSlice _ => VSlice []
  | TStruct _ fs =>
      VStruct ((fix zeros (fs : list StructField) : list Value :=
                  match fs with
                  | [] => []
                  | Field _ _ ty :: fs' => zero ty :: zeros fs'
                  end) fs)
  end.

(** [v.Field(i)], read and written in place. *)
Definition getField (v : Value) (i : nat) : Value :=
  match v with
  | VStruct fs => default VOther (fs !! i)
  | _ => VOther
  end.

Definition setField (v : Value) (i : nat) (x : Value) : Value :=
  match v with
  | VStruct fs => VStruct (<[i := x]> fs)
  | _ => v
  end.

(** [reflect.Append(v, elem)] *)
Definition appendValue (v elem : Value) : Value :=
  match v with
  | VSlice l => VSlice (l ++ [elem])
  | _ => VSlice [elem]
  end.

(** [v.SetInt(x)] and [v.SetUint(x)] store the low [bits w] bits: the Go
    conversions [int8(x)], [uint8(x)], ... *)
Definition wrapInt (w : Width) (x : Z) : Z :=
  (x + 2 ^ (bits w - 1)) mod 2 ^ bits w - 2 ^ (bits w - 1).

Definition wrapUint (w : Width) (x : Z) : Z := x mod 2 ^ bits w.

(** [xml.Name] and [xml.Attr] as types and as values. *)
Definition xmlNameT : GoType :=
  TStruct "xml.Name" [Field "Space" "" TString; Field "Local" "" TString].

Definition xmlAttrT : GoType :=
  TStruct "xml.Attr" [Field "Name" "" xmlNameT; Field "Value" "" TString].

Definition nameValue (n : Name) : Value :=
  VStruct [VString (Space n); VString (Local n)].

Definition attrValue (a : Attr) : Value :=
  VStruct [nameValue (AName a); VString (AValue a)].

Definition bytesValue (s : string) : Value :=
  VSlice (map (fun c => VUint (Z.of_nat (nat_of_ascii c))) (list_ascii_of_string s)).

(** ** Tokens and the token source ([encoding/xml]) *)

(** [xml.StartElement] *)
Record StartElement := mkStart { EName : Name; EAttr : list Attr }.

(** [xml.Token].  Names are already resolved by the tokenizer: [Space]
    holds the namespace URI, never the literal prefix of the document.
    Namespace declarations stay in [EAttr]: [xmlns:p="u"] is the
    attribute with [Space = "xmlns"], [Local = "p"], and [xmlns="u"] the
    one with [Space = ""], [Local = "xmlns"]. *)
Inductive Token :=
| TStart (start : StartElement)
| TEnd (name : Name)
| TCharData (data : string)
| TComment (data : string)
| TProcInst (target inst : string)
| TDirective (data : string).

(** One call of [decoder.Token()]: a token, or an error other than
    [io.EOF].  The source is the list of its future reads; on the empty
    list [Token()] returns [io.EOF]. *)
Inductive Read :=
| Tok (t : Token)
| Fail (msg : string).

Inductive Error :=
| EOF
| StreamError (msg : string)
| NotPointer
| UnsupportedType (t : GoType)
| UnsupportedFieldType (t : GoType)
| ParseIntError (s : string)
| ParseUintError (s : string)
| EncodeError (msg : string)
| ReflectPanic
| OutOfFuel.

(** The state a decoding function leaves behind: the target as written so
    far (reflection writes in place, also on the error paths), the reads
    not yet consumed, and the returned [error] ([None] is [nil]). *)
Record Out := mkOut { val : Value; rest : list Read; err : option Error }.

Definition ok (v : Value) (s : list Read) : Out := mkOut v s None.
Definition failed (v : Value) (s : list Read) (e : Error) : Out := mkOut v s (Some e).

(** [decoder.Skip()]: reads until it has consumed the end element
    matching the most recent start element already consumed; any error of
    [Token()], [io.EOF] included, is returned. *)
Fixpoint Skip (depth : nat) (s : list Read) : list Read * option Error :=
  match s with
  | [] => ([], Some EOF)
  | Fail e :: r => (r, Some (StreamError e))
  | Tok (TStart _) :: r => Skip (S depth) r
  | Tok (TEnd _) :: r =>
      match depth with
      | O => (r, None)
      | S k => Skip k r
      end
  | Tok _ :: r => Skip depth r
  end.

(** [xml.Encoder] writing to a [strings.Builder], as an interface. *)
Record XmlEncoder := mkEncoder {
  EncState : Type;
  NewEncoder : EncState;
  EncodeToken : EncState -> Token -> EncState + string;
  Flushed : EncState -> string
}.

(** ** Value coercion *)

(** [setFieldValue] sets a field value from a string (attribute values). *)
Fixpoint setFieldValue (t : GoType) (v : Value) (s : string) : Value * option Error :=
  match t with
  | TPtr elem =>
      let cur := match v with VPtr (Some x) => x | _ => zero elem end in
      let '(x, e) := setFieldValue elem cur s in
      (VPtr (Some x), e)
  | TString => (VString s, None)
  | TBool => (VBool (String.eqb s "true"), None)
  | TInt w =>
      match Strconv.ParseInt s with
      | None => (v, Some (ParseIntError s))
      | Some i => (VInt (wrapInt w i), None)
      end
  | TUint w =>
      match Strconv.ParseUint s with
      | None => (v, Some (ParseUintError s))
      | Some i => (VUint (wrapUint w i), None)
      end
  | _ => (v, Some (UnsupportedFieldType t))
  end.

(** The loop shared by [decodeString], [decodeBool], [decodeInt] and
    [decodeUint]: character data is appended to the builder, the first
    end element stops the loop, every other token is ignored. *)
Inductive TextRead :=
| TextEnd (text : string) (r : list Read)
| TextEOF
| TextErr (msg : string) (r : list Read).

Fixpoint readText (acc : string) (s : list Read) : TextRead :=
  match s with
  | [] => TextEOF
  | Fail e :: r => TextErr e r
  | Tok (TCharData t) :: r => readText (acc +:+ t) r
  | Tok (TEnd _) :: r => TextEnd acc r
  | Tok _ :: r => readText acc r
  end.

(** [decodeString] decodes character data into a string field. *)
Definition decodeString (v : Value) (s : list Read) : Out :=
  match readText "" s with
  | TextEnd text r => ok (VString (Strings.TrimSpace text)) r
  | TextEOF => ok v []
  | TextErr e r => failed v r (StreamError e)
  end.

(** [decodeBool] decodes character data into a bool field. *)
Definition decodeBool (v : Value) (s : list Read) : Out :=
  match readText "" s with
  | TextEnd text r => ok (VBool (String.eqb (Strings.TrimSpace text) "true")) r
  | TextEOF => ok v []
  | TextErr e r => failed v r (StreamError e)
  end.

(** [decodeInt] decodes character data into an int field. *)
Definition decodeInt (w : Width) (v : Value) (s : list Read) : Out :=
  match readText "" s with
  | TextEnd text r =>
      let str := Strings.TrimSpace text in
      match Strconv.ParseInt str with
      | None => failed v r (ParseIntError str)
      | Some i => ok (VInt (wrapInt w i)) r
      end
  | TextEOF => ok v []
  | TextErr e r => failed v r (StreamError e)
  end.

(** [decodeUint] decodes character data into a uint field. *)
Definition decodeUint (w : Width) (v : Value) (s : list Read) : Out :=
  match readText "" s with
  | TextEnd text r =>
      let str := Strings.TrimSpace text in
      match Strconv.ParseUint str with
      | None => failed v r (ParseUintError str)
      | Some i => ok (VUint (wrapUint w i)) r
      end
  | TextEOF => ok v []
  | TextErr e r => failed v r (StreamError e)
  end.

(** ** Field lookup by tag *)

Definition comma : ascii := ","%char.
Definition gt : ascii := ">"%char.

(** The first field, in declaration order, whose tag satisfies [p]. *)
Definition findByTag (p : string -> bool) (t : GoType) : option nat :=
  fst <$> list_find (fun f => p (FTag f) = true) (fieldsOf t).

Definition isChardataTag (tag : string) : bool :=
  negb (String.eqb tag "") && Strings.Contains tag "chardata".

Definition isCDataTag (tag : string) : bool :=
  negb (String.eqb tag "")
  && (Strings.Contains tag "cdata" && negb (Strings.Contains tag "chardata")).

Definition isInnerXMLTag (tag : string) : bool :=
  negb (String.eqb tag "") && Strings.Contains tag "innerxml".

Definition isAnyTag (tag : string) : bool :=
  negb (String.eqb tag "")
  && (Strings.Contains tag ",any" && negb (Strings.Contains tag ",any,attr")).

Definition isCommentTag (tag : string) : bool :=
  negb (String.eqb tag "") && Strings.Contains tag "comment".

Definition isAnyAttrTag (tag : string) : bool :=
  negb (String.eqb tag "") && Strings.Contains tag ",any,attr".

(** [findChardataField] finds the struct field marked with ,chardata. *)
Definition findChardataField : GoType -> option nat := findByTag isChardataTag.

(** [findCDataField] finds the struct field marked with ,cdata. *)
Definition findCDataField : GoType -> option nat := findByTag isCDataTag.

(** [findInnerXMLField] finds the struct field marked with ,innerxml. *)
Definition findInnerXMLField : GoType -> option nat := findByTag isInnerXMLTag.

(** [findAnyField] finds the struct field marked with ,any
    (but not ,any,attr). *)
Definition findAnyField : GoType -> option nat := findByTag isAnyTag.

(** [findCommentField] finds the struct field marked with ,comment. *)
Definition findCommentField : GoType -> option nat := findByTag isCommentTag.

(** The test of [setXMLName]: a field named XMLName of type [xml.Name]. *)
Definition isXMLNameField (f : StructField) : bool :=
  String.eqb (FName f) "XMLName" && GoType_eqb (FType f) xmlNameT.

(** [setXMLName] sets the XMLName field if present in the struct. *)
Definition setXMLName (t : GoType) (v : Value) (start : StartElement) : Value :=
  match list_find (fun f => isXMLNameField f = true) (fieldsOf t) with
  | Some (i, _) => setField v i (nameValue (EName start))
  | None => v
  end.

(** The body of the loop of [findFieldWithTag]: [true] when the field is
    returned for this element, [false] on every [continue]. *)
Definition fieldMatchesElement (d : Decoder) (start : StartElement) (f : StructField) : bool :=
  let tag := FTag f in
  if String.eqb tag "" || String.eqb tag "-" then false else
  let tagParts := Strings.Split tag comma in
  let tagName := nth 0 tagParts "" in
  if (1 <? length tagParts)%nat
     && (String.eqb (nth 1 tagParts "") "attr"
         || String.eqb (nth 1 tagParts "") "chardata"
         || Strings.HasPrefix (nth 0 tagParts "") "xmlns")
  then false else
  if Strings.Contains tag "attr" || Strings.HasPrefix tagName "xmlns" then false else
  let firstSegment :=
    if Strings.Contains tagName ">" then nth 0 (Strings.Split tagName gt) ""
    else tagName in
  matchesField d firstSegment (Local (EName start)) (Space (EName start)).

(** [findFieldWithTag] finds the struct field that matches the XML
    element; [None] is the "no field found" error. *)
Definition findFieldWithTag (d : Decoder) (t : GoType) (start : StartElement) : option nat :=
  fst <$> list_find (fun f => fieldMatchesElement d start f = true) (fieldsOf t).

(** [pathFieldInfo]: the field is kept as its index in the enclosing
    struct, which is where the writes land. *)
Record pathFieldInfo := mkPath { pfField : nat; pfTag : string }.

(** The body of the loop of [findAllPathFieldsWithPrefix]. *)
Definition pathFieldMatches (d : Decoder) (start : StartElement) (f : StructField) : bool :=
  let tag := FTag f in
  if String.eqb tag "" || String.eqb tag "-" then false else
  let tagParts := Strings.Split tag comma in
  let tagName := nth 0 tagParts "" in
  if (1 <? length tagParts)%nat
     && (String.eqb (nth 1 tagParts "") "attr"
         || String.eqb (nth 1 tagParts "") "chardata")
  then false else
  if Strings.Contains tag "attr" || Strings.HasPrefix tagName "xmlns" then false else
  if negb (Strings.Contains tagName ">") then false else
  let firstSegment := nth 0 (Strings.Split tagName gt) "" in
  matchesField d firstSegment (Local (EName start)) (Space (EName start)).

Fixpoint pathFieldsFrom (d : Decoder) (start : StartElement) (i : nat)
    (fs : list StructField) : list pathFieldInfo :=
  match fs with
  | [] => []
  | f :: fs' =>
      (if pathFieldMatches d start f
       then [mkPath i (nth 0 (Strings.Split (FTag f) comma) "")] else [])
      ++ pathFieldsFrom d start (S i) fs'
  end.

(** [findAllPathFieldsWithPrefix] finds all struct fields whose path
    starts with the given element. *)
Definition findAllPathFieldsWithPrefix (d : Decoder) (t : GoType) (start : StartElement)
    : list pathFieldInfo :=
  pathFieldsFrom d start 0 (fieldsOf t).

(** ** Attributes *)

(** The guards of the second pass of [decodeAttributes]: the name the
    field is matched under, or [None] when the field is passed over. *)
Definition attrFieldName (anyAttrFieldIdx : option nat) (i : nat) (f : StructField)
    : option string :=
  if bool_decide (anyAttrFieldIdx = Some i) then None else
  let tag := FTag f in
  if String.eqb tag "" || negb (Strings.Contains tag "attr") then None else
  if Strings.Contains tag ",any,attr" then None else
  let attrName := nth 0 (Strings.Split tag comma) "" in
  if Strings.HasPrefix attrName "xmlns" then None else
  Some attrName.

(** Second pass: for every attribute field the first matching attribute
    is coerced into it and its index recorded in [matchedAttrs]. *)
Fixpoint attrFieldsFrom (d : Decoder) (anyAttrFieldIdx : option nat) (attrs : list Attr)
    (i : nat) (fs : list StructField) (v : Value) (matchedAttrs : gset nat)
    : Value * gset nat * option Error :=
  match fs with
  | [] => (v, matchedAttrs, None)
  | f :: fs' =>
      match attrFieldName anyAttrFieldIdx i f with
      | None => attrFieldsFrom d anyAttrFieldIdx attrs (S i) fs' v matchedAttrs
      | Some attrName =>
          match list_find (fun a => matchesAttribute d attrName a = true) attrs with
          | None => attrFieldsFrom d anyAttrFieldIdx attrs (S i) fs' v matchedAttrs
          | Some (attrIdx, attr) =>
              let '(x, e) := setFieldValue (FType f) (getField v i) (AValue attr) in
              let v' := setField v i x in
              match e with
              | Some _ => (v', matchedAttrs, e)
              | None =>
                  attrFieldsFrom d anyAttrFieldIdx attrs (S i) fs' v'
                    ({[attrIdx]} ∪ matchedAttrs)
              end
          end
      end
  end.

(** Third pass: the attributes no field matched, in document order. *)
Fixpoint unmatchedFrom (matchedAttrs : gset nat) (i : nat) (attrs : list Attr) : list Attr :=
  match attrs with
  | [] => []
  | a :: attrs' =>
      (if bool_decide (i ∈ matchedAttrs) then [] else [a])
      ++ unmatchedFrom matchedAttrs (S i) attrs'
  end.

(** [decodeAttributes] decodes XML attributes into struct fields. *)
Definition decodeAttributes (d : Decoder) (t : GoType) (v : Value) (attrs : list Attr)
    : Value * option Error :=
  let anyAttrFieldIdx := findByTag isAnyAttrTag t in
  match attrFieldsFrom d anyAttrFieldIdx attrs 0 (fieldsOf t) v ∅ with
  | (v', _, Some e) => (v', Some e)
  | (v', matchedAttrs, None) =>
      match anyAttrFieldIdx with
      | None => (v', None)
      | Some i =>
          let unmatchedAttrs := unmatchedFrom matchedAttrs 0 attrs in
          if (0 <? length unmatchedAttrs)%nat
             && GoType_eqb (default (TOther "") (FType <$> fieldsOf t !! i)) (TSlice xmlAttrT)
          then (setField v' i (VSlice (map attrValue unmatchedAttrs)), None)
          else (v', None)
      end
  end.

(** ** The recursive decode engine *)

Section Engine.

Variable E : XmlEncoder.
Variable d : Decoder.

(** The raw-capture loop of [decodeStruct] (the ,innerxml branch). *)
Inductive InnerRead :=
| InnerEnd (content : string) (r : list Read)
| InnerEOF
| InnerErr (e : Error) (r : list Read).

Fixpoint innerXMLLoop (enc : EncState E) (depth : nat) (s : list Read) : InnerRead :=
  match s with
  | [] => InnerEOF
  | Fail e :: r => InnerErr (StreamError e) r
  | Tok (TEnd n) :: r =>
      match depth with
      | O => InnerEnd (Flushed E enc) r
      | S k =>
          match EncodeToken E enc (TEnd n) with
          | inl enc' => innerXMLLoop enc' k r
          | inr e => InnerErr (EncodeError e) r
          end
      end
  | Tok (TStart st) :: r =>
      match EncodeToken E enc (TStart st) with
      | inl enc' => innerXMLLoop enc' (S depth) r
      | inr e => InnerErr (EncodeError e) r
      end
  | Tok t :: r =>
      match EncodeToken E enc t with
      | inl enc' => innerXMLLoop enc' depth r
      | inr e => InnerErr (EncodeError e) r
      end
  end.

(** The write at the end of the raw capture: a string field, or a byte
    slice; any other kind is left alone. *)
Definition setInnerXML (t : GoType) (v : Value) (i : nat) (content : string) : Value :=
  match FType <$> fieldsOf t !! i with
  | Some TString => setField v i (VString content)
  | Some (TSlice (TUint W8)) => setField v i (bytesValue content)
  | _ => v
  end.

(** [field.SetString(text)] on field [i]; [SetString] panics when the
    field is not of kind string. *)
Definition setStringField (t : GoType) (v : Value) (i : nat) (text : string)
    : Value * option Error :=
  match FType <$> fieldsOf t !! i with
  | Some TString => (setField v i (VString text), None)
  | _ => (v, Some ReflectPanic)
  end.

(** The end-element case of the loop of [decodeStruct], first half: the
    accumulated text goes to the chardata field when there is one, else
    to the cdata field; nothing is written when the builder is empty. *)
Definition assignText (t : GoType) (chardataField cdataField : option nat)
    (chardata : string) (v : Value) : Value * option Error :=
  match chardataField, cdataField with
  | Some i, _ =>
      if (0 <? String.length chardata)%nat
      then setStringField t v i (Strings.TrimSpace chardata)
      else (v, None)
  | None, Some j =>
      if (0 <? String.length chardata)%nat
      then setStringField t v j (Strings.TrimSpace chardata)
      else (v, None)
  | None, None => (v, None)
  end.

(** Second half: the accumulated comments go to the comment field. *)
Definition assignComments (t : GoType) (commentField : option nat)
    (comments : string) (v : Value) : Value * option Error :=
  match commentField with
  | Some k =>
      if (0 <? String.length comments)%nat
      then setStringField t v k (Strings.TrimSpace comments)
      else (v, None)
  | None => (v, None)
  end.

Definition endOfStruct (t : GoType) (chardataField cdataField commentField : option nat)
    (chardata comments : string) (v : Value) : Value * option Error :=
  match assignText t chardataField cdataField chardata v with
  | (v1, Some e) => (v1, Some e)
  | (v1, None) => assignComments t commentField comments v1
  end.

(** What a Go caller sees as a returned [error]: a panic unwinds through
    every caller, and running out of fuel is an artefact of the
    embedding; neither is caught by an [if err != nil]. *)
Definition isReturnedError (e : Error) : bool :=
  match e with
  | ReflectPanic | OutOfFuel => false
  | _ => true
  end.

(** [decodeAnyElement] decodes an unmatched element into the ,any field;
    [dec] is [decodeElement]. *)
Definition decodeAnyElement (dec : GoType -> Value -> StartElement -> list Read -> Out)
    (t : GoType) (v : Value) (start : StartElement) (s : list Read) : Out :=
  match t with
  | TSlice elemType =>
      let o := dec elemType (zero elemType) start s in
      match err o with
      | Some e0 =>
          if isReturnedError e0
          then let '(r, e) := Skip 0 (rest o) in mkOut v r e
          else failed v (rest o) e0
      | None => ok (appendValue v (val o)) (rest o)
      end
  | TPtr elemType =>
      let cur := match v with VPtr (Some x) => x | _ => zero elemType end in
      let o := dec elemType cur start s in
      mkOut (VPtr (Some (val o))) (rest o) (err o)
  | _ => dec t v start s
  end.

(** The state of one pass of the inner [for] of
    [decodeMultiplePathFields] over [pathFields]. *)
Record PathPass := mkPass {
  ppVal : Value;
  ppRest : list Read;
  ppFound : list bool;
  ppMatching : list pathFieldInfo;
  ppIndices : list nat;
  ppMatchedAny : bool;
  ppErr : option Error
}.

(** The inner [for i, pf := range pathFields]; [dec] is [decodeElement],
    [t] the type of the struct the fields belong to. *)
Fixpoint pathPass (dec : GoType -> Value -> StartElement -> list Read -> Out)
    (t : GoType) (start : StartElement) (i : nat) (pfs : list pathFieldInfo)
    (st : PathPass) : PathPass :=
  match pfs with
  | [] => st
  | pf :: pfs' =>
      if default false (ppFound st !! i) then pathPass dec t start (S i) pfs' st else
      let pathSegments := Strings.Split (pfTag pf) gt in
      if (length pathSegments <? 2)%nat then pathPass dec t start (S i) pfs' st else
      let nextSegment := nth 1 pathSegments "" in
      if matchesField d nextSegment (Local (EName start)) (Space (EName start)) then
        if (length pathSegments =? 2)%nat then
          let ft := default (TOther "") (FType <$> fieldsOf t !! pfField pf) in
          let o := dec ft (getField (ppVal st) (pfField pf)) start (ppRest st) in
          let v' := setField (ppVal st) (pfField pf) (val o) in
          match err o with
          | Some e =>
              mkPass v' (rest o) (ppFound st) (ppMatching st) (ppIndices st) true (Some e)
          | None =>
              pathPass dec t start (S i) pfs'
                (mkPass v' (rest o) (<[i := true]> (ppFound st))
                   (ppMatching st) (ppIndices st) true None)
          end
        else
          let remainingPath := Strings.Join (drop 1 pathSegments) ">" in
          pathPass dec t start (S i) pfs'
            (mkPass (ppVal st) (ppRest st) (ppFound st)
               (ppMatching st ++ [mkPath (pfField pf) remainingPath])
               (ppIndices st ++ [i]) true None)
      else pathPass dec t start (S i) pfs' st
  end.

(** [foundFields[idx] = true] for every collected index. *)
Definition markFound (found : list bool) (indices : list nat) : list bool :=
  foldl (fun f idx => <[idx := true]> f) found indices.

(** The bodies of the four mutually recursive functions.  The callees are
    parameters: [decElement] is [decodeElement], [decStruct] is
    [decodeStruct], [loop] is the next iteration of the token loop of
    [decodeStruct] and [pathLoop] a call, or the next iteration, of
    [decodeMultiplePathFields]. *)
Section Bodies.

Variable decElement : GoType -> Value -> StartElement -> list Read -> Out.
Variable decStruct : GoType -> Value -> StartElement -> list Read -> Out.
Variable loop : GoType -> option nat -> option nat -> option nat -> option nat ->
                string -> string -> Value -> list Read -> Out.
Variable pathLoop : GoType -> list pathFieldInfo -> list bool -> Value -> list Read -> Out.

(** [decodeElement] decodes an XML element into a [reflect.Value]. *)
Definition decodeElementBody (t : GoType) (v : Value) (start : StartElement)
    (s : list Read) : Out :=
  match t with
  | TPtr elem =>
      let cur := match v with VPtr (Some x) => x | _ => zero elem end in
      let o := decElement elem cur start s in
      mkOut (VPtr (Some (val o))) (rest o) (err o)
  | TStruct _ _ => decStruct t v start s
  | TString => decodeString v s
  | TBool => decodeBool v s
  | TInt w => decodeInt w v s
  | TUint w => decodeUint w v s
  | TSlice elemType =>
      let o := decElement elemType (zero elemType) start s in
      match err o with
      | Some e => failed v (rest o) e
      | None => ok (appendValue v (val o)) (rest o)
      end
  | TOther _ => failed v s (UnsupportedType t)
  end.

(** [decodeStruct] decodes an XML element into a struct: the XMLName
    field, the attributes, then the raw capture or the token loop. *)
Definition decodeStructBody (t : GoType) (v : Value) (start : StartElement)
    (s : list Read) : Out :=
  let v1 := setXMLName t v start in
  match decodeAttributes d t v1 (EAttr start) with
  | (v2, Some e) => failed v2 s e
  | (v2, None) =>
      match findInnerXMLField t with
      | Some i =>
          match innerXMLLoop (NewEncoder E) 0 s with
          | InnerEnd content r => ok (setInnerXML t v2 i content) r
          | InnerEOF => ok v2 []
          | InnerErr e r => failed v2 r e
          end
      | None =>
          loop t (findChardataField t) (findCDataField t) (findAnyField t)
            (findCommentField t) "" "" v2 s
      end
  end.

(** One iteration of the token loop of [decodeStruct]. *)
Definition decodeStructLoopBody (t : GoType)
    (chardataField cdataField anyField commentField : option nat)
    (chardata comments : string) (v : Value) (s : list Read) : Out :=
  let continue := loop t chardataField cdataField anyField commentField in
  match s with
  | [] => ok v []
  | Fail e :: r => failed v r (StreamError e)
  | Tok (TStart tok) :: r =>
      let pathFields := findAllPathFieldsWithPrefix d t tok in
      if (0 <? length pathFields)%nat then
        let o := pathLoop t pathFields (replicate (length pathFields) false) v r in
        match err o with
        | Some _ => o
        | None => continue chardata comments (val o) (rest o)
        end
      else
        match findFieldWithTag d t tok with
        | None =>
            match anyField with
            | Some a =>
                let ft := default (TOther "") (FType <$> fieldsOf t !! a) in
                let o := decodeAnyElement decElement ft (getField v a) tok r in
                let v' := setField v a (val o) in
                match err o with
                | Some e => failed v' (rest o) e
                | None => continue chardata comments v' (rest o)
                end
            | None =>
                match Skip 0 r with
                | (r', Some e) => failed v r' e
                | (r', None) => continue chardata comments v r'
                end
            end
        | Some i =>
            let ft := default (TOther "") (FType <$> fieldsOf t !! i) in
            let o := decElement ft (getField v i) tok r in
            let v' := setField v i (val o) in
            match err o with
            | Some e => failed v' (rest o) e
            | None => continue chardata comments v' (rest o)
            end
        end
  | Tok (TCharData data) :: r =>
      if bool_decide (is_Some chardataField) || bool_decide (is_Some cdataField)
      then continue (chardata +:+ data) comments v r
      else continue chardata comments v r
  | Tok (TComment data) :: r =>
      match commentField with
      | Some _ =>
          let sep := if (0 <? String.length comments)%nat then String "010" "" else "" in
          continue chardata (comments +:+ sep +:+ data) v r
      | None => continue chardata comments v r
      end
  | Tok (TEnd _) :: r =>
      let '(v', e) :=
        endOfStruct t chardataField cdataField commentField chardata comments v in
      mkOut v' r e
  | Tok _ :: r => continue chardata comments v r
  end.

(** One iteration of the token loop of [decodeMultiplePathFields];
    [foundFields] is the loop's own state, all [false] on entry. *)
Definition decodeMultiplePathFieldsBody (t : GoType) (pathFields : list pathFieldInfo)
    (foundFields : list bool) (v : Value) (s : list Read) : Out :=
  match s with
  | [] => ok v []
  | Fail e :: r => failed v r (StreamError e)
  | Tok (TStart tok) :: r =>
      let p := pathPass decElement t tok 0 pathFields
                 (mkPass v r foundFields [] [] false None) in
      match ppErr p with
      | Some e => failed (ppVal p) (ppRest p) e
      | None =>
          if (0 <? length (ppMatching p))%nat then
            let o := pathLoop t (ppMatching p)
                       (replicate (length (ppMatching p)) false)
                       (ppVal p) (ppRest p) in
            match err o with
            | Some _ => o
            | None =>
                pathLoop t pathFields
                  (markFound (ppFound p) (ppIndices p)) (val o) (rest o)
            end
          else if negb (ppMatchedAny p) then
            match Skip 0 (ppRest p) with
            | (r', Some e) => failed (ppVal p) r' e
            | (r', None) => pathLoop t pathFields (ppFound p) (ppVal p) r'
            end
          else pathLoop t pathFields (ppFound p) (ppVal p) (ppRest p)
      end
  | Tok (TEnd _) :: r => ok v r
  | Tok _ :: r => pathLoop t pathFields foundFields v r
  end.

End Bodies.

(** [decodeElement], [decodeStruct] with its token loop, and the token
    loop of [decodeMultiplePathFields], tied together.  Every call and
    every loop iteration takes one unit of [fuel]; [OutOfFuel] is no Go
    error. *)
Fixpoint decodeElement (fuel : nat) (t : GoType) (v : Value) (start : StartElement)
    (s : list Read) {struct fuel} : Out :=
  match fuel with
  | O => failed v s OutOfFuel
  | S fuel' => decodeElementBody (decodeElement fuel') (decodeStruct fuel') t v start s
  end

with decodeStruct (fuel : nat) (t : GoType) (v : Value) (start : StartElement)
    (s : list Read) {struct fuel} : Out :=
  match fuel with
  | O => failed v s OutOfFuel
  | S fuel' => decodeStructBody (decodeStructLoop fuel') t v start s
  end

with decodeStructLoop (fuel : nat) (t : GoType)
    (chardataField cdataField anyField commentField : option nat)
    (chardata comments : string) (v : Value) (s : list Read) {struct fuel} : Out :=
  match fuel with
  | O => failed v s OutOfFuel
  | S fuel' =>
      decodeStructLoopBody (decodeElement fuel') (decodeStructLoop fuel')
        (decodeMultiplePathFields fuel')
        t chardataField cdataField anyField commentField chardata comments v s
  end

with decodeMultiplePathFields (fuel : nat) (t : GoType) (pathFields : list pathFieldInfo)
    (foundFields : list bool) (v : Value) (s : list Read) {struct fuel} : Out :=
  match fuel with
  | O => failed v s OutOfFuel
  | S fuel' =>
      decodeMultiplePathFieldsBody (decodeElement fuel') (decodeMultiplePathFields fuel')
        t pathFields foundFields v s
  end.

(** The loop of [Decode]: read tokens until the root start element. *)
Inductive RootRead :=
| RootStart (start : StartElement) (r : list Read)
| RootEOF
| RootErr (msg : string) (r : list Read).

Fixpoint readRoot (s : list Read) : RootRead :=
  match s with
  | [] => RootEOF
  | Fail e :: r => RootErr e r
  | Tok (TStart st) :: r => RootStart st r
  | Tok _ :: r => readRoot r
  end.

(** [Decode] decodes the XML into the provided value; [t] and [v] are the
    type and value of the argument itself, which has to be a non-nil
    pointer. *)
Definition Decode (fuel : nat) (t : GoType) (v : Value) (s : list Read) : Out :=
  match t, v with
  | TPtr elem, VPtr (Some x) =>
      match readRoot s with
      | RootEOF => ok v []
      | RootErr e r => failed v r (StreamError e)
      | RootStart start r =>
          let o := decodeElement fuel elem x start r in
          mkOut (VPtr (Some (val o))) (rest o) (err o)
      end
  | _, _ => failed v s NotPointer
  end.

End Engine.

(** ** Documents that differ only in their literal prefixes

    The tokenizer resolves element and attribute names, so the literal
    prefixes of a document survive in its token stream only inside the
    namespace declarations the start elements carry. *)














(** ** Example records, contexts and documents *)

Module Examples.

(** An encoder for records without an ,innerxml field. *)
Definition noEncoder : XmlEncoder :=
  mkEncoder unit tt (fun _ _ => inl tt) (fun _ => "").

Definition NS_U : string := "http://example.com/schema/user".
Definition NS_P : string := "http://example.com/schema/profile".

(** [{"": NS_U, "ns1": NS_P}] *)
Definition userContext : Decoder :=
  mkDecoder (<["" := NS_U]> (<["ns1" := NS_P]> ∅)).

Definition emptyContext : Decoder := mkDecoder ∅.

Definition plain (l : string) : Name := mkName "" l.
Definition open (l : string) : Read := Tok (TStart (mkStart (plain l) [])).
Definition close (l : string) : Read := Tok (TEnd (plain l)).
Definition text (data : string) : Read := Tok (TCharData data).

(** [struct { Content string `xml:",cdata"`; Text string `xml:",chardata"` }] *)
Definition CDataFirst : GoType :=
  TStruct "CDataFirst" [Field "Content" ",cdata" TString; Field "Text" ",chardata" TString].

(** [struct { Items []int `xml:",any"` }] *)
Definition AnyInts : GoType :=
  TStruct "AnyInts" [Field "Items" ",any" (TSlice (TInt WNative))].

(** [struct { Name string `xml:"name"` }] *)
Definition Named : GoType := TStruct "Named" [Field "Name" "name" TString].

(** [struct { ID string `xml:"id,attr"`; AnyAttr []xml.Attr `xml:",any,attr"` }] *)
Definition WithAnyAttr : GoType :=
  TStruct "WithAnyAttr"
    [Field "ID" "id,attr" TString; Field "AnyAttr" ",any,attr" (TSlice xmlAttrT)].

(** [struct { Rate string `xml:"attrition,any"` }] *)
Definition Attrition : GoType :=
  TStruct "Attrition" [Field "Rate" "attrition,any" TString].

(** [struct { ID string `xml:"id,attr"`; Name string `xml:"name"`;
             Bio string `xml:"ns1:bio"` }] *)
Definition UserRecord : GoType :=
  TStruct "User" [Field "ID" "id,attr" TString; Field "Name" "name" TString;
                  Field "Bio" "ns1:bio" TString].

Definition xmlnsDecl (prefix uri : string) : Attr := mkAttr (mkName "xmlns" prefix) uri.
Definition defaultDecl (uri : string) : Attr := mkAttr (mkName "" "xmlns") uri.

(** The children of the user document; literal prefixes do not show. *)
Definition userChildren : list Read :=
  [Tok (TStart (mkStart (mkName NS_U "name") [])); text "Jane";
   Tok (TEnd (mkName NS_U "name"));
   Tok (TStart (mkStart (mkName NS_P "bio") [])); text "Hi";
   Tok (TEnd (mkName NS_P "bio"));
   Tok (TEnd (mkName NS_U "user"))].

(** [<user xmlns="NS_U" xmlns:ns1="NS_P" id="7"><name>Jane</name>
     <ns1:bio>Hi</ns1:bio></user>] *)
Definition userDoc1 : list Read :=
  Tok (TStart (mkStart (mkName NS_U "user")
                 [defaultDecl NS_U; xmlnsDecl "ns1" NS_P; mkAttr (plain "id") "7"]))
  :: userChildren.




(** [struct { Rate string `xml:"attrition"`; Name string `xml:"name"` }] *)
Definition Churn : GoType :=
  TStruct "Churn" [Field "Rate" "attrition" TString; Field "Name" "name" TString].

(** [struct { XMLName xml.Name `xml:"doc"`; Count int `xml:"count,attr"` }] *)
Definition Counted : GoType :=
  TStruct "Counted" [Field "XMLName" "doc" xmlNameT; Field "Count" "count,attr" (TInt WNative)].

(** Records and documents of [decoder_test.go]. *)

(** The indentation between the elements of a pretty-printed document. *)
Definition indent : Read := Tok (TCharData (String "010" (String "009" (String "009" "")))).

(** [TestPathSyntaxWithSiblings] *)
Definition Product : GoType :=
  TStruct "Product"
    [Field "XMLName" "product" xmlNameT; Field "Name" "name" TString;
     Field "ID" "details>identifier>id" TString;
     Field "Code" "details>identifier>code" TString].

Definition productDoc : list Read :=
  [open "product"; indent; open "name"; text "Widget"; close "name"; indent;
   open "details"; indent; open "identifier"; indent;
   open "id"; text "12345"; close "id"; indent;
   open "code"; text "WDG-001"; close "code"; indent;
   close "identifier"; indent; close "details"; indent; close "product"].

(** [TestAnyElement] *)
Definition Extension : GoType :=
  TStruct "Extension" [Field "XMLName" "extension" xmlNameT; Field "Data" "data" TString].

Definition Config : GoType :=
  TStruct "Config"
    [Field "XMLName" "config" xmlNameT; Field "Name" "name" TString;
     Field "Any" ",any" (TSlice Extension)].

Definition configDoc : list Read :=
  [open "config"; indent; open "name"; text "test"; close "name"; indent;
   open "extension"; open "data"; text "ext1"; close "data"; close "extension"; indent;
   open "extension"; open "data"; text "ext2"; close "data"; close "extension"; indent;
   close "config"].

(** [TestComments] *)
Definition Doc : GoType :=
  TStruct "Doc"
    [Field "XMLName" "doc" xmlNameT; Field "Title" "title" TString;
     Field "Comment" ",comment" TString].

Definition docDoc : list Read :=
  [open "doc"; indent; Tok (TComment " First comment "); indent;
   open "title"; text "Test"; close "title"; indent;
   Tok (TComment " Second comment "); indent; close "doc"].

(** [TestBoolVariations] *)
Definition BoolTest : GoType :=
  TStruct "BoolTest"
    [Field "XMLName" "test" xmlNameT; Field "V1" "v1" TBool; Field "V2" "v2" TBool;
     Field "V3" "v3" TBool; Field "V4" "v4" TBool].

Definition boolDoc : list Read :=
  [open "test"; open "v1"; text "true"; close "v1"; open "v2"; text "false"; close "v2";
   open "v3"; text "1"; close "v3"; open "v4"; text "anything"; close "v4"; close "test"].

(** [TestWhitespaceOnlyElements] *)
Definition WhitespaceTest : GoType :=
  TStruct "WhitespaceTest"
    [Field "XMLName" "test" xmlNameT; Field "Str" "str" TString;
     Field "Num" "num" (TInt WNative)].

Definition whitespaceDoc : list Read :=
  [open "test"; open "str"; text "   "; close "str";
   open "num"; text "  42  "; close "num"; close "test"].

(** [struct { Items []string `xml:"item"` }] *)
Definition Basket : GoType :=
  TStruct "Basket" [Field "Items" "item" (TSlice TString)].

(** The context of the scenario of the user document with [ns1] rebound. *)
Definition reboundContext : Decoder :=
  mkDecoder (<["" := NS_U]> (<["ns1" := "http://example.com/schema/other"]> ∅)).

End Examples.

(** ** Vocabulary of the statements *)

(** Text made of white space only. *)
Fixpoint allSpace (s : string) : bool :=
  match s with
  | EmptyString => true
  | String c s' => Strings.isSpace c && allSpace s'
  end.




(** The character data of an element, delivered in any number of tokens. *)
Definition charData (chunks : list string) : list Read :=
  map (fun c => Tok (TCharData c)) chunks.

Definition concatChunks (chunks : list string) : string :=
  foldr String.append "" chunks.

(** The values of a signed and of an unsigned integer kind. *)
Definition inIntRange (w : Width) (x : Z) : Prop :=
  - 2 ^ (bits w - 1) <= x < 2 ^ (bits w - 1).

Definition inUintRange (w : Width) (x : Z) : Prop := 0 <= x < 2 ^ bits w.

(** The value is a struct with a field of index [i]. *)
Definition hasField (v : Value) (i : nat) : Prop :=
  match v with
  | VStruct fs => (i < length fs)%nat
  | _ => False
  end.

(** ** Fuel that is enough

    The nesting depth of a type, and a number of nested calls and loop
    iterations no decoding of a stream of that length exceeds. *)
Fixpoint depth (t : GoType) : nat :=
  match t with
  | TPtr elem => S (depth elem)
  | TSlice elem => S (depth elem)
  | TStruct _ fs =>
      S (S ((fix deepest (fs : list StructField) : nat :=
               match fs with
               | [] => 0
               | Field _ _ ty :: fs' => Nat.max (depth ty) (deepest fs')
               end) fs))
  | _ => 1
  end%nat.

Definition fuelFor (t : GoType) (s : list Read) : nat :=
  (depth t * (length s + 3))%nat.

(** [Decode] into a fresh target of type [t], with fuel for the whole
    document. *)
Definition decodeFresh (E : XmlEncoder) (d : Decoder) (t : GoType) (s : list Read) : Out :=
  Decode E d (fuelFor (TPtr t) s) (TPtr t) (VPtr (Some (zero t))) s.

(** In a struct type every field type is strictly shallower. *)
Definition shallowFields (t : GoType) : Prop :=
  forall i, (depth (default (TOther "") (FType <$> fieldsOf t !! i)) < depth t)%nat.

(** What a call leaves behind when it had enough fuel: a stream that is
    no longer than the one it was given, and no [OutOfFuel]. *)
Definition wellBehaved (s : list Read) (o : Out) : Prop :=
  (length (rest o) <= length s)%nat /\ err o <> Some OutOfFuel.

(** [dec'] answers like [dec] wherever [dec] does not run out of fuel. *)
Definition extendsElement
    (dec' dec : GoType -> Value -> StartElement -> list Read -> Out) : Prop :=
  forall t v st s, err (dec t v st s) <> Some OutOfFuel -> dec' t v st s = dec t v st s.

(** ** Construction of a decoder *)

(** [Option] is a functional option for configuring the [Decoder]. *)
Definition Option : Type := Decoder -> Decoder.

(** [WithNamespaces] sets the namespace mappings for the decoder. *)
Definition WithNamespaces (namespaces : gmap string string) : Option :=
  fun _ => {| namespaces := namespaces |}.

(** [NewDecoder] creates a new namespace-aware decoder: the options are
    applied in order to a decoder whose context is the nil map, on which
    every lookup fails. *)
Definition NewDecoder (opts : list Option) : Decoder :=
  foldl (fun d opt => opt d) (mkDecoder ∅) opts.

(** [Unmarshal] decodes XML with namespace context awareness; [tokens]
    is the tokenizer of [encoding/xml] on the bytes of the document. *)
Definition Unmarshal (E : XmlEncoder) (tokens : string -> list Read) (fuel : nat)
    (data : string) (t : GoType) (v : Value) (opts : list Option) : Out :=
  Decode E (NewDecoder opts) fuel t v (tokens data).

(** ** Targets that implement [encoding.TextUnmarshaler] *)

(** The loop [decodeElement] runs, before it looks at the kind, for a
    target that implements [encoding.TextUnmarshaler]: character data
    is gathered, a nested element is skipped, and at the end element
    the trimmed text is handed to [UnmarshalText]. [unmarshalText] is
    that method of the target, user code: it is given the text and the
    target and returns the target as written and the error. The test
    for the interface is not part of the embedding; neither is the
    branch for [xml.Unmarshaler], which hands the decoder over. *)
Fixpoint textUnmarshalerLoop (unmarshalText : string -> Value -> Value * option Error)
    (fuel : nat) (text : string) (v : Value) (s : list Read) : Out :=
  match fuel with
  | O => failed v s OutOfFuel
  | S fuel' =>
      match s with
      | [] => ok v []
      | Fail e :: r => failed v r (StreamError e)
      | Tok (TCharData data) :: r =>
          textUnmarshalerLoop unmarshalText fuel' (text +:+ data) v r
      | Tok (TEnd _) :: r =>
          let '(v', e) := unmarshalText (Strings.TrimSpace text) v in
          mkOut v' r e
      | Tok (TStart _) :: r =>
          match Skip 0 r with
          | (r', Some e) => failed v r' e
          | (r', None) => textUnmarshalerLoop unmarshalText fuel' text v r'
          end
      | Tok _ :: r => textUnmarshalerLoop unmarshalText fuel' text v r
      end
  end.

(** ** Vocabulary of token streams *)

(** The reads [Decode] passes over while it looks for the root element:
    tokens that are no start element. *)
Definition beforeRoot (s : list Read) : bool :=
  forallb (fun r => match r with
                    | Tok (TStart _) | Fail _ => false
                    | Tok _ => true
                    end) s.

(** The nesting depth after the reads [s], entered at [depth]: [None]
    when a read fails or an end element closes more than was opened. *)
Fixpoint nesting (depth : nat) (s : list Read) : option nat :=
  match s with
  | [] => Some depth
  | Fail _ :: _ => None
  | Tok (TStart _) :: r => nesting (S depth) r
  | Tok (TEnd _) :: r =>
      match depth with
      | O => None
      | S k => nesting k r
      end
  | Tok _ :: r => nesting depth r
  end.

(** The content of an element: complete elements, text, comments and
    the like, every start element closed by an end element. *)
Definition isContent (s : list Read) : Prop := nesting 0 s = Some 0%nat.

(** The tokens of a stream that has no failing read. *)
Fixpoint tokensOf (s : list Read) : list Token :=
  match s with
  | [] => []
  | Tok t :: r => t :: tokensOf r
  | Fail _ :: r => tokensOf r
  end.

(** A complete element with text content: the reads
    [<start>text</name>]. *)
Definition textElement (start : StartElement) (txt : string) (n : Name) : list Read :=
  [Tok (TStart start); Tok (TCharData txt); Tok (TEnd n)].

(** The stream holds no end element and no failing read. *)
Definition noEnd (s : list Read) : bool :=
  forallb (fun r => match r with
                    | Tok (TEnd _) | Fail _ => false
                    | Tok _ => true
                    end) s.

(** The character data of a stream, put together. *)
Fixpoint textOf (s : list Read) : string :=
  match s with
  | [] => ""
  | Tok (TCharData data) :: r => data +:+ textOf r
  | _ :: r => textOf r
  end.

(** Mixed content: pieces of text and complete child elements. *)
Inductive Item :=
| IText (data : string)
| IElement (start : StartElement) (content : list Read) (name : Name).

Definition itemReads (it : Item) : list Read :=
  match it with
  | IText data => [Tok (TCharData data)]
  | IElement start content name => Tok (TStart start) :: content ++ [Tok (TEnd name)]
  end.

(** The text that is a direct child, without the text of the child
    elements. *)
Definition directText (items : list Item) : string :=
  foldr (fun it acc => match it with
                       | IText data => data +:+ acc
                       | IElement _ _ _ => acc
                       end) "" items.

Definition wellNested (it : Item) : bool :=
  match it with
  | IText _ => true
  | IElement _ content _ =>
      match nesting 0 content with
      | Some O => true
      | _ => false
      end
  end.

(** An item of mixed content that the record loop of [t] passes over
    apart from its text: a piece of text, or a complete child element
    that starts no path and is for no field. *)
Definition passedOver (d : Decoder) (t : GoType) (it : Item) : bool :=
  match it with
  | IText _ => true
  | IElement start _ _ =>
      wellNested it
      && (length (findAllPathFieldsWithPrefix d t start) =? 0)%nat
      && bool_decide (findFieldWithTag d t start = None)
  end.

(** ** Vocabulary of record types *)

(** The struct a decoding into [t] ends up in, through pointers and
    slices, has an XMLName field. *)
Fixpoint recordsName (t : GoType) : bool :=
  match t with
  | TPtr elem => recordsName elem
  | TSlice elem => recordsName elem
  | TStruct _ fs => existsb isXMLNameField fs
  | _ => false
  end.

(** The name part of a tag: its first comma segment. *)
Definition tagName (f : StructField) : string :=
  nth 0 (Strings.Split (FTag f) comma) "".

(** A path field of the group is still waiting for the element [start]:
    it is not yet found and its next segment matches. *)
Definition awaits (d : Decoder) (start : StartElement) (found : list bool) (i : nat)
    (pf : pathFieldInfo) : bool :=
  negb (default false (found !! i))
  && (2 <=? length (Strings.Split (pfTag pf) gt))%nat
  && matchesField d (nth 1 (Strings.Split (pfTag pf) gt) "")
       (Local (EName start)) (Space (EName start)).

(** No start element of the stream, at any depth, is one the plain
    lookup would hand to the field. *)
Definition absentFrom (d : Decoder) (f : StructField) (s : list Read) : bool :=
  forallb (fun r => match r with
                    | Tok (TStart st) => negb (fieldMatchesElement d st f)
                    | _ => true
                    end) s.

(** The tag makes the field a candidate for one of the special fields
    of the record loop. *)
Definition isSpecialTag (tag : string) : bool :=
  isChardataTag tag || isCDataTag tag || isInnerXMLTag tag || isAnyTag tag
  || isCommentTag tag.

(** The attribute value can be coerced to the kind of the field. *)
Definition coerces (t : GoType) (s : string) : bool :=
  match (setFieldValue t (zero t) s).2 with
  | None => true
  | Some _ => false
  end.

(** The prefix a name written in a tag is looked up under in the
    context: what stands before its first colon, and the empty prefix
    for a name without a colon. *)
Definition segPrefix (seg : string) : string :=
  if Strings.Contains seg ":" then nth 0 (Strings.SplitN seg colon 2) "" else "".

(** The prefixes the name part of a tag mentions: that of the name as a
    whole and that of each segment of its path. *)
Definition tagPrefixes (tag : string) : list string :=
  let name := nth 0 (Strings.Split tag comma) "" in
  segPrefix name :: map segPrefix (Strings.Split name gt).

(** The prefixes mentioned by the tags of a type, all the way down. *)
Fixpoint typePrefixes (t : GoType) : list string :=
  match t with
  | TPtr elem => typePrefixes elem
  | TSlice elem => typePrefixes elem
  | TStruct _ fs =>
      (fix all (fs : list StructField) : list string :=
         match fs with
         | [] => []
         | Field _ tag ty :: fs' => (tagPrefixes tag ++ typePrefixes ty ++ all fs')%list
         end) fs
  | _ => []
  end.

(** Two contexts that bind the prefixes [ps] alike: to the same
    namespace, or not at all. *)
Definition sameOn (d1 d2 : Decoder) (ps : list string) : Prop :=
  Forall (fun p => namespaces d1 !! p = namespaces d2 !! p) ps.

(** The tokens that are neither elements nor text: processing
    instructions and directives, and with [wc] comments as well. *)
Definition isMarkup (wc : bool) (r : Read) : bool :=
  match r with
  | Tok (TProcInst _ _) => true
  | Tok (TDirective _) => true
  | Tok (TComment _) => wc
  | _ => false
  end.

(** The stream with those tokens taken out. *)
Fixpoint withoutMarkup (wc : bool) (s : list Read) : list Read :=
  match s with
  | [] => []
  | r :: s' => if isMarkup wc r then withoutMarkup wc s' else r :: withoutMarkup wc s'
  end.

(** An outcome whose unread tokens are seen through [withoutMarkup]. *)
Definition restWithoutMarkup (wc : bool) (o : Out) : Out :=
  mkOut (val o) (withoutMarkup wc (rest o)) (err o).

(** Types that, all the way down, have no ,innerxml field and, with
    [wc], no ,comment field either. *)
Fixpoint plainRecord (wc : bool) (t : GoType) : bool :=
  match t with
  | TPtr elem => plainRecord wc elem
  | TSlice elem => plainRecord wc elem
  | TStruct _ fs =>
      (fix all (fs : list StructField) : bool :=
         match fs with
         | [] => true
         | Field _ tag ty :: fs' =>
             negb (isInnerXMLTag tag) && (negb wc || negb (isCommentTag tag))
             && plainRecord wc ty && all fs'
         end) fs
  | _ => true
  end.

(** Every token handed to the encoder in turn, from the state [enc]. *)
Fixpoint encodeAll (E : XmlEncoder) (enc : EncState E) (ts : list Token)
    : EncState E + string :=
  match ts with
  | [] => inl enc
  | t :: ts' =>
      match EncodeToken E enc t with
      | inl enc' => encodeAll E enc' ts'
      | inr e => inr e
      end
  end.

(** A child element with text content, [<start>text</end>], as a record. *)
Record TextChild := mkChild { cStart : StartElement; cText : string; cEnd : Name }.

Definition childReads (c : TextChild) : list Read :=
  textElement (cStart c) (cText c) (cEnd c).

(** The child starts no path and is for a string field of the record;
    or it is for no field, and the record has no ,any field or one that
    is a slice of strings. *)
Definition plainStringChild (d : Decoder) (t : GoType) (anyField : option nat)
    (c : TextChild) : bool :=
  (length (findAllPathFieldsWithPrefix d t (cStart c)) =? 0)%nat
  && match findFieldWithTag d t (cStart c), anyField with
     | Some i, _ => GoType_eqb (default (TOther "") (FType <$> fieldsOf t !! i)) TString
     | None, Some a =>
         GoType_eqb (default (TOther "") (FType <$> fieldsOf t !! a)) (TSlice TString)
     | None, None => true
     end.

(** What such a child writes: its trimmed text, to the first field that
    matches it, or else as one more item of the ,any slice. *)
Definition writeChild (d : Decoder) (t : GoType) (anyField : option nat) (v : Value)
    (c : TextChild) : Value :=
  let x := VString (Strings.TrimSpace (cText c)) in
  match findFieldWithTag d t (cStart c), anyField with
  | Some i, _ => setField v i x
  | None, Some a => setField v a (appendValue (getField v a) x)
  | None, None => v
  end.

(** The reads that open the elements [es], outermost first, and the
    reads that close elements, innermost first. *)
Definition opens (es : list StartElement) : list Read := map (fun e => Tok (TStart e)) es.
Definition closes (ns : list Name) : list Read := map (fun n => Tok (TEnd n)) ns.

(** The comments of a frame as reads, and the comments from the first
    one that is not empty. *)
Definition commentReads (cs : list string) : list Read :=
  map (fun c => Tok (TComment c)) cs.

Fixpoint dropEmpty (cs : list string) : list string :=
  match cs with
  | [] => []
  | c :: cs' => if String.eqb c "" then dropEmpty cs' else cs
  end.

Definition newline : string := String "010" "".

(** ** More example records *)

Module Samples.

(** An encoder for the examples: element names in angle brackets, text
    and comments as they are; it never fails. *)
Definition render (t : Token) : string :=
  match t with
  | TStart st => "<" +:+ Local (EName st) +:+ ">"
  | TEnd n => "</" +:+ Local n +:+ ">"
  | TCharData data => data
  | TComment data => "<!--" +:+ data +:+ "-->"
  | _ => ""
  end.

Definition sketchEncoder : XmlEncoder :=
  mkEncoder string "" (fun enc t => inl (enc +:+ render t)) (fun enc => enc).

(** [struct { ID string `xml:"id,attr"`; Title string `xml:"title"`;
             InnerXML string `xml:",innerxml"` }] *)
Definition Document : GoType :=
  TStruct "Document"
    [Field "ID" "id,attr" TString; Field "Title" "title" TString;
     Field "InnerXML" ",innerxml" TString].

(** [<title>Test</title><content><data>value</data></content>] *)
Definition documentContent : list Read :=
  [Examples.open "title"; Examples.text "Test"; Examples.close "title";
   Examples.open "content"; Examples.open "data"; Examples.text "value";
   Examples.close "data"; Examples.close "content"].

(** [struct { XMLName xml.Name `xml:"person"`; Xmlns string `xml:"xmlns,attr"`;
             XmlnsA string `xml:"xmlns:addr,attr"`; Name string `xml:"name"`;
             Nick *string `xml:"nick"`; Note string; Skip string `xml:"-"` }] *)
Definition Person : GoType :=
  TStruct "Person"
    [Field "XMLName" "person" xmlNameT; Field "Xmlns" "xmlns,attr" TString;
     Field "XmlnsA" "xmlns:addr,attr" TString; Field "Name" "name" TString;
     Field "Nick" "nick" (TPtr TString); Field "Note" "" TString;
     Field "Skip" "-" TString].

(** [<person xmlns="NS_U" xmlns:addr="NS_P"><name>Jane</name><Note>n</Note>
     <Skip>s</Skip></person>], behind its start element. *)
Definition personStart : StartElement :=
  mkStart (mkName Examples.NS_U "person")
    [Examples.defaultDecl Examples.NS_U; Examples.xmlnsDecl "addr" Examples.NS_P].

Definition personContent : list Read :=
  [Tok (TStart (mkStart (mkName Examples.NS_U "name") [])); Examples.text "Jane";
   Tok (TEnd (mkName Examples.NS_U "name"));
   Tok (TStart (mkStart (mkName Examples.NS_U "Note") [])); Examples.text "n";
   Tok (TEnd (mkName Examples.NS_U "Note"));
   Tok (TStart (mkStart (mkName Examples.NS_U "Skip") [])); Examples.text "s";
   Tok (TEnd (mkName Examples.NS_U "Skip"));
   Tok (TEnd (mkName Examples.NS_U "person"))].

(** The target before the decoding, every field set by the caller. *)
Definition personBefore : Value :=
  VStruct [nameValue (mkName "" ""); VString "x0"; VString "x1"; VString "n0";
           VPtr None; VString "keep"; VString "kept"].

(** [struct { Name string `xml:"name"`; Rest []string `xml:",any"` }] *)
Definition Open : GoType :=
  TStruct "Open" [Field "Name" "name" TString; Field "Rest" ",any" (TSlice TString)].

(** The context of the user document with one more binding, for a
    prefix no tag of [UserRecord] mentions. *)
Definition widerContext : Decoder :=
  mkDecoder (<["ext" := "http://example.com/schema/ext"]> (namespaces Examples.userContext)).

(** [<?xml version="1.0"?><named><!-- c --><name>Ann<!-- d --></name><!DOCTYPE x></named>] *)
Definition annotated : list Read :=
  [Tok (TProcInst "xml" "version=1.0"); Examples.open "named"; Tok (TComment " c ");
   Examples.open "name"; Examples.text "Ann"; Tok (TComment " d "); Examples.close "name";
   Tok (TDirective "DOCTYPE x"); Examples.close "named"].

(** [<root><x>abc</x></root>] and [<root><x>abc</x><y>7</y></root>],
    complete documents for [Examples.AnyInts]. *)
Definition oneBadItem : list Read :=
  [Examples.open "root"; Examples.open "x"; Examples.text "abc"; Examples.close "x";
   Examples.close "root"].

Definition badItemFirst : list Read :=
  [Examples.open "root"; Examples.open "x"; Examples.text "abc"; Examples.close "x";
   Examples.open "y"; Examples.text "7"; Examples.close "y"; Examples.close "root"].

End Samples.

(** ** Proof automation *)

(** From "the whole call did not run out of fuel" to "this callee did
    not": an [OutOfFuel] of the callee is handed up unchanged. *)
Ltac callee_fueled He :=
  let Heq := fresh "Heq" in
  intros Heq; apply He; cbn [ppErr err]; rewrite Heq;
  first [reflexivity | exact Heq].

(** * Properties *)

(** ** One step of the engine *)

Section Unfold.

Variable E : XmlEncoder.
Variable d : Decoder.

Lemma decodeElement_S (fuel : nat) (t : GoType) (v : Value) (start : StartElement)
    (s : list Read) :
  decodeElement E d (S fuel) t v start s
  = decodeElementBody (decodeElement E d fuel) (decodeStruct E d fuel) t v start s.
Proof. reflexivity. Qed.

Lemma decodeStruct_S (fuel : nat) (t : GoType) (v : Value) (start : StartElement)
    (s : list Read) :
  decodeStruct E d (S fuel) t v start s
  = decodeStructBody E d (decodeStructLoop E d fuel) t v start s.
Proof. reflexivity. Qed.

Lemma decodeStructLoop_S (fuel : nat) (t : GoType) (cf cdf af cmf : option nat)
    (chardata comments : string) (v : Value) (s : list Read) :
  decodeStructLoop E d (S fuel) t cf cdf af cmf chardata comments v s
  = decodeStructLoopBody d (decodeElement E d fuel) (decodeStructLoop E d fuel)
      (decodeMultiplePathFields E d fuel) t cf cdf af cmf chardata comments v s.
Proof. reflexivity. Qed.

Lemma decodeMultiplePathFields_S (fuel : nat) (t : GoType) (pfs : list pathFieldInfo)
    (found : list bool) (v : Value) (s : list Read) :
  decodeMultiplePathFields E d (S fuel) t pfs found v s
  = decodeMultiplePathFieldsBody d (decodeElement E d fuel)
      (decodeMultiplePathFields E d fuel) t pfs found v s.
Proof. reflexivity. Qed.

End Unfold.

(** ** Facts about [strings] *)

Lemma append_nil_l (s : string) : "" +:+ s = s.
Proof. reflexivity. Qed.

Lemma append_cons_l (c : ascii) (a b : string) : String c a +:+ b = String c (a +:+ b).
Proof. reflexivity. Qed.

Lemma HasPrefix_char (s : string) (c : ascii) :
  Strings.HasPrefix s (String c "") =
  match s with String c' _ => Ascii.eqb c' c | EmptyString => false end.
Proof. destruct s as [|c' s']; simpl; [done|]. by destruct (Ascii.eqb c' c). Qed.

Lemma Contains_char_cons (c' c : ascii) (s : string) :
  Strings.Contains (String c' s) (String c "") =
  Ascii.eqb c' c || Strings.Contains s (String c "").
Proof.
  change (Strings.Contains (String c' s) (String c ""))
    with (Strings.HasPrefix (String c' s) (String c "") || Strings.Contains s (String c "")).
  by rewrite HasPrefix_char.
Qed.

Lemma Contains_char_app (p l : string) (c : ascii) :
  Strings.Contains (p +:+ String c l) (String c "") = true.
Proof.
  induction p as [|c' p IH].
  - by rewrite append_nil_l, Contains_char_cons, Ascii.eqb_refl.
  - by rewrite append_cons_l, Contains_char_cons, IH, orb_true_r.
Qed.

Lemma SplitN_one (s : string) (c : ascii) : Strings.SplitN s c 1 = [s].
Proof. by destruct s. Qed.

Lemma SplitN_two_app (p l : string) (c : ascii) :
  Strings.Contains p (String c "") = false ->
  Strings.SplitN (p +:+ String c l) c 2 = [p; l].
Proof.
  induction p as [|c' p IH]; intros Hp.
  - rewrite append_nil_l. cbn [Strings.SplitN]. by rewrite Ascii.eqb_refl, SplitN_one.
  - rewrite Contains_char_cons in Hp. apply orb_false_elim in Hp as [Hc Hp].
    rewrite append_cons_l. cbn [Strings.SplitN]. rewrite Hc.
    specialize (IH Hp). cbn [Strings.SplitN] in IH. by rewrite IH.
Qed.

(** The first piece of a split, when the text before the first colon
    holds no separator. *)
Lemma Split_head_app (p l : string) (c sep : ascii) :
  Strings.Contains p (String sep "") = false -> c <> sep ->
  nth 0 (Strings.Split (p +:+ String c l) sep) "" =
  p +:+ String c (nth 0 (Strings.Split l sep) "").
Proof.
  intros Hp Hc. induction p as [|c' p IH].
  - rewrite !append_nil_l. cbn [Strings.Split].
    destruct (Ascii.eqb_spec c sep) as [|_]; [done|].
    by destruct (Strings.Split l sep).
  - rewrite Contains_char_cons in Hp. apply orb_false_elim in Hp as [Hc' Hp].
    rewrite !append_cons_l. cbn [Strings.Split]. rewrite Hc'.
    specialize (IH Hp).
    destruct (Strings.Split (p +:+ String c l) sep) as [|x xs]; cbn [nth] in *.
    + destruct p; discriminate IH.
    + by rewrite IH.
Qed.

(** ** Matching under the namespace context *)

Lemma matchesField_prefixed (d : Decoder) (p loc elemLocal elemNS : string) :
  Strings.Contains p ":" = false ->
  matchesField d (p +:+ ":" +:+ loc) elemLocal elemNS =
  match namespaces d !! p with
  | None => false
  | Some expectedNS => String.eqb loc elemLocal && String.eqb expectedNS elemNS
  end.
Proof.
  intros Hp. unfold matchesField.
  change (":" +:+ loc) with (String colon loc).
  change ":" with (String colon "") in *.
  by rewrite Contains_char_app, SplitN_two_app.
Qed.

Lemma matchesAttribute_prefixed (d : Decoder) (p loc : string) (attr : Attr) :
  Strings.Contains p ":" = false ->
  matchesAttribute d (p +:+ ":" +:+ loc) attr =
  match namespaces d !! p with
  | None => false
  | Some expectedNS =>
      String.eqb loc (Local (AName attr)) && String.eqb expectedNS (Space (AName attr))
  end.
Proof.
  intros Hp. unfold matchesAttribute.
  change (":" +:+ loc) with (String colon loc).
  change ":" with (String colon "") in *.
  by rewrite Contains_char_app, SplitN_two_app.
Qed.

(** C1. A prefixed descriptor name [p:loc] matches an element identity
    exactly when the context maps [p] to the identity's URI and [loc] is
    its local name; an unprefixed name matches exactly when the local
    names are equal and the identity's URI is the context's entry for the
    empty prefix, or is empty when the context has no such entry. *)
Theorem matchesField_resolution (d : Decoder) (p loc tag elemLocal elemNS : string) :
  (Strings.Contains p ":" = false ->
   (matchesField d (p +:+ ":" +:+ loc) elemLocal elemNS = true <->
    namespaces d !! p = Some elemNS /\ loc = elemLocal)) /\
  (Strings.Contains tag ":" = false ->
   (matchesField d tag elemLocal elemNS = true <->
    tag = elemLocal /\
    match namespaces d !! "" with
    | Some defaultNS => elemNS = defaultNS
    | None => elemNS = ""
    end)).
Proof.
  split.
  - intros Hp. rewrite matchesField_prefixed by done.
    destruct (namespaces d !! p) as [u|].
    + rewrite andb_true_iff, !String.eqb_eq. intuition congruence.
    + intuition congruence.
  - intros Ht. unfold matchesField. rewrite Ht.
    destruct (String.eqb_spec tag elemLocal) as [->|Hne]; cbn [negb].
    + destruct (namespaces d !! ""); rewrite String.eqb_eq; intuition congruence.
    + intuition congruence.
Qed.

Lemma matchesField_resolution_witness :
  (matchesField Examples.userContext ("ns1" +:+ ":" +:+ "bio") "bio" Examples.NS_P = true <->
   namespaces Examples.userContext !! "ns1" = Some Examples.NS_P /\ "bio" = "bio") /\
  (matchesField Examples.userContext "bio" "bio" Examples.NS_P = true <->
   "bio" = "bio" /\
   match namespaces Examples.userContext !! "" with
   | Some defaultNS => Examples.NS_P = defaultNS
   | None => Examples.NS_P = ""
   end).
Proof.
  destruct (matchesField_resolution Examples.userContext "ns1" "bio" "bio" "bio"
              Examples.NS_P) as [H1 H2].
  split; [apply H1 | apply H2]; reflexivity.
Defined.

(** ** Enough fuel *)

Lemma depth_pos (t : GoType) : (1 <= depth t)%nat.
Proof. destruct t; cbn [depth]; lia. Qed.

Lemma depth_field (n : string) (fs : list StructField) (i : nat) (f : StructField) :
  fs !! i = Some f -> (depth (FType f) + 2 <= depth (TStruct n fs))%nat.
Proof.
  cbn [depth]. revert i. induction fs as [|[fn tag ty] fs IH]; intros i Hf; [done|].
  destruct i as [|i]; cbn in Hf.
  - injection Hf as <-. cbn [FType]. lia.
  - specialize (IH i Hf). lia.
Qed.

Lemma struct_shallowFields (n : string) (fs : list StructField) :
  shallowFields (TStruct n fs).
Proof.
  intros i. cbn [fieldsOf]. destruct (fs !! i) as [f|] eqn:Hf.
  - change (depth (FType f) < depth (TStruct n fs))%nat.
    pose proof (depth_field n fs i f Hf). lia.
  - change (1 < depth (TStruct n fs))%nat. cbn [depth]. lia.
Qed.

Lemma Skip_length (s : list Read) : forall n, (length (Skip n s).1 <= length s)%nat.
Proof.
  induction s as [|[[st|nm|data|data|tg inst|data]|msg] s IH]; intros n;
    cbn [Skip length fst]; try (specialize (IH n); lia); try lia.
  - specialize (IH (S n)). lia.
  - destruct n; [cbn; lia|]. specialize (IH n). lia.
Qed.

Lemma Skip_fuel (s : list Read) : forall n, (Skip n s).2 <> Some OutOfFuel.
Proof.
  induction s as [|[[st|nm|data|data|tg inst|data]|msg] s IH]; intros n;
    cbn [Skip snd]; try done.
  destruct n; [done|]. apply IH.
Qed.

Lemma readText_length (s : list Read) :
  forall acc,
    match readText acc s with
    | TextEnd _ r | TextErr _ r => (length r <= length s)%nat
    | TextEOF => True
    end.
Proof.
  induction s as [|[[st|nm|data|data|tg inst|data]|msg] s IH]; intros acc;
    cbn [readText length]; try done; try lia;
    match goal with |- context [readText ?a s] => specialize (IH a) end;
    destruct (readText _ s); try done; lia.
Qed.

Lemma decodeString_wellBehaved (v : Value) (s : list Read) : wellBehaved s (decodeString v s).
Proof.
  unfold decodeString, wellBehaved. pose proof (readText_length s "") as H.
  destruct (readText "" s); cbn; split; (done || lia).
Qed.

Lemma decodeBool_wellBehaved (v : Value) (s : list Read) : wellBehaved s (decodeBool v s).
Proof.
  unfold decodeBool, wellBehaved. pose proof (readText_length s "") as H.
  destruct (readText "" s); cbn; split; (done || lia).
Qed.

Lemma decodeInt_wellBehaved (w : Width) (v : Value) (s : list Read) :
  wellBehaved s (decodeInt w v s).
Proof.
  unfold decodeInt, wellBehaved. pose proof (readText_length s "") as H.
  destruct (readText "" s); try (cbn; split; (done || lia)).
  destruct (Strconv.ParseInt _); cbn; split; (done || lia).
Qed.

Lemma decodeUint_wellBehaved (w : Width) (v : Value) (s : list Read) :
  wellBehaved s (decodeUint w v s).
Proof.
  unfold decodeUint, wellBehaved. pose proof (readText_length s "") as H.
  destruct (readText "" s); try (cbn; split; (done || lia)).
  destruct (Strconv.ParseUint _); cbn; split; (done || lia).
Qed.

Lemma fuelFor_min (t : GoType) (s : list Read) : (3 <= fuelFor t s)%nat.
Proof. unfold fuelFor. pose proof (depth_pos t). nia. Qed.

Lemma fuelFor_shorter (t : GoType) (s s' : list Read) :
  (length s' <= length s)%nat -> (fuelFor t s' <= fuelFor t s)%nat.
Proof. unfold fuelFor. intros. nia. Qed.

Lemma fuelFor_shallower (t t' : GoType) (s : list Read) :
  (depth t' <= depth t)%nat -> (fuelFor t' s <= fuelFor t s)%nat.
Proof. unfold fuelFor. intros. nia. Qed.

Lemma fuelFor_tail (t : GoType) (x : Read) (r : list Read) (k : nat) :
  (fuelFor t (x :: r) <= S k)%nat -> (fuelFor t r <= k)%nat.
Proof. unfold fuelFor. cbn [length]. pose proof (depth_pos t). nia. Qed.

Lemma fuelFor_field (t ft : GoType) (x : Read) (r : list Read) (k : nat) :
  (depth ft < depth t)%nat ->
  (fuelFor t (x :: r) <= S (S (S k)))%nat -> (fuelFor ft r <= k)%nat.
Proof. unfold fuelFor. cbn [length]. nia. Qed.

Lemma fuelFor_elem (t elem : GoType) (s : list Read) (k : nat) :
  (depth t = S (depth elem))%nat -> (fuelFor t s <= S k)%nat -> (fuelFor elem s <= k)%nat.
Proof. unfold fuelFor. intros. nia. Qed.

Lemma wellBehaved_shorter (s s' : list Read) (o : Out) :
  (length s' <= length s)%nat -> wellBehaved s' o -> wellBehaved s o.
Proof. unfold wellBehaved. intros ? [? ?]. split; [lia|done]. Qed.

Section Fuel.

Variable E : XmlEncoder.
Variable d : Decoder.

Lemma innerXMLLoop_length (s : list Read) :
  forall enc n,
    match innerXMLLoop E enc n s with
    | InnerEnd _ r => (length r <= length s)%nat
    | InnerEOF => True
    | InnerErr e r => (length r <= length s)%nat /\ e <> OutOfFuel
    end.
Proof.
  induction s as [|[[st|nm|data|data|tg inst|data]|msg] s IH]; intros enc n;
    cbn [innerXMLLoop length]; try done; try (split; [lia|done]).
  all: try (destruct n; [lia|]).
  all: destruct (EncodeToken E enc _) as [enc'|e]; try (split; [lia|done]).
  all: match goal with |- context [innerXMLLoop E ?a ?b _] => specialize (IH a b) end.
  all: destruct (innerXMLLoop E _ _ _); try done; try lia.
  all: destruct IH; split; (lia || done).
Qed.

Lemma pathPass_wellBehaved
    (dec : GoType -> Value -> StartElement -> list Read -> Out)
    (t : GoType) (start : StartElement) (pfs : list pathFieldInfo) (N : nat) :
  (forall i v st s, (length s <= N)%nat ->
                    wellBehaved s (dec (default (TOther "") (FType <$> fieldsOf t !! i)) v st s)) ->
  forall k st0,
    (length (ppRest st0) <= N)%nat -> ppErr st0 <> Some OutOfFuel ->
    (length (ppRest (pathPass d dec t start k pfs st0)) <= length (ppRest st0))%nat
    /\ ppErr (pathPass d dec t start k pfs st0) <> Some OutOfFuel.
Proof.
  intros Hdec. induction pfs as [|pf pfs IH]; intros k st0 Hlen Herr; [done|].
  cbn [pathPass].
  destruct (default false (ppFound st0 !! k)); [by apply IH|].
  destruct (length (Strings.Split (pfTag pf) gt) <? 2)%nat; [by apply IH|].
  destruct (matchesField d _ _ _); [|by apply IH].
  destruct (length (Strings.Split (pfTag pf) gt) =? 2)%nat.
  - destruct (Hdec (pfField pf) (getField (ppVal st0) (pfField pf)) start (ppRest st0) Hlen)
      as [Hr He].
    destruct (err (dec _ _ _ _)) as [e|] eqn:Heq; cbn [ppRest ppErr].
    + split; [done|]. congruence.
    + edestruct (IH (S k)) as [H1 H2]; [| |split; [etrans; [apply H1|]|apply H2]];
        cbn [ppRest ppErr]; (lia || done).
  - edestruct (IH (S k)) as [H1 H2]; [| |split; [etrans; [apply H1|]|apply H2]];
      cbn [ppRest ppErr]; (lia || done).
Qed.

Lemma decodeAnyElement_wellBehaved
    (dec : GoType -> Value -> StartElement -> list Read -> Out)
    (t : GoType) (v : Value) (start : StartElement) (s : list Read) :
  (forall t' v' st, (depth t' <= depth t)%nat -> wellBehaved s (dec t' v' st s)) ->
  wellBehaved s (decodeAnyElement dec t v start s).
Proof.
  intros Hdec. unfold decodeAnyElement.
  destruct t; try (by apply Hdec).
  - destruct (Hdec t (match v with VPtr (Some x) => x | _ => zero t end) start) as [Hr He];
      [cbn [depth]; lia|]. by split.
  - destruct (Hdec t (zero t) start) as [Hr He]; [cbn [depth]; lia|].
    destruct (err (dec t (zero t) start s)) as [e0|] eqn:Heq; [|by split].
    destruct (isReturnedError e0).
    + pose proof (Skip_length (rest (dec t (zero t) start s)) 0).
      pose proof (Skip_fuel (rest (dec t (zero t) start s)) 0).
      destruct (Skip 0 _) as [r e]. cbn [fst snd] in *. split; cbn; [lia|done].
    + split; cbn; [done|congruence].
Qed.

Lemma setFieldValue_fuel (t : GoType) :
  forall v s, (setFieldValue t v s).2 <> Some OutOfFuel.
Proof.
  induction t; intros v s; cbn [setFieldValue]; try done.
  - by destruct (Strconv.ParseInt s).
  - by destruct (Strconv.ParseUint s).
  - specialize (IHt (match v with VPtr (Some x) => x | _ => zero t end) s).
    by destruct (setFieldValue t _ s).
Qed.

Lemma attrFieldsFrom_fuel (anyIdx : option nat) (attrs : list Attr) (fs : list StructField) :
  forall k v m, (attrFieldsFrom d anyIdx attrs k fs v m).2 <> Some OutOfFuel.
Proof.
  induction fs as [|f fs IH]; intros k v m; [done|]. cbn [attrFieldsFrom].
  destruct (attrFieldName anyIdx k f); [|apply IH].
  destruct (list_find _ attrs) as [[ai a]|]; [|apply IH].
  pose proof (setFieldValue_fuel (FType f) (getField v k) (AValue a)) as H.
  destruct (setFieldValue _ _ _) as [x [e|]]; [done|apply IH].
Qed.

Lemma decodeAttributes_fuel (t : GoType) (v : Value) (attrs : list Attr) :
  (decodeAttributes d t v attrs).2 <> Some OutOfFuel.
Proof.
  unfold decodeAttributes.
  pose proof (attrFieldsFrom_fuel (findByTag isAnyAttrTag t) attrs (fieldsOf t) 0 v ∅) as H.
  destruct (attrFieldsFrom _ _ _ _ _ _ _) as [[v' m] [e|]]; [done|].
  destruct (findByTag isAnyAttrTag t); [|done]. by case_match.
Qed.

Lemma setStringField_fuel (t : GoType) (v : Value) (i : nat) (s : string) :
  (setStringField t v i s).2 <> Some OutOfFuel.
Proof. unfold setStringField. by repeat case_match. Qed.

Lemma endOfStruct_fuel (t : GoType) (cf cdf cmf : option nat) (cd cm : string) (v : Value) :
  (endOfStruct t cf cdf cmf cd cm v).2 <> Some OutOfFuel.
Proof.
  unfold endOfStruct.
  assert (Htext : (assignText t cf cdf cd v).2 <> Some OutOfFuel).
  { unfold assignText. destruct cf, cdf; try done;
      destruct (0 <? String.length cd)%nat; try done; apply setStringField_fuel. }
  destruct (assignText t cf cdf cd v) as [v1 [e|]]; [done|].
  unfold assignComments. destruct cmf; [|done].
  destruct (0 <? String.length cm)%nat; [|done]. apply setStringField_fuel.
Qed.

(** With [fuelFor t s] units of fuel the decoding of [s] into a target of
    type [t] does not run out of fuel. *)
Lemma enough_fuel (fuel : nat) :
  (forall t v st s, (fuelFor t s <= fuel)%nat -> wellBehaved s (decodeElement E d fuel t v st s))
  /\ (forall t v st s, shallowFields t -> (fuelFor t s <= S fuel)%nat ->
                       wellBehaved s (decodeStruct E d fuel t v st s))
  /\ (forall t cf cdf af cmf cd cm v s, shallowFields t -> (fuelFor t s <= S (S fuel))%nat ->
        wellBehaved s (decodeStructLoop E d fuel t cf cdf af cmf cd cm v s))
  /\ (forall t pfs found v s, shallowFields t -> (fuelFor t s <= S (S fuel))%nat ->
        wellBehaved s (decodeMultiplePathFields E d fuel t pfs found v s)).
Proof.
  induction fuel as [|fuel (IHel & IHstruct & IHloop & IHpath)].
  { repeat split; intros; match goal with H : (fuelFor ?t ?s <= _)%nat |- _ =>
      pose proof (fuelFor_min t s); lia end. }
  assert (Hfield : forall t x r, shallowFields t -> (fuelFor t (x :: r) <= S (S (S fuel)))%nat ->
            forall i v st s', (length s' <= length r)%nat ->
              wellBehaved s' (decodeElement E d fuel
                                (default (TOther "") (FType <$> fieldsOf t !! i)) v st s')).
  { intros t x r Hsh Hf i v st s' Hs'. apply IHel.
    etrans; [by apply fuelFor_shorter|]. by apply (fuelFor_field t _ x). }
  assert (Hnext : forall t x r r', (length r' <= length r)%nat ->
            (fuelFor t (x :: r) <= S (S (S fuel)))%nat -> (fuelFor t r' <= S (S fuel))%nat).
  { intros t x r r' Hr Hf. etrans; [by apply fuelFor_shorter|]. by apply (fuelFor_tail t x). }
  split; [|split; [|split]].
  - intros t v st s Hf. rewrite decodeElement_S. unfold decodeElementBody.
    destruct t.
    + apply decodeString_wellBehaved.
    + apply decodeBool_wellBehaved.
    + apply decodeInt_wellBehaved.
    + apply decodeUint_wellBehaved.
    + by split.
    + destruct (IHel t (match v with VPtr (Some x) => x | _ => zero t end) st s) as [Hr He];
        [by apply (fuelFor_elem (TPtr t))|]. by split.
    + destruct (IHel t (zero t) st s) as [Hr He]; [by apply (fuelFor_elem (TSlice t))|].
      destruct (err (decodeElement E d fuel t (zero t) st s)) eqn:Heq; split; cbn;
        (done || congruence).
    + apply IHstruct; [apply struct_shallowFields|done].
  - intros t v st s Hsh Hf. rewrite decodeStruct_S. unfold decodeStructBody.
    pose proof (decodeAttributes_fuel t (setXMLName t v st) (EAttr st)) as Hattr.
    destruct (decodeAttributes d t (setXMLName t v st) (EAttr st)) as [v2 [e|]].
    + by split.
    + destruct (findInnerXMLField t).
      * pose proof (innerXMLLoop_length s (NewEncoder E) 0) as H.
        destruct (innerXMLLoop E (NewEncoder E) 0 s) as [c r| |e r].
        -- by split.
        -- split; cbn; [lia|done].
        -- destruct H as [H1 H2]. split; cbn; [done|congruence].
      * by apply IHloop.
  - intros t cf cdf af cmf cd cm v s Hsh Hf. rewrite decodeStructLoop_S.
    unfold decodeStructLoopBody.
    destruct s as [|[[st|n|data|data|tg inst|data]|msg] r]; try (by split; cbn; (done || lia)).
    + destruct (0 <? length (findAllPathFieldsWithPrefix d t st))%nat.
      * destruct (IHpath t (findAllPathFieldsWithPrefix d t st)
                    (replicate (length (findAllPathFieldsWithPrefix d t st)) false) v r Hsh)
          as [Hr He]; [by apply (Hnext t (Tok (TStart st)) r)|].
        destruct (err (decodeMultiplePathFields _ _ _ _ _ _ _ _)) eqn:Heq.
        -- split; [cbn [length]; lia|congruence].
        -- apply (wellBehaved_shorter _ (rest (decodeMultiplePathFields E d fuel t
                    (findAllPathFieldsWithPrefix d t st)
                    (replicate (length (findAllPathFieldsWithPrefix d t st)) false) v r)));
             [cbn [length]; lia|].
           apply IHloop; [done|]. by apply (Hnext t (Tok (TStart st)) r).
      * destruct (findFieldWithTag d t st) as [j|].
        -- destruct (Hfield t (Tok (TStart st)) r Hsh Hf j (getField v j) st r) as [Hr He];
             [done|].
           destruct (err (decodeElement _ _ _ _ _ _ _)) eqn:Heq.
           ++ split; [cbn [length rest failed]; lia|cbn; congruence].
           ++ eapply wellBehaved_shorter; [|apply IHloop; [done|]].
              ** cbn [length]. etrans; [apply Hr|lia].
              ** by apply (Hnext t (Tok (TStart st)) r).
        -- destruct af as [a|].
           ++ destruct (decodeAnyElement_wellBehaved (decodeElement E d fuel)
                          (default (TOther "") (FType <$> fieldsOf t !! a))
                          (getField v a) st r) as [Hr He].
              { intros t' v' st' Hd. apply IHel.
                etrans; [by apply fuelFor_shallower|].
                by apply (fuelFor_field t _ (Tok (TStart st))). }
              destruct (err (decodeAnyElement _ _ _ _ _)) eqn:Heq.
              ** split; [cbn [length rest failed]; lia|cbn; congruence].
              ** eapply wellBehaved_shorter; [|apply IHloop; [done|]].
                 --- cbn [length]. etrans; [apply Hr|lia].
                 --- by apply (Hnext t (Tok (TStart st)) r).
           ++ pose proof (Skip_length r 0) as Hr. pose proof (Skip_fuel r 0) as He.
              destruct (Skip 0 r) as [r' [e|]]; cbn [fst snd] in *.
              ** split; [cbn [length rest failed]; lia|done].
              ** eapply wellBehaved_shorter; [|apply IHloop; [done|]].
                 --- cbn [length]. etrans; [apply Hr|lia].
                 --- by apply (Hnext t (Tok (TStart st)) r).
    + pose proof (endOfStruct_fuel t cf cdf cmf cd cm v) as He.
      destruct (endOfStruct t cf cdf cmf cd cm v) as [v' e]. split; cbn; (done || lia).
    + destruct (_ || _);
        (eapply wellBehaved_shorter; [|apply IHloop; [done|]];
         [cbn [length]; lia|by apply (Hnext t (Tok (TCharData data)) r)]).
    + destruct cmf;
        (eapply wellBehaved_shorter; [|apply IHloop; [done|]];
         [cbn [length]; lia|by apply (Hnext t (Tok (TComment data)) r)]).
    + eapply wellBehaved_shorter; [|apply IHloop; [done|]];
        [cbn [length]; lia|by apply (Hnext t (Tok (TProcInst tg inst)) r)].
    + eapply wellBehaved_shorter; [|apply IHloop; [done|]];
        [cbn [length]; lia|by apply (Hnext t (Tok (TDirective data)) r)].
  - intros t pfs found v s Hsh Hf. rewrite decodeMultiplePathFields_S.
    unfold decodeMultiplePathFieldsBody.
    destruct s as [|[[st|n|data|data|tg inst|data]|msg] r]; try (by split; cbn; (done || lia)).
    + destruct (pathPass_wellBehaved (decodeElement E d fuel) t st pfs (length r)
                  (Hfield t (Tok (TStart st)) r Hsh Hf) 0
                  (mkPass v r found [] [] false None)) as [Hr He]; [done|done|].
      cbn [ppRest] in Hr.
      set (p := pathPass d _ t st 0 pfs _) in *.
      destruct (ppErr p) as [e|] eqn:Hperr.
      { split; [cbn [length rest failed]; lia|cbn; congruence]. }
      destruct (0 <? length (ppMatching p))%nat.
      * destruct (IHpath t (ppMatching p) (replicate (length (ppMatching p)) false)
                    (ppVal p) (ppRest p) Hsh) as [Hr2 He2];
          [by apply (Hnext t (Tok (TStart st)) r)|].
        destruct (err (decodeMultiplePathFields _ _ _ _ _ _ _ _)) eqn:Heq.
        -- split; [cbn [length]; lia|congruence].
        -- eapply wellBehaved_shorter; [|apply IHpath; [done|]].
           ++ cbn [length]. etrans; [apply Hr2|lia].
           ++ apply (Hnext t (Tok (TStart st)) r); [lia|done].
      * destruct (negb (ppMatchedAny p)).
        -- pose proof (Skip_length (ppRest p) 0) as Hr3.
           pose proof (Skip_fuel (ppRest p) 0) as He3.
           destruct (Skip 0 (ppRest p)) as [r' [e|]]; cbn [fst snd] in *.
           ++ split; [cbn [length rest failed]; lia|done].
           ++ eapply wellBehaved_shorter; [|apply IHpath; [done|]].
              ** cbn [length]. lia.
              ** apply (Hnext t (Tok (TStart st)) r); [lia|done].
        -- eapply wellBehaved_shorter; [|apply IHpath; [done|]].
           ++ cbn [length]. lia.
           ++ by apply (Hnext t (Tok (TStart st)) r).
    + eapply wellBehaved_shorter; [|apply IHpath; [done|]];
        [cbn [length]; lia|by apply (Hnext t (Tok (TCharData data)) r)].
    + eapply wellBehaved_shorter; [|apply IHpath; [done|]];
        [cbn [length]; lia|by apply (Hnext t (Tok (TComment data)) r)].
    + eapply wellBehaved_shorter; [|apply IHpath; [done|]];
        [cbn [length]; lia|by apply (Hnext t (Tok (TProcInst tg inst)) r)].
    + eapply wellBehaved_shorter; [|apply IHpath; [done|]];
        [cbn [length]; lia|by apply (Hnext t (Tok (TDirective data)) r)].
Qed.

End Fuel.

(** ** More fuel changes nothing *)

Section MoreFuel.

Variable E : XmlEncoder.
Variable d : Decoder.

Lemma pathPass_extends
    (dec' dec : GoType -> Value -> StartElement -> list Read -> Out)
    (t : GoType) (start : StartElement) (pfs : list pathFieldInfo) :
  extendsElement dec' dec ->
  forall k st0,
    ppErr (pathPass d dec t start k pfs st0) <> Some OutOfFuel ->
    pathPass d dec' t start k pfs st0 = pathPass d dec t start k pfs st0.
Proof.
  intros Hext. induction pfs as [|pf pfs IH]; intros k st0 Herr; [done|].
  cbn [pathPass] in *.
  destruct (default false (ppFound st0 !! k)); [by apply IH|].
  destruct (length (Strings.Split (pfTag pf) gt) <? 2)%nat; [by apply IH|].
  destruct (matchesField d _ _ _); [|by apply IH].
  destruct (length (Strings.Split (pfTag pf) gt) =? 2)%nat; [|by apply IH].
  set (ft := default (TOther "") (FType <$> fieldsOf t !! pfField pf)) in *.
  assert (Ho : dec' ft (getField (ppVal st0) (pfField pf)) start (ppRest st0)
               = dec ft (getField (ppVal st0) (pfField pf)) start (ppRest st0)).
  { apply Hext. callee_fueled Herr. }
  rewrite Ho. destruct (err (dec ft _ start (ppRest st0))); [done|]. by apply IH.
Qed.

Lemma decodeAnyElement_extends
    (dec' dec : GoType -> Value -> StartElement -> list Read -> Out)
    (t : GoType) (v : Value) (start : StartElement) (s : list Read) :
  extendsElement dec' dec ->
  err (decodeAnyElement dec t v start s) <> Some OutOfFuel ->
  decodeAnyElement dec' t v start s = decodeAnyElement dec t v start s.
Proof.
  intros Hext. unfold decodeAnyElement.
  destruct t; try (by apply Hext).
  - cbn [err]. intros He. by rewrite Hext.
  - intros He.
    assert (Ho : dec' t (zero t) start s = dec t (zero t) start s).
    { apply Hext. callee_fueled He. }
    by rewrite Ho.
Qed.

(** A result that is not [OutOfFuel] is the result at every larger fuel. *)
Lemma more_fuel (fuel : nat) :
  extendsElement (decodeElement E d (S fuel)) (decodeElement E d fuel)
  /\ extendsElement (decodeStruct E d (S fuel)) (decodeStruct E d fuel)
  /\ (forall t cf cdf af cmf cd cm v s,
        err (decodeStructLoop E d fuel t cf cdf af cmf cd cm v s) <> Some OutOfFuel ->
        decodeStructLoop E d (S fuel) t cf cdf af cmf cd cm v s
        = decodeStructLoop E d fuel t cf cdf af cmf cd cm v s)
  /\ (forall t pfs found v s,
        err (decodeMultiplePathFields E d fuel t pfs found v s) <> Some OutOfFuel ->
        decodeMultiplePathFields E d (S fuel) t pfs found v s
        = decodeMultiplePathFields E d fuel t pfs found v s).
Proof.
  induction fuel as [|fuel (IHel & IHstruct & IHloop & IHpath)].
  { repeat split; repeat intro;
      match goal with H : _ <> Some OutOfFuel |- _ => by destruct H end. }
  split; [|split; [|split]].
  - intros t v st s. rewrite (decodeElement_S E d (S fuel)), (decodeElement_S E d fuel).
    unfold decodeElementBody. destruct t; try done.
    + cbn [err]. intros He. by rewrite IHel.
    + intros He.
      assert (Ho : decodeElement E d (S fuel) t (zero t) st s
                   = decodeElement E d fuel t (zero t) st s).
      { apply IHel. callee_fueled He. }
      by rewrite Ho.
    + apply IHstruct.
  - intros t v st s. rewrite (decodeStruct_S E d (S fuel)), (decodeStruct_S E d fuel).
    unfold decodeStructBody.
    destruct (decodeAttributes d t (setXMLName t v st) (EAttr st)) as [v2 [e|]]; [done|].
    destruct (findInnerXMLField t); [done|]. apply IHloop.
  - intros t cf cdf af cmf cd cm v s.
    rewrite (decodeStructLoop_S E d (S fuel)), (decodeStructLoop_S E d fuel).
    unfold decodeStructLoopBody.
    destruct s as [|[[st|n|data|data|tg inst|data]|msg] r]; try done;
      try (by apply IHloop).
    + destruct (0 <? length (findAllPathFieldsWithPrefix d t st))%nat.
      * set (pfs := findAllPathFieldsWithPrefix d t st).
        set (found := replicate (length pfs) false).
        intros He.
        assert (Ho : decodeMultiplePathFields E d (S fuel) t pfs found v r
                     = decodeMultiplePathFields E d fuel t pfs found v r).
        { apply IHpath. callee_fueled He. }
        rewrite Ho in *.
        destruct (err (decodeMultiplePathFields E d fuel t pfs found v r)); [done|].
        by apply IHloop.
      * destruct (findFieldWithTag d t st) as [j|].
        -- set (ft := default (TOther "") (FType <$> fieldsOf t !! j)). intros He.
           assert (Ho : decodeElement E d (S fuel) ft (getField v j) st r
                        = decodeElement E d fuel ft (getField v j) st r).
           { apply IHel. callee_fueled He. }
           rewrite Ho in *.
           destruct (err (decodeElement E d fuel ft (getField v j) st r)); [done|].
           by apply IHloop.
        -- destruct af as [a|].
           ++ set (ft := default (TOther "") (FType <$> fieldsOf t !! a)). intros He.
              assert (Ho : decodeAnyElement (decodeElement E d (S fuel)) ft (getField v a) st r
                           = decodeAnyElement (decodeElement E d fuel) ft (getField v a) st r).
              { apply decodeAnyElement_extends; [done|]. callee_fueled He. }
              rewrite Ho in *.
              destruct (err (decodeAnyElement (decodeElement E d fuel) ft (getField v a) st r));
                [done|]. by apply IHloop.
           ++ destruct (Skip 0 r) as [r' [e|]]; [done|]. by apply IHloop.
    + destruct (_ || _); by apply IHloop.
    + destruct cmf; by apply IHloop.
  - intros t pfs found v s.
    rewrite (decodeMultiplePathFields_S E d (S fuel)), (decodeMultiplePathFields_S E d fuel).
    unfold decodeMultiplePathFieldsBody.
    destruct s as [|[[st|n|data|data|tg inst|data]|msg] r]; try done;
      try (by apply IHpath).
    intros He.
    assert (Hp : pathPass d (decodeElement E d (S fuel)) t st 0 pfs
                   (mkPass v r found [] [] false None)
                 = pathPass d (decodeElement E d fuel) t st 0 pfs
                     (mkPass v r found [] [] false None)).
    { apply pathPass_extends; [done|]. callee_fueled He. }
    rewrite Hp in *.
    set (p := pathPass d (decodeElement E d fuel) t st 0 pfs _) in *.
    destruct (ppErr p); [done|].
    destruct (0 <? length (ppMatching p))%nat.
    + set (found' := replicate (length (ppMatching p)) false) in *.
      assert (Ho : decodeMultiplePathFields E d (S fuel) t (ppMatching p) found'
                     (ppVal p) (ppRest p)
                   = decodeMultiplePathFields E d fuel t (ppMatching p) found'
                       (ppVal p) (ppRest p)).
      { apply IHpath. callee_fueled He. }
      rewrite Ho in *.
      destruct (err (decodeMultiplePathFields E d fuel t (ppMatching p) found'
                       (ppVal p) (ppRest p))); [done|].
      by apply IHpath.
    + destruct (negb (ppMatchedAny p)); [|by apply IHpath].
      destruct (Skip 0 (ppRest p)) as [r' [e|]]; [done|]. by apply IHpath.
Qed.

End MoreFuel.

(** ** [Decode] is total *)

Lemma decodeElement_more_fuel (E : XmlEncoder) (d : Decoder) (fuel extra : nat)
    (t : GoType) (v : Value) (st : StartElement) (s : list Read) :
  err (decodeElement E d fuel t v st s) <> Some OutOfFuel ->
  decodeElement E d (extra + fuel) t v st s = decodeElement E d fuel t v st s.
Proof.
  intros He. induction extra as [|extra IH]; [done|].
  cbn [Nat.add]. destruct (more_fuel E d (extra + fuel)) as [Hel _].
  rewrite Hel; [done|]. by rewrite IH.
Qed.

Lemma readRoot_length (s : list Read) :
  match readRoot s with
  | RootStart _ r | RootErr _ r => (length r < length s)%nat
  | RootEOF => True
  end.
Proof.
  induction s as [|[[st|nm|data|data|tg inst|data]|msg] s IH];
    cbn [readRoot length]; try done; try lia;
    destruct (readRoot s); try done; lia.
Qed.

(** With [fuelFor t s] units of fuel or more, [Decode] returns what the
    Go function returns: it does not run out of fuel, and the result is
    the same for every such amount. *)
Lemma Decode_enough_fuel (E : XmlEncoder) (d : Decoder) (fuel : nat) (t : GoType)
    (v : Value) (s : list Read) :
  (fuelFor t s <= fuel)%nat ->
  err (Decode E d fuel t v s) <> Some OutOfFuel
  /\ Decode E d fuel t v s = Decode E d (fuelFor t s) t v s.
Proof.
  intros Hf. unfold Decode.
  destruct t; try done. destruct v as [| | | | |[x|]| |]; try done.
  pose proof (readRoot_length s) as Hlen.
  destruct (readRoot s) as [st r| |msg r]; try done.
  assert (Hr : (fuelFor t r <= fuelFor (TPtr t) s)%nat).
  { unfold fuelFor. cbn [depth]. nia. }
  destruct (enough_fuel E d (fuelFor (TPtr t) s)) as [Hel _].
  destruct (Hel t x st r Hr) as [_ He].
  replace fuel with ((fuel - fuelFor (TPtr t) s) + fuelFor (TPtr t) s)%nat by lia.
  rewrite decodeElement_more_fuel by done. by split.
Qed.

Lemma unknown_prefix_matchesField (d : Decoder) (p loc elemLocal elemNS : string) :
  Strings.Contains p ":" = false -> namespaces d !! p = None ->
  matchesField d (p +:+ ":" +:+ loc) elemLocal elemNS = false.
Proof. intros Hp Hns. by rewrite matchesField_prefixed, Hns. Qed.

Lemma unknown_prefix_matchesAttribute (d : Decoder) (p loc : string) (attr : Attr) :
  Strings.Contains p ":" = false -> namespaces d !! p = None ->
  matchesAttribute d (p +:+ ":" +:+ loc) attr = false.
Proof. intros Hp Hns. by rewrite matchesAttribute_prefixed, Hns. Qed.

(** C3. A descriptor whose name carries a prefix that is not a key of the
    namespace context matches no element and no attribute: the two
    matching functions answer [false] for every identity, the field is
    never selected for an element (directly or as the head of a path) and
    no attribute is ever found for it. *)
Theorem unknown_prefix_inert (d : Decoder) (p rest : string) (f : StructField)
    (start : StartElement) (attrs : list Attr) (anyAttrFieldIdx : option nat) (i : nat) :
  Strings.Contains p ":" = false ->
  Strings.Contains p "," = false ->
  Strings.Contains p ">" = false ->
  namespaces d !! p = None ->
  FTag f = p +:+ ":" +:+ rest ->
  (forall loc elemLocal elemNS, matchesField d (p +:+ ":" +:+ loc) elemLocal elemNS = false) /\
  (forall loc attr, matchesAttribute d (p +:+ ":" +:+ loc) attr = false) /\
  fieldMatchesElement d start f = false /\
  pathFieldMatches d start f = false /\
  (forall attrName, attrFieldName anyAttrFieldIdx i f = Some attrName ->
     list_find (fun a => matchesAttribute d attrName a = true) attrs = None).
Proof.
  intros Hcolon Hcomma Hgt Hns Htag.
  assert (Hname : nth 0 (Strings.Split (FTag f) comma) "" =
                  p +:+ ":" +:+ nth 0 (Strings.Split rest comma) "").
  { rewrite Htag. by apply (Split_head_app p rest colon comma). }
  assert (Hseg : forall loc, nth 0 (Strings.Split (p +:+ ":" +:+ loc) gt) "" =
                  p +:+ ":" +:+ nth 0 (Strings.Split loc gt) "").
  { intros loc. by apply (Split_head_app p loc colon gt). }
  repeat split.
  - intros. by apply unknown_prefix_matchesField.
  - intros. by apply unknown_prefix_matchesAttribute.
  - unfold fieldMatchesElement. rewrite Hname.
    rewrite Hseg.
    repeat (match goal with |- context [if ?c then _ else _] => destruct c end; try done);
      by apply unknown_prefix_matchesField.
  - unfold pathFieldMatches. rewrite Hname.
    rewrite Hseg.
    repeat (match goal with |- context [if ?c then _ else _] => destruct c end; try done);
      by apply unknown_prefix_matchesField.
  - intros attrName Hn. unfold attrFieldName in Hn. rewrite Hname in Hn.
    repeat (match type of Hn with (if ?c then _ else _) = _ => destruct c end; try done).
    injection Hn as <-.
    apply list_find_None, Forall_forall. intros a _.
    by rewrite unknown_prefix_matchesAttribute.
Qed.

Lemma unknown_prefix_inert_witness :
  (forall loc elemLocal elemNS,
     matchesField Examples.userContext ("zz" +:+ ":" +:+ loc) elemLocal elemNS = false) /\
  (forall loc attr, matchesAttribute Examples.userContext ("zz" +:+ ":" +:+ loc) attr = false) /\
  fieldMatchesElement Examples.userContext (mkStart (mkName Examples.NS_P "bio") [])
    (Field "Bio" "zz:bio" TString) = false /\
  pathFieldMatches Examples.userContext (mkStart (mkName Examples.NS_P "bio") [])
    (Field "Bio" "zz:bio" TString) = false /\
  (forall attrName,
     attrFieldName None 0 (Field "Bio" "zz:bio" TString) = Some attrName ->
     list_find (fun a => matchesAttribute Examples.userContext attrName a = true)
       [mkAttr (mkName Examples.NS_P "bio") "x"] = None).
Proof.
  apply (unknown_prefix_inert Examples.userContext "zz" "bio"
           (Field "Bio" "zz:bio" TString)); reflexivity.
Defined.

(** C7. An unprefixed attribute descriptor matches an attribute exactly
    when the local names are equal, whatever the attribute's namespace
    and whatever the context holds, its entry for the empty prefix
    included. *)
Theorem unprefixed_attribute_matches_local (d : Decoder) (tag : string) (attr : Attr) :
  Strings.Contains tag ":" = false ->
  (matchesAttribute d tag attr = true <-> tag = Local (AName attr)).
Proof.
  intros Ht. unfold matchesAttribute. rewrite Ht. apply String.eqb_eq.
Qed.

Lemma unprefixed_attribute_matches_local_witness :
  matchesAttribute Examples.userContext "id" (mkAttr (mkName Examples.NS_P "id") "7") = true
  <-> "id" = Local (AName (mkAttr (mkName Examples.NS_P "id") "7")).
Proof.
  apply (unprefixed_attribute_matches_local Examples.userContext "id"); reflexivity.
Defined.

(** ** Integer targets *)

Lemma bits_pos (w : Width) : 8 <= bits w <= 64.
Proof. destruct w; simpl; lia. Qed.

Lemma pow2_half (w : Width) : 2 ^ bits w = 2 * 2 ^ (bits w - 1).
Proof. destruct w; reflexivity. Qed.

Lemma wrapInt_range (w : Width) (x : Z) : inIntRange w (wrapInt w x).
Proof.
  unfold inIntRange, wrapInt.
  pose proof (Z.mod_pos_bound (x + 2 ^ (bits w - 1)) (2 ^ bits w)) as H.
  rewrite pow2_half in *.
  assert (0 < 2 ^ (bits w - 1)) by (destruct w; reflexivity).
  lia.
Qed.

Lemma wrapInt_congruent (w : Width) (x : Z) :
  exists k, wrapInt w x = x + k * 2 ^ bits w.
Proof.
  exists (- ((x + 2 ^ (bits w - 1)) / 2 ^ bits w)). unfold wrapInt.
  rewrite Z.mod_eq by (destruct w; discriminate). lia.
Qed.

Lemma wrapUint_range (w : Width) (x : Z) : inUintRange w (wrapUint w x).
Proof.
  unfold inUintRange, wrapUint. apply Z.mod_pos_bound. by destruct w.
Qed.

Lemma wrapUint_congruent (w : Width) (x : Z) :
  exists k, wrapUint w x = x + k * 2 ^ bits w.
Proof.
  exists (- (x / 2 ^ bits w)). unfold wrapUint.
  rewrite Z.mod_eq by (destruct w; discriminate). lia.
Qed.

(** C8. For an integer target narrower than 64 bits, a text that parses
    as a 64-bit value outside the range of the target raises no error on
    either path (element text, attribute value): the stored value is the
    parsed one reduced modulo two to the width, so it is in the range of
    the target and differs from the parsed value. *)
Theorem overflow_is_truncated (E : XmlEncoder) (d : Decoder) (fuel : nat) (w : Width)
    (txt : string) (i : Z) (v : Value) (start : StartElement) (n : Name) (r : list Read) :
  bits w < 64 ->
  (Strconv.ParseInt (Strings.TrimSpace txt) = Some i -> ~ inIntRange w i ->
   decodeElement E d (S fuel) (TInt w) v start (Tok (TCharData txt) :: Tok (TEnd n) :: r)
     = ok (VInt (wrapInt w i)) r) /\
  (Strconv.ParseUint (Strings.TrimSpace txt) = Some i -> ~ inUintRange w i ->
   decodeElement E d (S fuel) (TUint w) v start (Tok (TCharData txt) :: Tok (TEnd n) :: r)
     = ok (VUint (wrapUint w i)) r) /\
  (Strconv.ParseInt txt = Some i -> ~ inIntRange w i ->
   setFieldValue (TInt w) v txt = (VInt (wrapInt w i), None)) /\
  (Strconv.ParseUint txt = Some i -> ~ inUintRange w i ->
   setFieldValue (TUint w) v txt = (VUint (wrapUint w i), None)) /\
  (~ inIntRange w i ->
   inIntRange w (wrapInt w i) /\ wrapInt w i <> i /\
   exists k, wrapInt w i = i + k * 2 ^ bits w) /\
  (~ inUintRange w i ->
   inUintRange w (wrapUint w i) /\ wrapUint w i <> i /\
   exists k, wrapUint w i = i + k * 2 ^ bits w).
Proof.
  intros _. split; [|split; [|split; [|split; [|split]]]].
  - intros Hp _. rewrite decodeElement_S. unfold decodeElementBody, decodeInt. cbn [readText].
    by rewrite append_nil_l, Hp.
  - intros Hp _. rewrite decodeElement_S. unfold decodeElementBody, decodeUint. cbn [readText].
    by rewrite append_nil_l, Hp.
  - intros Hp _. cbn [setFieldValue]. by rewrite Hp.
  - intros Hp _. cbn [setFieldValue]. by rewrite Hp.
  - intros H. split; [apply wrapInt_range|]. split; [|apply wrapInt_congruent].
    intros Heq. apply H. rewrite <- Heq. apply wrapInt_range.
  - intros H. split; [apply wrapUint_range|]. split; [|apply wrapUint_congruent].
    intros Heq. apply H. rewrite <- Heq. apply wrapUint_range.
Qed.

Lemma overflow_is_truncated_witness :
  decodeElement Examples.noEncoder Examples.emptyContext 1 (TInt W8) (VInt 0)
    (mkStart (Examples.plain "value") [])
    [Tok (TCharData "999999"); Tok (TEnd (Examples.plain "value"))]
  = ok (VInt 63) [] /\
  setFieldValue (TInt W8) (VInt 0) "999999" = (VInt 63, None) /\
  inIntRange W8 (wrapInt W8 999999) /\
  decodeElement Examples.noEncoder Examples.emptyContext 1 (TUint W8) (VUint 0)
    (mkStart (Examples.plain "value") [])
    [Tok (TCharData "999999"); Tok (TEnd (Examples.plain "value"))]
  = ok (VUint 63) [] /\
  setFieldValue (TUint W8) (VUint 0) "999999" = (VUint 63, None).
Proof.
  assert (Hw : bits W8 < 64) by reflexivity.
  assert (Hi : ~ inIntRange W8 999999) by (unfold inIntRange; simpl; lia).
  assert (Hu : ~ inUintRange W8 999999) by (unfold inUintRange; simpl; lia).
  destruct (overflow_is_truncated Examples.noEncoder Examples.emptyContext 0 W8 "999999"
              999999 (VInt 0) (mkStart (Examples.plain "value") [])
              (Examples.plain "value") [] Hw) as (H1 & _ & H3 & _ & H5 & _).
  destruct (overflow_is_truncated Examples.noEncoder Examples.emptyContext 0 W8 "999999"
              999999 (VUint 0) (mkStart (Examples.plain "value") [])
              (Examples.plain "value") [] Hw) as (_ & H2 & _ & H4 & _ & _).
  split; [apply (H1 eq_refl Hi)|].
  split; [apply (H3 eq_refl Hi)|].
  split; [apply (H5 Hi)|].
  split; [apply (H2 eq_refl Hu)|apply (H4 eq_refl Hu)].
Defined.

(** ** Trimming and the coercion of element text *)

Lemma append_nil_r (s : string) : s +:+ "" = s.
Proof. induction s as [|c s IH]; [done|]. by rewrite append_cons_l, IH. Qed.

Lemma append_assoc (a b c : string) : (a +:+ b) +:+ c = a +:+ (b +:+ c).
Proof. induction a as [|x a IH]; [done|]. by rewrite !append_cons_l, IH. Qed.






Lemma readText_charData (acc : string) (chunks : list string) (n : Name) (r : list Read) :
  readText acc (charData chunks ++ Tok (TEnd n) :: r)
  = TextEnd (acc +:+ concatChunks chunks) r.
Proof.
  revert acc. induction chunks as [|c chunks IH]; intros acc; cbn.
  - by rewrite append_nil_r.
  - fold (charData chunks). fold (concatChunks chunks).
    by rewrite IH, append_assoc.
Qed.



(** ** Reads and writes of struct fields *)

Lemma getField_setField_ne (v x : Value) (i j : nat) :
  i <> j -> getField (setField v i x) j = getField v j.
Proof.
  intros Hne. destruct v; try done. cbn. by rewrite list_lookup_insert_ne.
Qed.

Lemma getField_setField_eq (fs : list Value) (x : Value) (i : nat) :
  (i < length fs)%nat -> getField (setField (VStruct fs) i x) i = x.
Proof. intros Hi. cbn. by rewrite list_lookup_insert_eq. Qed.

Lemma setField_getField (v : Value) (i : nat) : setField v i (getField v i) = v.
Proof.
  destruct v as [| | | | | |?|fs]; try done. cbn.
  destruct (fs !! i) as [x|] eqn:Hx; cbn.
  - by rewrite list_insert_id.
  - apply lookup_ge_None in Hx. by rewrite list_insert_ge.
Qed.

Lemma setStringField_other (t : GoType) (v : Value) (i j : nat) (s : string) :
  i <> j -> getField (fst (setStringField t v i s)) j = getField v j.
Proof.
  intros Hne. unfold setStringField.
  destruct (FType <$> fieldsOf t !! i) as [[]|]; cbn [fst]; try done.
  by apply getField_setField_ne.
Qed.

Lemma findByTag_Some (p : string -> bool) (t : GoType) (i : nat) :
  findByTag p t = Some i ->
  exists f, fieldsOf t !! i = Some f /\ p (FTag f) = true
            /\ forall j g, fieldsOf t !! j = Some g -> (j < i)%nat -> p (FTag g) <> true.
Proof.
  unfold findByTag. intros H.
  destruct (list_find _ _) as [[k f]|] eqn:Hf; [|done].
  injection H as ->. apply list_find_Some in Hf as (? & ? & ?). by exists f.
Qed.

(** ** Text of a record: chardata and cdata fields *)

Lemma chardata_cdata_distinct (t : GoType) (i j : nat) :
  findChardataField t = Some i -> findCDataField t = Some j -> i <> j.
Proof.
  intros Hi Hj ->.
  apply findByTag_Some in Hi as (f & Hf & Hp & _).
  apply findByTag_Some in Hj as (g & Hg & Hq & _).
  rewrite Hf in Hg. injection Hg as <-.
  unfold isChardataTag, isCDataTag in *.
  destruct (String.eqb (FTag f) ""); [done|].
  destruct (Strings.Contains (FTag f) "chardata"); [|done].
  by destruct (Strings.Contains (FTag f) "cdata").
Qed.

Lemma assignComments_other (t : GoType) (commentField : option nat) (comments : string)
    (v : Value) (k : nat) :
  commentField <> Some k ->
  getField (assignComments t commentField comments v).1 k = getField v k.
Proof.
  intros Hk. unfold assignComments. destruct commentField as [c|]; [|done].
  destruct (0 <? String.length comments)%nat; [|done].
  apply setStringField_other. congruence.
Qed.

Lemma builder_empty (s : string) : (0 <? String.length s)%nat = false <-> s = "".
Proof. destruct s; cbn; split; (done || lia). Qed.

(** C5, as the code has it. When a record declares both a chardata and a
    cdata field, the two are different fields, and the end of the frame
    writes the accumulated text to the chardata field or to no field,
    whatever the declaration order. Every field other than the chardata
    field, the cdata field among them, is left as it was. When the text
    is empty the chardata field is left as it was too, and with no
    comments either nothing at all is written. When the text is not
    empty and the chardata field is a string, the target is left with
    that field set to the trimmed text. The comment field, which the
    same step sets to the accumulated comments, is set apart. *)
Theorem chardata_field_takes_the_text (E : XmlEncoder) (d : Decoder) (fuel : nat)
    (t : GoType) (i j : nat) (chardata comments : string) (v : Value)
    (n : Name) (r : list Read) :
  findChardataField t = Some i ->
  findCDataField t = Some j ->
  let o := decodeStructLoop E d (S fuel) t (findChardataField t) (findCDataField t)
             (findAnyField t) (findCommentField t) chardata comments v
             (Tok (TEnd n) :: r) in
  i <> j /\
  rest o = r /\
  (forall k, k <> i -> findCommentField t <> Some k ->
     getField (val o) k = getField v k) /\
  (chardata = "" ->
     forall k, findCommentField t <> Some k -> getField (val o) k = getField v k) /\
  (chardata = "" -> comments = "" -> o = ok v r) /\
  (chardata <> "" -> FType <$> fieldsOf t !! i = Some TString ->
     forall k, findCommentField t <> Some k ->
       getField (val o) k
       = getField (setField v i (VString (Strings.TrimSpace chardata))) k).
Proof.
  intros Hi Hj o.
  pose proof (chardata_cdata_distinct t i j Hi Hj) as Hne.
  subst o. rewrite decodeStructLoop_S. cbn [decodeStructLoopBody]. rewrite Hi, Hj.
  unfold endOfStruct, assignText.
  split; [done|]. split.
  { destruct (0 <? String.length chardata)%nat.
    - destruct (setStringField t v i _) as [v1 [e|]]; [done|].
      by destruct (assignComments t _ comments v1).
    - by destruct (assignComments t _ comments v). }
  split; [|split; [|split]].
  - intros k Hk Hc.
    pose proof (assignComments_other t (findCommentField t) comments) as Hcm.
    destruct (0 <? String.length chardata)%nat.
    + pose proof (setStringField_other t v i k (Strings.TrimSpace chardata)
                    (not_eq_sym Hk)) as H1.
      destruct (setStringField t v i _) as [v1 [e|]]; cbn [fst] in H1; [done|].
      specialize (Hcm v1 k Hc).
      destruct (assignComments t _ comments v1) as [v2 e2]; cbn [fst val] in *.
      by rewrite Hcm.
    + specialize (Hcm v k Hc).
      by destruct (assignComments t _ comments v) as [v2 e2].
  - intros Hempty k Hc. apply builder_empty in Hempty. rewrite Hempty.
    pose proof (assignComments_other t (findCommentField t) comments v k Hc) as Hcm.
    by destruct (assignComments t _ comments v) as [v2 e2].
  - intros -> ->. cbn [String.length Nat.ltb Nat.leb]. unfold assignComments.
    by destruct (findCommentField t).
  - intros Hfull Hty k Hc.
    assert (Hlen : (0 <? String.length chardata)%nat = true).
    { destruct (0 <? String.length chardata)%nat eqn:Hl; [done|].
      by apply builder_empty in Hl. }
    rewrite Hlen. unfold setStringField at 1. rewrite Hty.
    pose proof (assignComments_other t (findCommentField t) comments
                  (setField v i (VString (Strings.TrimSpace chardata))) k Hc) as Hcm.
    by destruct (assignComments t _ comments _) as [v2 e2].
Qed.

Lemma chardata_field_takes_the_text_witness :
  let o := decodeStructLoop Examples.noEncoder Examples.emptyContext 1 Examples.CDataFirst
             (findChardataField Examples.CDataFirst) (findCDataField Examples.CDataFirst)
             (findAnyField Examples.CDataFirst) (findCommentField Examples.CDataFirst)
             " hi " "" (VStruct [VString "old"; VString ""])
             [Tok (TEnd (Examples.plain "a"))] in
  rest o = [] /\ getField (val o) 0 = VString "old" /\ getField (val o) 1 = VString "hi".
Proof.
  destruct (chardata_field_takes_the_text Examples.noEncoder Examples.emptyContext 0
              Examples.CDataFirst 1 0 " hi " "" (VStruct [VString "old"; VString ""])
              (Examples.plain "a") [] eq_refl eq_refl) as (_ & H1 & H2 & _ & _ & H3).
  split; [exact H1|]. split.
  - apply H2; discriminate.
  - exact (eq_trans (H3 ltac:(discriminate) eq_refl 1%nat ltac:(discriminate)) eq_refl).
Defined.

(** C5 as stated fails: a cdata field declared before the chardata field
    does not win, it is left empty. *)
Lemma cdata_declared_first_loses :
  Decode Examples.noEncoder Examples.emptyContext 4 (TPtr Examples.CDataFirst)
    (VPtr (Some (zero Examples.CDataFirst)))
    [Examples.open "a"; Examples.text "hi"; Examples.close "a"]
  = ok (VPtr (Some (VStruct [VString ""; VString "hi"]))) [].
Proof. reflexivity. Qed.

(** ** The XMLName field *)

Lemma GoType_eqb_xmlNameT (t : GoType) : GoType_eqb t xmlNameT = true -> t = xmlNameT.
Proof.
  unfold xmlNameT. intros H.
  destruct t as [| | | | | | |n fs]; try discriminate H.
  cbn in H. apply andb_true_iff in H as [Hn H]. apply String.eqb_eq in Hn as ->.
  destruct fs as [|[n1 t1 ty1] [|[n2 t2 ty2] [|f3 fs]]]; try discriminate H.
  - by rewrite andb_false_r in H.
  - rewrite andb_true_r in H.
    repeat match goal with
           | H : _ && _ = true |- _ => apply andb_true_iff in H as [H ?]
           end.
    repeat match goal with
           | H : String.eqb _ _ = true |- _ => apply String.eqb_eq in H as ->
           end.
    by destruct ty1, ty2.
  - destruct f3. by rewrite !andb_false_r in H.
Qed.

Lemma XMLName_field_type (t : GoType) (i : nat) (f : StructField) :
  list_find (fun f => isXMLNameField f = true) (fieldsOf t) = Some (i, f) ->
  fieldsOf t !! i = Some f /\ FName f = "XMLName" /\ FType f = xmlNameT.
Proof.
  intros H. apply list_find_Some in H as (Hf & Hp & _). split; [done|].
  unfold isXMLNameField in Hp. apply andb_true_iff in Hp as [Hn Ht].
  apply String.eqb_eq in Hn. by apply GoType_eqb_xmlNameT in Ht.
Qed.

(** The second pass of [decodeAttributes] leaves a field of type
    [xml.Name] alone: the coercion has no case for a struct. *)
Lemma attrFieldsFrom_keeps_name (d : Decoder) (anyIdx : option nat) (attrs : list Attr)
    (i : nat) (fs : list StructField) :
  forall (k : nat) (v : Value) (m : gset nat),
    (forall j f, fs !! j = Some f -> (k + j)%nat = i -> FType f = xmlNameT) ->
    getField (attrFieldsFrom d anyIdx attrs k fs v m).1.1 i = getField v i.
Proof.
  induction fs as [|f fs IH]; intros k v m Hty; [done|].
  assert (Htl : forall j g, fs !! j = Some g -> (S k + j)%nat = i -> FType g = xmlNameT).
  { intros j g Hg Hj. apply (Hty (S j) g); [done|lia]. }
  cbn [attrFieldsFrom].
  destruct (attrFieldName anyIdx k f) as [attrName|]; [|by apply IH].
  destruct (list_find _ attrs) as [[attrIdx attr]|]; [|by apply IH].
  destruct (decide (k = i)) as [->|Hne].
  - rewrite (Hty 0%nat f) by (done || lia). cbn [xmlNameT setFieldValue].
    by rewrite setField_getField.
  - destruct (setFieldValue (FType f) (getField v k) (AValue attr)) as [x [e|]].
    + by apply getField_setField_ne.
    + rewrite IH by done. by apply getField_setField_ne.
Qed.

Lemma decodeAttributes_keeps_name (d : Decoder) (t : GoType) (v : Value)
    (attrs : list Attr) (i : nat) (f : StructField) :
  fieldsOf t !! i = Some f -> FType f = xmlNameT ->
  getField (decodeAttributes d t v attrs).1 i = getField v i.
Proof.
  intros Hf Hty. unfold decodeAttributes.
  pose proof (attrFieldsFrom_keeps_name d (findByTag isAnyAttrTag t) attrs i (fieldsOf t)
                0 v ∅) as H.
  destruct (attrFieldsFrom _ _ _ _ _ _ _) as [[v' m] [e|]]; cbn [fst] in *.
  - apply H. intros j g Hg Hj. cbn in Hj. subst j. rewrite Hf in Hg. by injection Hg as <-.
  - assert (Hv : getField v' i = getField v i).
    { apply H. intros j g Hg Hj. cbn in Hj. subst j. rewrite Hf in Hg. by injection Hg as <-. }
    destruct (findByTag isAnyAttrTag t) as [a|]; [|done].
    destruct (decide (a = i)) as [->|Hne].
    + rewrite Hf. cbn [fmap option_fmap option_map default]. rewrite Hty.
      by rewrite andb_false_r.
    + case_match; [|done]. cbn [fst]. by rewrite getField_setField_ne.
Qed.

(** C9. When the struct has a field named XMLName of type [xml.Name],
    [decodeStruct] first writes the element's resolved name into it and
    touches no other field; the attribute pass runs on that value and
    keeps the name, and children are processed only after it. *)
Theorem XMLName_is_set_first (E : XmlEncoder) (d : Decoder) (fuel : nat) (t : GoType)
    (fs : list Value) (start : StartElement) (s : list Read) (i : nat) (f : StructField) :
  list_find (fun f => isXMLNameField f = true) (fieldsOf t) = Some (i, f) ->
  (i < length fs)%nat ->
  let v1 := setXMLName t (VStruct fs) start in
  getField v1 i = nameValue (EName start) /\
  (forall j, j <> i -> getField v1 j = getField (VStruct fs) j) /\
  (forall v2 e, decodeAttributes d t v1 (EAttr start) = (v2, Some e) ->
     decodeStruct E d (S fuel) t (VStruct fs) start s = failed v2 s e
     /\ getField v2 i = nameValue (EName start)) /\
  (forall v2, decodeAttributes d t v1 (EAttr start) = (v2, None) ->
     getField v2 i = nameValue (EName start) /\
     decodeStruct E d (S fuel) t (VStruct fs) start s =
       match findInnerXMLField t with
       | Some k =>
           match innerXMLLoop E (NewEncoder E) 0 s with
           | InnerEnd content r => ok (setInnerXML t v2 k content) r
           | InnerEOF => ok v2 []
           | InnerErr e r => failed v2 r e
           end
       | None =>
           decodeStructLoop E d fuel t (findChardataField t) (findCDataField t)
             (findAnyField t) (findCommentField t) "" "" v2 s
       end).
Proof.
  intros Hfind Hi v1.
  destruct (XMLName_field_type t i f Hfind) as (Hf & _ & Hty).
  assert (Hv1 : v1 = setField (VStruct fs) i (nameValue (EName start))).
  { subst v1. unfold setXMLName. by rewrite Hfind. }
  assert (Hget : getField v1 i = nameValue (EName start)).
  { rewrite Hv1. by apply getField_setField_eq. }
  split; [done|]. split.
  { intros j Hj. rewrite Hv1. by apply getField_setField_ne. }
  pose proof (decodeAttributes_keeps_name d t v1 (EAttr start) i f Hf Hty) as Hkeep.
  split.
  - intros v2 e Hattr. rewrite Hattr in Hkeep. cbn [fst] in Hkeep.
    split; [|by rewrite Hkeep].
    rewrite decodeStruct_S. unfold decodeStructBody. fold v1. by rewrite Hattr.
  - intros v2 Hattr. rewrite Hattr in Hkeep. cbn [fst] in Hkeep.
    split; [by rewrite Hkeep|].
    rewrite decodeStruct_S. unfold decodeStructBody. fold v1. by rewrite Hattr.
Qed.

Lemma XMLName_is_set_first_witness :
  let start := mkStart (mkName Examples.NS_U "doc") [mkAttr (Examples.plain "count") "x"] in
  let v1 := setXMLName Examples.Counted (VStruct [nameValue (mkName "" ""); VInt 0]) start in
  getField v1 0 = nameValue (mkName Examples.NS_U "doc") /\
  decodeStruct Examples.noEncoder Examples.emptyContext 1 Examples.Counted
    (VStruct [nameValue (mkName "" ""); VInt 0]) start []
  = failed (VStruct [nameValue (mkName Examples.NS_U "doc"); VInt 0]) []
      (ParseIntError "x").
Proof.
  intros start v1.
  destruct (XMLName_is_set_first Examples.noEncoder Examples.emptyContext 0
              Examples.Counted [nameValue (mkName "" ""); VInt 0] start [] 0
              (Field "XMLName" "doc" xmlNameT) eq_refl) as (H1 & _ & H3 & _).
  { cbn. lia. }
  split; [exact H1|].
  apply (H3 (VStruct [nameValue (mkName Examples.NS_U "doc"); VInt 0]) (ParseIntError "x")).
  reflexivity.
Defined.

(** ** How a frame ends *)

(** C4. A complete document on which the root frame does not end at its
    own end element. [encoding/xml] reports the end of the input inside
    an open element as a syntax error, and io.EOF only behind a complete
    document; both documents here are complete. The element [x] of the
    ,any slice of integers fails to parse after [decodeInt] has consumed
    its end element; [decodeAnyElement] then calls [decoder.Skip], which
    reads on to the end element of the root (over the sibling [y] in the
    second document) and consumes it. The loop of the root frame is left
    with the empty stream, reads io.EOF and returns without error. *)
Theorem failed_any_element_consumes_the_parents_end :
  isContent Samples.oneBadItem /\
  isContent Samples.badItemFirst /\
  decodeElement Examples.noEncoder Examples.emptyContext 1 (TInt WNative) (VInt 0)
    (mkStart (Examples.plain "x") [])
    [Examples.text "abc"; Examples.close "x"; Examples.close "root"]
  = failed (VInt 0) [Examples.close "root"] (ParseIntError "abc") /\
  decodeAnyElement (decodeElement Examples.noEncoder Examples.emptyContext 1)
    (TSlice (TInt WNative)) (VSlice []) (mkStart (Examples.plain "x") [])
    [Examples.text "abc"; Examples.close "x"; Examples.close "root"]
  = ok (VSlice []) [] /\
  decodeStructLoop Examples.noEncoder Examples.emptyContext 1 Examples.AnyInts
    None None (Some 0%nat) None "" "" (VStruct [VSlice []]) []
  = ok (VStruct [VSlice []]) [] /\
  Decode Examples.noEncoder Examples.emptyContext 5 (TPtr Examples.AnyInts)
    (VPtr (Some (zero Examples.AnyInts))) Samples.oneBadItem
  = ok (VPtr (Some (VStruct [VSlice []]))) [] /\
  Decode Examples.noEncoder Examples.emptyContext 5 (TPtr Examples.AnyInts)
    (VPtr (Some (zero Examples.AnyInts))) Samples.badItemFirst
  = ok (VPtr (Some (VStruct [VSlice []]))) [].
Proof. repeat split; reflexivity. Qed.

(** ** Fields whose tag contains "attr" *)

Lemma fieldMatchesElement_no_attr (d : Decoder) (start : StartElement) (f : StructField) :
  Strings.Contains (FTag f) "attr" = true -> fieldMatchesElement d start f = false.
Proof.
  intros H. unfold fieldMatchesElement. rewrite H.
  by repeat (match goal with |- context [if ?c then _ else _] => destruct c end; try done).
Qed.

Lemma pathFieldMatches_no_attr (d : Decoder) (start : StartElement) (f : StructField) :
  Strings.Contains (FTag f) "attr" = true -> pathFieldMatches d start f = false.
Proof.
  intros H. unfold pathFieldMatches. rewrite H.
  by repeat (match goal with |- context [if ?c then _ else _] => destruct c end; try done).
Qed.

Lemma findFieldWithTag_Some (d : Decoder) (t : GoType) (start : StartElement) (i : nat) :
  findFieldWithTag d t start = Some i ->
  exists f, fieldsOf t !! i = Some f /\ fieldMatchesElement d start f = true.
Proof.
  unfold findFieldWithTag. intros H.
  destruct (list_find _ _) as [[k f]|] eqn:Hf; [|done].
  injection H as ->. apply list_find_Some in Hf as (? & ? & _). by exists f.
Qed.

Lemma pathFieldsFrom_elem (d : Decoder) (start : StartElement) (fs : list StructField) :
  forall (k : nat) (pf : pathFieldInfo),
    pf ∈ pathFieldsFrom d start k fs ->
    exists j f, pfField pf = (k + j)%nat /\ fs !! j = Some f
                /\ pathFieldMatches d start f = true.
Proof.
  induction fs as [|f fs IH]; intros k pf Hin; cbn [pathFieldsFrom] in Hin.
  - by apply elem_of_nil in Hin.
  - apply elem_of_app in Hin as [Hin|Hin].
    + destruct (pathFieldMatches d start f) eqn:Hm; [|by apply elem_of_nil in Hin].
      apply list_elem_of_singleton in Hin as ->. exists 0%nat, f. cbn. by rewrite Nat.add_0_r.
    + apply IH in Hin as (j & g & Hj & Hg & Hm). exists (S j), g.
      split; [lia|done].
Qed.

Lemma findAllPathFieldsWithPrefix_elem (d : Decoder) (t : GoType) (start : StartElement)
    (pf : pathFieldInfo) :
  pf ∈ findAllPathFieldsWithPrefix d t start ->
  exists f, fieldsOf t !! pfField pf = Some f /\ pathFieldMatches d start f = true.
Proof.
  intros Hin. apply pathFieldsFrom_elem in Hin as (j & f & Hj & Hf & Hm).
  exists f. by rewrite Hj.
Qed.

(** A substring of a substring is a substring. *)
Lemma HasPrefix_app (s a b : string) :
  Strings.HasPrefix s (a +:+ b) = true ->
  exists s', s = a +:+ s' /\ Strings.HasPrefix s' b = true.
Proof.
  revert s. induction a as [|c a IH]; intros s H.
  - by exists s.
  - rewrite append_cons_l in H. cbn [Strings.HasPrefix] in H.
    destruct s as [|c' s]; [done|].
    destruct (Ascii.eqb_spec c' c) as [->|]; [|done].
    apply IH in H as (s' & -> & H). by exists s'.
Qed.

Lemma Contains_cons (c : ascii) (s b : string) :
  Strings.Contains s b = true -> Strings.Contains (String c s) b = true.
Proof. intros H. cbn [Strings.Contains]. rewrite H. apply orb_true_r. Qed.

Lemma Contains_skip (a s b : string) :
  Strings.HasPrefix s b = true -> Strings.Contains (a +:+ s) b = true.
Proof.
  intros H. induction a as [|c a IH].
  - rewrite append_nil_l. destruct s; cbn [Strings.Contains]; [done|]. by rewrite H.
  - rewrite append_cons_l. by apply Contains_cons.
Qed.

Lemma Contains_suffix (s a b : string) :
  Strings.Contains s (a +:+ b) = true -> Strings.Contains s b = true.
Proof.
  induction s as [|c s IH]; cbn [Strings.Contains]; intros H.
  - apply HasPrefix_app in H as (s' & Hs & H).
    destruct a; [|done]. rewrite append_nil_l in Hs. by subst s'.
  - apply orb_true_iff in H as [H|H].
    + apply HasPrefix_app in H as (s' & Hs & H).
      change (Strings.Contains (String c s) b = true).
      rewrite Hs. by apply Contains_skip.
    + rewrite IH by done. apply orb_true_r.
Qed.

Lemma anyAttr_is_attr (tag : string) :
  Strings.Contains tag ",any,attr" = true -> Strings.Contains tag "attr" = true.
Proof. apply (Contains_suffix tag ",any," "attr"). Qed.

Lemma attrFieldName_classifies (t : GoType) (i : nat) (f : StructField) :
  fieldsOf t !! i = Some f ->
  Strings.Contains (FTag f) "attr" = true ->
  Strings.Contains (FTag f) ",any,attr" = false ->
  Strings.HasPrefix (nth 0 (Strings.Split (FTag f) comma) "") "xmlns" = false ->
  attrFieldName (findByTag isAnyAttrTag t) i f
  = Some (nth 0 (Strings.Split (FTag f) comma) "").
Proof.
  intros Hf Hattr Hany Hns. unfold attrFieldName.
  rewrite Hattr, Hany, Hns. cbn [negb orb].
  case_bool_decide as Hidx.
  - apply findByTag_Some in Hidx as (g & Hg & Hp & _).
    rewrite Hf in Hg. injection Hg as <-. unfold isAnyAttrTag in Hp.
    rewrite Hany in Hp. by rewrite !andb_false_r in Hp.
  - destruct (String.eqb_spec (FTag f) "") as [Heq|]; [|done].
    rewrite Heq in Hattr. discriminate Hattr.
Qed.

Lemma hasField_setField (v x : Value) (i j : nat) :
  hasField v i -> hasField (setField v j x) i.
Proof. destruct v; try done. cbn. by rewrite length_insert. Qed.

Lemma getField_setField_same (v x : Value) (i : nat) :
  hasField v i -> getField (setField v i x) i = x.
Proof. destruct v; try done. apply getField_setField_eq. Qed.

(** The second pass writes only at the indices it visits. *)
Lemma attrFieldsFrom_before (d : Decoder) (anyIdx : option nat) (attrs : list Attr)
    (i : nat) (fs : list StructField) :
  forall (k : nat) (v : Value) (m : gset nat),
    (i < k)%nat ->
    getField (attrFieldsFrom d anyIdx attrs k fs v m).1.1 i = getField v i.
Proof.
  induction fs as [|f fs IH]; intros k v m Hk; [done|].
  cbn [attrFieldsFrom].
  destruct (attrFieldName anyIdx k f) as [attrName|]; [|apply IH; lia].
  destruct (list_find _ attrs) as [[attrIdx attr]|]; [|apply IH; lia].
  destruct (setFieldValue (FType f) (getField v k) (AValue attr)) as [x [e|]]; cbn [fst].
  - apply getField_setField_ne. lia.
  - rewrite IH by lia. apply getField_setField_ne. lia.
Qed.

Lemma attrFieldsFrom_sets (d : Decoder) (anyIdx : option nat) (attrs : list Attr)
    (i : nat) (f : StructField) (attrName : string) (ai : nat) (a : Attr)
    (fs : list StructField) :
  attrFieldName anyIdx i f = Some attrName ->
  FType f = TString ->
  list_find (fun a => matchesAttribute d attrName a = true) attrs = Some (ai, a) ->
  forall (k : nat) (v : Value) (m : gset nat),
    (k <= i)%nat -> fs !! (i - k)%nat = Some f -> hasField v i ->
    (attrFieldsFrom d anyIdx attrs k fs v m).2 = None ->
    getField (attrFieldsFrom d anyIdx attrs k fs v m).1.1 i = VString (AValue a).
Proof.
  intros Hname Hty Hfind.
  induction fs as [|g fs IH]; intros k v m Hk Hf Hv Hok; [done|].
  destruct (decide (k = i)) as [->|Hne].
  - rewrite Nat.sub_diag in Hf. injection Hf as ->.
    cbn [attrFieldsFrom] in *. rewrite Hname, Hfind, Hty in *.
    cbn [setFieldValue] in *.
    rewrite attrFieldsFrom_before by lia. by apply getField_setField_same.
  - assert (Hf' : fs !! (i - S k)%nat = Some f).
    { replace (i - k)%nat with (S (i - S k)) in Hf by lia. done. }
    cbn [attrFieldsFrom] in *.
    destruct (attrFieldName anyIdx k g) as [gName|]; [|apply IH; (lia || done)].
    destruct (list_find _ attrs) as [[gIdx gAttr]|] in Hok |- *;
      [|apply IH; (lia || done)].
    destruct (setFieldValue (FType g) (getField v k) (AValue gAttr)) as [x [e|]];
      [done|].
    apply IH; try (lia || done). by apply hasField_setField.
Qed.

(** What the attribute pass leaves in an attribute field of kind string:
    the value of the first attribute its name matches. *)
Lemma decodeAttributes_sets (d : Decoder) (t : GoType) (v v' : Value) (attrs : list Attr)
    (i : nat) (f : StructField) (attrName : string) (ai : nat) (a : Attr) :
  fieldsOf t !! i = Some f ->
  attrFieldName (findByTag isAnyAttrTag t) i f = Some attrName ->
  FType f = TString ->
  list_find (fun a => matchesAttribute d attrName a = true) attrs = Some (ai, a) ->
  hasField v i ->
  decodeAttributes d t v attrs = (v', None) ->
  getField v' i = VString (AValue a).
Proof.
  intros Hf Hname Hty Hfind Hv Hdec. unfold decodeAttributes in Hdec.
  pose proof (attrFieldsFrom_sets d (findByTag isAnyAttrTag t) attrs i f attrName ai a
                (fieldsOf t) Hname Hty Hfind 0 v ∅) as Hset.
  rewrite Nat.sub_0_r in Hset.
  destruct (attrFieldsFrom _ _ _ _ _ _ _) as [[v1 m] [e|]]; [done|].
  cbn [fst snd] in Hset. specialize (Hset (Nat.le_0_l i) Hf Hv eq_refl).
  destruct (findByTag isAnyAttrTag t) as [a0|] eqn:Hany; [|by injection Hdec as <-].
  assert (a0 <> i).
  { intros ->. unfold attrFieldName in Hname. by rewrite bool_decide_true in Hname. }
  case_match; injection Hdec as <-; [|done].
  by rewrite getField_setField_ne.
Qed.

(** ** Child elements never reach a field the element lookup passes over *)

Lemma pathPass_keeps (d : Decoder)
    (dec : GoType -> Value -> StartElement -> list Read -> Out)
    (t : GoType) (start : StartElement) (i : nat) (pfs : list pathFieldInfo) :
  forall (k : nat) (st : PathPass),
    (forall pf, pf ∈ pfs -> pfField pf <> i) ->
    (forall pf, pf ∈ ppMatching st -> pfField pf <> i) ->
    getField (ppVal (pathPass d dec t start k pfs st)) i = getField (ppVal st) i
    /\ (forall pf, pf ∈ ppMatching (pathPass d dec t start k pfs st) -> pfField pf <> i).
Proof.
  induction pfs as [|pf pfs IH]; intros k st Hpfs Hst; [done|].
  assert (Hhd : pfField pf <> i) by (apply Hpfs; left).
  assert (Htl : forall q, q ∈ pfs -> pfField q <> i) by (intros q Hq; apply Hpfs; by right).
  cbn [pathPass].
  destruct (default false (ppFound st !! k)); [by apply IH|].
  destruct (length (Strings.Split (pfTag pf) gt) <? 2)%nat; [by apply IH|].
  destruct (matchesField d _ _ _); [|by apply IH].
  destruct (length (Strings.Split (pfTag pf) gt) =? 2)%nat.
  - destruct (err (dec _ _ _ _)) as [e|]; cbn [ppVal ppMatching].
    + split; [by apply getField_setField_ne|done].
    + edestruct (IH (S k)) as [H1 H2]; [done| |split; [rewrite H1|apply H2]];
        cbn [ppVal ppMatching]; [done|].
      by apply getField_setField_ne.
  - edestruct (IH (S k)) as [H1 H2]; [done| |split; [rewrite H1|apply H2]];
      cbn [ppVal ppMatching]; [|done].
    intros q Hq. apply elem_of_app in Hq as [Hq|Hq]; [by apply Hst|].
    by apply list_elem_of_singleton in Hq as ->.
Qed.

Lemma endOfStruct_keeps (t : GoType) (cf cdf cmf : option nat) (cd cm : string)
    (v : Value) (i : nat) :
  cf <> Some i -> cdf <> Some i -> cmf <> Some i ->
  getField (endOfStruct t cf cdf cmf cd cm v).1 i = getField v i.
Proof.
  intros Hcf Hcdf Hcmf. unfold endOfStruct.
  assert (Htext : getField (assignText t cf cdf cd v).1 i = getField v i).
  { unfold assignText.
    destruct cf as [a|], cdf as [b|]; try done;
      destruct (0 <? String.length cd)%nat; try done;
      apply setStringField_other; congruence. }
  destruct (assignText t cf cdf cd v) as [v1 [e|]]; cbn [fst] in *; [done|].
  unfold assignComments. destruct cmf as [k|]; [|done].
  destruct (0 <? String.length cm)%nat; [|done].
  rewrite setStringField_other by congruence. done.
Qed.

Section KeepsField.

Variable E : XmlEncoder.
Variable d : Decoder.
Variable t : GoType.
Variable i : nat.
Variable f : StructField.
Hypothesis Hf : fieldsOf t !! i = Some f.
Hypothesis Hattr : Strings.Contains (FTag f) "attr" = true.

Lemma findFieldWithTag_skips (start : StartElement) : findFieldWithTag d t start <> Some i.
Proof.
  intros H. apply findFieldWithTag_Some in H as (g & Hg & Hm).
  rewrite Hf in Hg. injection Hg as <-.
  by rewrite fieldMatchesElement_no_attr in Hm.
Qed.

Lemma findAllPathFieldsWithPrefix_skips (start : StartElement) (pf : pathFieldInfo) :
  pf ∈ findAllPathFieldsWithPrefix d t start -> pfField pf <> i.
Proof.
  intros H Heq. apply findAllPathFieldsWithPrefix_elem in H as (g & Hg & Hm).
  rewrite Heq, Hf in Hg. injection Hg as <-.
  by rewrite pathFieldMatches_no_attr in Hm.
Qed.

Lemma loops_keep_field (fuel : nat) :
  (forall cf cdf af cmf cd cm v s,
     cf <> Some i -> cdf <> Some i -> af <> Some i -> cmf <> Some i ->
     getField (val (decodeStructLoop E d fuel t cf cdf af cmf cd cm v s)) i = getField v i)
  /\ (forall pfs found v s,
        (forall pf, pf ∈ pfs -> pfField pf <> i) ->
        getField (val (decodeMultiplePathFields E d fuel t pfs found v s)) i = getField v i).
Proof.
  induction fuel as [|fuel [IHloop IHpath]]; [done|]. split.
  - intros cf cdf af cmf cd cm v s Hcf Hcdf Haf Hcmf.
    rewrite decodeStructLoop_S. unfold decodeStructLoopBody.
    destruct s as [|[[st|n|data|data|tg inst|data]|msg] r]; try done;
      try (by apply IHloop).
    + destruct (0 <? length (findAllPathFieldsWithPrefix d t st))%nat.
      * pose proof (IHpath (findAllPathFieldsWithPrefix d t st)
                      (replicate (length (findAllPathFieldsWithPrefix d t st)) false) v r
                      (findAllPathFieldsWithPrefix_skips st)) as H.
        destruct (err (decodeMultiplePathFields _ _ _ _ _ _ _ _)); [done|].
        by rewrite IHloop.
      * pose proof (findFieldWithTag_skips st) as Hskip.
        destruct (findFieldWithTag d t st) as [j|].
        -- assert (j <> i) by congruence.
           destruct (err (decodeElement _ _ _ _ _ _ _)); cbn [val].
           ++ by apply getField_setField_ne.
           ++ rewrite IHloop by done. by apply getField_setField_ne.
        -- destruct af as [a|].
           ++ assert (a <> i) by congruence.
              destruct (err (decodeAnyElement _ _ _ _ _)); cbn [val].
              ** by apply getField_setField_ne.
              ** rewrite IHloop by done. by apply getField_setField_ne.
           ++ destruct (Skip 0 r) as [r' [e|]]; [done|]. by apply IHloop.
    + pose proof (endOfStruct_keeps t cf cdf cmf cd cm v i Hcf Hcdf Hcmf) as H.
      by destruct (endOfStruct t cf cdf cmf cd cm v).
    + destruct (_ || _); by apply IHloop.
    + destruct cmf; by apply IHloop.
  - intros pfs found v s Hpfs. rewrite decodeMultiplePathFields_S.
    unfold decodeMultiplePathFieldsBody.
    destruct s as [|[[st|n|data|data|tg inst|data]|msg] r]; try done;
      try (by apply IHpath).
    destruct (pathPass_keeps d (decodeElement E d fuel) t st i pfs 0
                (mkPass v r found [] [] false None) Hpfs) as [Hv Hm].
    { intros pf Hpf. by apply elem_of_nil in Hpf. }
    cbn [ppVal] in Hv.
    destruct (ppErr _); [done|].
    destruct (0 <? length _)%nat.
    + pose proof (IHpath _ (replicate (length (ppMatching (pathPass d (decodeElement E d fuel)
                     t st 0 pfs (mkPass v r found [] [] false None)))) false)
                    (ppVal (pathPass d (decodeElement E d fuel) t st 0 pfs
                              (mkPass v r found [] [] false None)))
                    (ppRest (pathPass d (decodeElement E d fuel) t st 0 pfs
                              (mkPass v r found [] [] false None))) Hm) as H.
      destruct (err (decodeMultiplePathFields _ _ _ _ _ _ _ _)).
      * by rewrite H.
      * rewrite IHpath by done. by rewrite H.
    + destruct (negb _).
      * destruct (Skip 0 _) as [r' [e|]]; [done|]. by rewrite IHpath.
      * by rewrite IHpath.
Qed.

End KeepsField.

Lemma setInnerXML_other (t : GoType) (v : Value) (k i : nat) (content : string) :
  k <> i -> getField (setInnerXML t v k content) i = getField v i.
Proof.
  intros Hne. unfold setInnerXML.
  repeat case_match; try done; by apply getField_setField_ne.
Qed.

(** C10, as the code has it. A field whose tag contains "attr" anywhere
    is never selected for an element, neither directly nor as the head
    of a path. Unless the tag contains ",any,attr" or its first comma
    segment starts with "xmlns", the attribute pass matches the field
    under that first segment and, for a string field, stores the value
    of the first matching attribute. Child elements, text and comments
    leave the field as the attribute pass left it, except when the field
    is also the record's ,any, ,innerxml, chardata, cdata or comment
    field. *)
Theorem attr_substring_classifies_field (E : XmlEncoder) (d : Decoder) (t : GoType)
    (i : nat) (f : StructField) :
  fieldsOf t !! i = Some f ->
  Strings.Contains (FTag f) "attr" = true ->
  (forall start,
     fieldMatchesElement d start f = false /\
     pathFieldMatches d start f = false /\
     findFieldWithTag d t start <> Some i /\
     (forall pf, pf ∈ findAllPathFieldsWithPrefix d t start -> pfField pf <> i)) /\
  (Strings.Contains (FTag f) ",any,attr" = false ->
   Strings.HasPrefix (nth 0 (Strings.Split (FTag f) comma) "") "xmlns" = false ->
   attrFieldName (findByTag isAnyAttrTag t) i f
     = Some (nth 0 (Strings.Split (FTag f) comma) "") /\
   (forall v v' attrs ai a,
      FType f = TString ->
      list_find (fun a => matchesAttribute d (nth 0 (Strings.Split (FTag f) comma) "") a
                          = true) attrs = Some (ai, a) ->
      hasField v i ->
      decodeAttributes d t v attrs = (v', None) ->
      getField v' i = VString (AValue a))) /\
  (findAnyField t <> Some i ->
   findInnerXMLField t <> Some i ->
   findChardataField t <> Some i ->
   findCDataField t <> Some i ->
   findCommentField t <> Some i ->
   forall fuel v start s,
     getField (val (decodeStruct E d (S fuel) t v start s)) i
     = getField (decodeAttributes d t (setXMLName t v start) (EAttr start)).1 i).
Proof.
  intros Hf Hattr. split; [|split].
  - intros start. split; [by apply fieldMatchesElement_no_attr|].
    split; [by apply pathFieldMatches_no_attr|].
    split; [by apply (findFieldWithTag_skips d t i f)|].
    by apply (findAllPathFieldsWithPrefix_skips d t i f).
  - intros Hany Hns.
    pose proof (attrFieldName_classifies t i f Hf Hattr Hany Hns) as Hname.
    split; [done|]. intros v v' attrs ai a Hty Hfind Hv Hdec.
    by apply (decodeAttributes_sets d t v v' attrs i f
                (nth 0 (Strings.Split (FTag f) comma) "") ai a).
  - intros Hany Hinner Hcd Hcdata Hcm fuel v start s.
    rewrite decodeStruct_S. unfold decodeStructBody.
    destruct (decodeAttributes d t (setXMLName t v start) (EAttr start)) as [v2 [e|]];
      cbn [fst]; [done|].
    destruct (findInnerXMLField t) as [k|].
    + destruct (innerXMLLoop E (NewEncoder E) 0 s); cbn [val ok failed]; try done.
      apply setInnerXML_other. congruence.
    + by apply (loops_keep_field E d t i f Hf Hattr fuel).
Qed.

Lemma attr_substring_classifies_field_witness :
  (forall start,
     fieldMatchesElement Examples.emptyContext start (Field "Rate" "attrition" TString) = false /\
     pathFieldMatches Examples.emptyContext start (Field "Rate" "attrition" TString) = false /\
     findFieldWithTag Examples.emptyContext Examples.Churn start <> Some 0%nat /\
     (forall pf, pf ∈ findAllPathFieldsWithPrefix Examples.emptyContext Examples.Churn start ->
                 pfField pf <> 0%nat)) /\
  attrFieldName (findByTag isAnyAttrTag Examples.Churn) 0 (Field "Rate" "attrition" TString)
    = Some "attrition" /\
  (forall fuel v start s,
     getField (val (decodeStruct Examples.noEncoder Examples.emptyContext (S fuel)
                      Examples.Churn v start s)) 0
     = getField (decodeAttributes Examples.emptyContext Examples.Churn
                   (setXMLName Examples.Churn v start) (EAttr start)).1 0).
Proof.
  destruct (attr_substring_classifies_field Examples.noEncoder Examples.emptyContext
              Examples.Churn 0 (Field "Rate" "attrition" TString) eq_refl eq_refl)
    as (H1 & H2 & H3).
  split; [exact H1|]. split.
  - apply (H2 eq_refl eq_refl).
  - by apply H3.
Defined.

(** C10 as stated fails in its last clause: a field whose tag contains
    "attr" is filled from a child element when the same tag makes it the
    record's ,any field. *)
Lemma attr_tagged_any_field_takes_child :
  Strings.Contains "attrition,any" "attr" = true /\
  Decode Examples.noEncoder Examples.emptyContext 5 (TPtr Examples.Attrition)
    (VPtr (Some (zero Examples.Attrition)))
    [Examples.open "r"; Examples.open "foo"; Examples.text "hi";
     Examples.close "foo"; Examples.close "r"]
  = ok (VPtr (Some (VStruct [VString "hi"]))) [].
Proof. split; reflexivity. Qed.

(** ** Independence from attributes the record does not read *)

Section MapAttrs.

Variable E : XmlEncoder.
Variable d : Decoder.

(** The rewriting of the attribute lists. *)
Variable f : list Attr -> list Attr.

(** The record types under consideration: the attribute pass does not
    see the rewriting, there is no raw capture, and the types are closed
    under taking components. *)
Variable safe : GoType -> bool.
Hypothesis safe_attributes :
  forall t v attrs, safe t = true -> decodeAttributes d t v (f attrs) = decodeAttributes d t v attrs.
Hypothesis safe_innerxml : forall t, safe t = true -> findInnerXMLField t = None.
Hypothesis safe_field :
  forall t i, safe t = true -> safe (default (TOther "") (FType <$> fieldsOf t !! i)) = true.
Hypothesis safe_ptr : forall elem, safe (TPtr elem) = true -> safe elem = true.
Hypothesis safe_slice : forall elem, safe (TSlice elem) = true -> safe elem = true.















End MapAttrs.

(** ** Namespace declarations no attribute descriptor matches *)







Lemma findByTag_None (p : string -> bool) (t : GoType) :
  (forall i f, fieldsOf t !! i = Some f -> p (FTag f) = false) -> findByTag p t = None.
Proof.
  intros H. unfold findByTag.
  destruct (list_find _ _) as [[i f]|] eqn:Hf; [|done].
  apply list_find_Some in Hf as (Hf & Hp & _). by rewrite (H i f) in Hp.
Qed.















(** ** Construction of the decoder and the search for the root *)

Lemma matchesField_no_context (tag elemLocal elemNS : string) :
  matchesField (mkDecoder ∅) tag elemLocal elemNS
  = negb (Strings.Contains tag ":") && String.eqb tag elemLocal && String.eqb elemNS "".
Proof.
  unfold matchesField. cbn [namespaces]. rewrite !lookup_empty.
  destruct (Strings.Contains tag ":"); [done|]. cbn [negb andb].
  by destruct (String.eqb tag elemLocal).
Qed.

Lemma matchesAttribute_no_context (tag : string) (attr : Attr) :
  matchesAttribute (mkDecoder ∅) tag attr
  = negb (Strings.Contains tag ":") && String.eqb tag (Local (AName attr)).
Proof.
  unfold matchesAttribute. cbn [namespaces]. rewrite lookup_empty.
  by destruct (Strings.Contains tag ":").
Qed.

(** X1. The options of [NewDecoder] are applied in order and
    [WithNamespaces] replaces the context, it does not merge: the last
    one given is the context of the decoder, and of [Unmarshal].
    Without any option the context is empty: a prefixed tag matches
    nothing, and an unprefixed tag matches the elements of that local
    name that are in no namespace. *)
Theorem last_WithNamespaces_wins (E : XmlEncoder) (tokens : string -> list Read)
    (fuel : nat) (data : string) (t : GoType) (v : Value) (opts : list Option)
    (m : gmap string string) :
  NewDecoder (opts ++ [WithNamespaces m]) = mkDecoder m /\
  Unmarshal E tokens fuel data t v (opts ++ [WithNamespaces m])
    = Decode E (mkDecoder m) fuel t v (tokens data) /\
  (forall tag elemLocal elemNS,
     matchesField (NewDecoder []) tag elemLocal elemNS
     = negb (Strings.Contains tag ":") && String.eqb tag elemLocal && String.eqb elemNS "") /\
  (forall tag attr,
     matchesAttribute (NewDecoder []) tag attr
     = negb (Strings.Contains tag ":") && String.eqb tag (Local (AName attr))).
Proof.
  assert (Hlast : NewDecoder (opts ++ [WithNamespaces m]) = mkDecoder m).
  { unfold NewDecoder. by rewrite foldl_app. }
  split; [done|]. split; [unfold Unmarshal; by rewrite Hlast|]. split.
  - apply matchesField_no_context.
  - apply matchesAttribute_no_context.
Qed.

Lemma readRoot_beforeRoot (pre : list Read) (s : list Read) :
  beforeRoot pre = true -> readRoot (pre ++ s) = readRoot s.
Proof.
  induction pre as [|[[st|n|data|data|tg inst|data]|msg] pre IH]; cbn; try done.
Qed.



(** ** A frame does not look at the name of its own element *)

Lemma setXMLName_none (t : GoType) (v : Value) (start : StartElement) :
  existsb isXMLNameField (fieldsOf t) = false -> setXMLName t v start = v.
Proof.
  intros H. unfold setXMLName.
  destruct (list_find _ _) as [[i f]|] eqn:Hf; [|done].
  apply list_find_Some in Hf as (Hi & Hp & _).
  assert (existsb isXMLNameField (fieldsOf t) = true); [|congruence].
  apply existsb_exists. exists f. split; [|done].
  apply list_elem_of_In, list_elem_of_lookup. by exists i.
Qed.

(** X3. The name of the element a frame decodes is used by the parent
    to select the field, never by the frame itself: unless the struct it
    ends up in has an XMLName field, which records the name, the result
    is the same for every element name. In particular [Decode] accepts a
    root element of any name. *)
Theorem frame_ignores_its_own_name (E : XmlEncoder) (d : Decoder) (fuel : nat)
    (t : GoType) (v : Value) (n n' : Name) (attrs : list Attr) (s : list Read) :
  recordsName t = false ->
  decodeElement E d fuel t v (mkStart n attrs) s
  = decodeElement E d fuel t v (mkStart n' attrs) s.
Proof.
  revert t v. induction fuel as [|fuel IH]; intros t v Hn; [done|].
  rewrite !decodeElement_S. unfold decodeElementBody.
  destruct t as [| |w|w|k|elem|elem|name fs]; try done; cbn [recordsName] in Hn.
  - by rewrite (IH elem _ Hn).
  - by rewrite (IH elem _ Hn).
  - destruct fuel as [|fuel']; [done|].
    rewrite !decodeStruct_S. unfold decodeStructBody. cbn [EAttr].
    by rewrite !setXMLName_none.
Qed.

Lemma frame_ignores_its_own_name_witness :
  decodeElement Examples.noEncoder Examples.emptyContext 5 Examples.Named
    (zero Examples.Named) (mkStart (Examples.plain "user") [])
    [Examples.open "name"; Examples.text "Jane"; Examples.close "name"; Examples.close "user"]
  = decodeElement Examples.noEncoder Examples.emptyContext 5 Examples.Named
      (zero Examples.Named) (mkStart (mkName Examples.NS_U "invoice") [])
      [Examples.open "name"; Examples.text "Jane"; Examples.close "name"; Examples.close "user"].
Proof.
  apply (frame_ignores_its_own_name Examples.noEncoder Examples.emptyContext 5
           Examples.Named). reflexivity.
Defined.

(** ** Elements no field takes *)

Lemma Skip_nesting (sub r : list Read) :
  forall k k', nesting k sub = Some k' -> Skip k (sub ++ r) = Skip k' r.
Proof.
  induction sub as [|[[st|n|data|data|tg inst|data]|msg] sub IH]; intros k k' H;
    cbn [nesting] in H; cbn [app Skip]; try done; try (by apply IH).
  - by injection H as ->.
  - destruct k as [|k]; [done|]. by apply IH.
Qed.

Lemma Skip_content (sub : list Read) (n : Name) (r : list Read) :
  isContent sub -> Skip 0 (sub ++ Tok (TEnd n) :: r) = (r, None).
Proof. intros H. by rewrite (Skip_nesting sub _ 0 0 H). Qed.

Lemma Skip_truncated (sub : list Read) :
  forall k k', nesting k sub = Some k' -> Skip k sub = ([], Some EOF).
Proof.
  induction sub as [|[[st|n|data|data|tg inst|data]|msg] sub IH]; intros k k' H;
    cbn [nesting] in H; cbn [Skip]; try done; try (by eapply IH).
  destruct k as [|k]; [done|]. by eapply IH.
Qed.

(** X4. In a record without an ,any field, a child element that no
    field takes is skipped as a whole, with everything nested in it:
    the frame goes on behind its end element with the target, the text
    and the comments gathered so far unchanged. When the stream ends
    inside the skipped element, the end of the stream is the error. *)
Theorem unknown_element_is_skipped (E : XmlEncoder) (d : Decoder) (fuel : nat)
    (t : GoType) (cf cdf cmf : option nat) (cd cm : string) (v : Value)
    (st : StartElement) (sub : list Read) (n : Name) (r : list Read) :
  findAllPathFieldsWithPrefix d t st = [] ->
  findFieldWithTag d t st = None ->
  (isContent sub ->
   decodeStructLoop E d (S fuel) t cf cdf None cmf cd cm v
     (Tok (TStart st) :: sub ++ Tok (TEnd n) :: r)
   = decodeStructLoop E d fuel t cf cdf None cmf cd cm v r) /\
  (forall k, nesting 0 sub = Some k ->
   decodeStructLoop E d (S fuel) t cf cdf None cmf cd cm v (Tok (TStart st) :: sub)
   = failed v [] EOF).
Proof.
  intros Hpath Hfield. split.
  - intros Hsub. rewrite decodeStructLoop_S. unfold decodeStructLoopBody.
    rewrite Hpath, Hfield. cbn [length Nat.ltb Nat.leb]. by rewrite Skip_content.
  - intros k Hk. rewrite decodeStructLoop_S. unfold decodeStructLoopBody.
    rewrite Hpath, Hfield. cbn [length Nat.ltb Nat.leb].
    by rewrite (Skip_truncated sub 0 k Hk).
Qed.

Lemma unknown_element_is_skipped_witness :
  decodeStructLoop Examples.noEncoder Examples.emptyContext 4 Examples.Named
    None None None None "" "" (VStruct [VString ""])
    (Examples.open "other"
     :: [Examples.open "name"; Examples.text "no"; Examples.close "name"]
     ++ Examples.close "other"
     :: [Examples.open "name"; Examples.text "yes"; Examples.close "name";
         Examples.close "root"])
  = ok (VStruct [VString "yes"]) [].
Proof.
  destruct (unknown_element_is_skipped Examples.noEncoder Examples.emptyContext 3
              Examples.Named None None None "" "" (VStruct [VString ""])
              (mkStart (Examples.plain "other") [])
              [Examples.open "name"; Examples.text "no"; Examples.close "name"]
              (Examples.plain "other")
              [Examples.open "name"; Examples.text "yes"; Examples.close "name";
               Examples.close "root"] eq_refl eq_refl) as [H _].
  exact (eq_trans (H eq_refl) eq_refl).
Defined.

(** ** Errors inside an ,any slice *)

Lemma field_type (t : GoType) (i : nat) (f : StructField) :
  fieldsOf t !! i = Some f -> default (TOther "") (FType <$> fieldsOf t !! i) = FType f.
Proof. by intros ->. Qed.

Lemma decodeAnyElement_unsupported (E : XmlEncoder) (d : Decoder) (fuel : nat) (k : string)
    (v : Value) (st : StartElement) (sub : list Read) (n : Name) (r : list Read) :
  isContent sub ->
  decodeAnyElement (decodeElement E d (S fuel)) (TSlice (TOther k)) v st
    (sub ++ Tok (TEnd n) :: r) = ok v r.
Proof.
  intros Hsub. unfold decodeAnyElement. rewrite decodeElement_S.
  cbn [decodeElementBody failed err rest isReturnedError].
  by rewrite Skip_content.
Qed.

Lemma decodeAnyElement_unparsed (E : XmlEncoder) (d : Decoder) (fuel : nat) (w : Width)
    (v : Value) (st : StartElement) (txt : string) (sub : list Read) (n n' : Name)
    (r : list Read) :
  Strconv.ParseInt (Strings.TrimSpace txt) = None ->
  isContent sub ->
  decodeAnyElement (decodeElement E d (S fuel)) (TSlice (TInt w)) v st
    (Tok (TCharData txt) :: Tok (TEnd n) :: sub ++ Tok (TEnd n') :: r) = ok v r.
Proof.
  intros Hparse Hsub. unfold decodeAnyElement. rewrite decodeElement_S.
  cbn [decodeElementBody]. unfold decodeInt. cbn [readText].
  rewrite append_nil_l, Hparse. cbn [failed err rest isReturnedError].
  by rewrite Skip_content.
Qed.

(** X5. Decoding into an ,any slice swallows the error of the element:
    nothing is appended and no error is returned. When the element kind
    of the slice is unsupported the element is skipped as a whole. When
    the element is an integer whose text does not parse, the error is
    raised behind the end element, and the skip that follows consumes
    the rest of the parent with its end element: the frame goes on
    behind the end of its own element. *)
Theorem any_slice_swallows_errors (E : XmlEncoder) (d : Decoder) (fuel : nat)
    (t : GoType) (a : nat) (f : StructField) (cf cdf cmf : option nat) (cd cm : string)
    (v : Value) (st : StartElement) (sub : list Read) (n n' : Name) (r : list Read) :
  findAllPathFieldsWithPrefix d t st = [] ->
  findFieldWithTag d t st = None ->
  fieldsOf t !! a = Some f ->
  isContent sub ->
  (forall k, FType f = TSlice (TOther k) ->
   decodeStructLoop E d (S (S fuel)) t cf cdf (Some a) cmf cd cm v
     (Tok (TStart st) :: sub ++ Tok (TEnd n) :: r)
   = decodeStructLoop E d (S fuel) t cf cdf (Some a) cmf cd cm v r) /\
  (forall w txt, FType f = TSlice (TInt w) ->
   Strconv.ParseInt (Strings.TrimSpace txt) = None ->
   decodeStructLoop E d (S (S fuel)) t cf cdf (Some a) cmf cd cm v
     (textElement st txt n ++ sub ++ Tok (TEnd n') :: r)
   = decodeStructLoop E d (S fuel) t cf cdf (Some a) cmf cd cm v r).
Proof.
  intros Hpath Hfield Hf Hsub. pose proof (field_type t a f Hf) as Hft. split.
  - intros k Hty. rewrite (decodeStructLoop_S E d (S fuel)).
    unfold decodeStructLoopBody.
    rewrite Hpath, Hfield, Hft, Hty. cbn [length Nat.ltb Nat.leb].
    rewrite decodeAnyElement_unsupported by done. cbn [ok val err rest].
    by rewrite setField_getField.
  - intros w txt Hty Hparse. unfold textElement. cbn [app].
    rewrite (decodeStructLoop_S E d (S fuel)). unfold decodeStructLoopBody.
    rewrite Hpath, Hfield, Hft, Hty. cbn [length Nat.ltb Nat.leb].
    rewrite decodeAnyElement_unparsed by done. cbn [ok val err rest].
    by rewrite setField_getField.
Qed.

Lemma any_slice_swallows_errors_witness :
  decodeStructLoop Examples.noEncoder Examples.emptyContext 3 Examples.AnyInts
    None None (Some 0%nat) None "" "" (VStruct [VSlice [VInt 1]])
    (textElement (mkStart (Examples.plain "x") []) "abc" (Examples.plain "x")
     ++ textElement (mkStart (Examples.plain "y") []) "2" (Examples.plain "y")
     ++ Examples.close "root" :: [Examples.open "z"])
  = decodeStructLoop Examples.noEncoder Examples.emptyContext 2 Examples.AnyInts
      None None (Some 0%nat) None "" "" (VStruct [VSlice [VInt 1]]) [Examples.open "z"].
Proof.
  destruct (any_slice_swallows_errors Examples.noEncoder Examples.emptyContext 1
              Examples.AnyInts 0 (Field "Items" ",any" (TSlice (TInt WNative)))
              None None None "" "" (VStruct [VSlice [VInt 1]])
              (mkStart (Examples.plain "x") [])
              (textElement (mkStart (Examples.plain "y") []) "2" (Examples.plain "y"))
              (Examples.plain "x") (Examples.plain "root") [Examples.open "z"]
              eq_refl eq_refl eq_refl eq_refl) as [_ H].
  apply (H WNative "abc" eq_refl eq_refl).
Defined.

(** ** Children of a path parent *)

Lemma pathPass_idle (d : Decoder)
    (dec : GoType -> Value -> StartElement -> list Read -> Out)
    (t : GoType) (start : StartElement) (pfs : list pathFieldInfo) :
  forall (k : nat) (st0 : PathPass),
    (forall j pf, pfs !! j = Some pf -> awaits d start (ppFound st0) (k + j) pf = false) ->
    pathPass d dec t start k pfs st0 = st0.
Proof.
  induction pfs as [|pf pfs IH]; intros k st0 H; [done|].
  assert (Htl : forall j q, pfs !! j = Some q ->
                            awaits d start (ppFound st0) (S k + j) q = false).
  { intros j q Hq. specialize (H (S j) q Hq). by rewrite Nat.add_succ_r in H. }
  specialize (H 0%nat pf eq_refl). rewrite Nat.add_0_r in H. unfold awaits in H.
  cbn [pathPass].
  destruct (default false (ppFound st0 !! k)); [by apply IH|].
  cbn [negb andb] in H.
  destruct (length (Strings.Split (pfTag pf) gt) <? 2)%nat eqn:Hlen; [by apply IH|].
  assert (Hle : (2 <=? length (Strings.Split (pfTag pf) gt))%nat = true).
  { apply Nat.leb_le. apply Nat.ltb_ge in Hlen. lia. }
  rewrite Hle in H. cbn [andb] in H. rewrite H. by apply IH.
Qed.

(** X6. Inside the parent element of a group of path fields, a child
    that no field of the group still waits for is skipped as a whole:
    one whose name matches the next segment of no field, and also one
    that matches a field that has been filled already. Each path field
    is filled at most once per parent element. *)
Theorem path_group_skips_what_no_field_awaits (E : XmlEncoder) (d : Decoder)
    (fuel : nat) (t : GoType) (pfs : list pathFieldInfo) (found : list bool) (v : Value)
    (st : StartElement) (sub : list Read) (n : Name) (r : list Read) :
  (forall i pf, pfs !! i = Some pf -> awaits d st found i pf = false) ->
  isContent sub ->
  decodeMultiplePathFields E d (S fuel) t pfs found v
    (Tok (TStart st) :: sub ++ Tok (TEnd n) :: r)
  = decodeMultiplePathFields E d fuel t pfs found v r.
Proof.
  intros Hidle Hsub. rewrite decodeMultiplePathFields_S.
  unfold decodeMultiplePathFieldsBody.
  rewrite pathPass_idle by done.
  cbn [ppErr ppMatching ppMatchedAny ppRest ppVal ppFound length Nat.ltb Nat.leb negb].
  by rewrite Skip_content.
Qed.

Lemma path_group_skips_what_no_field_awaits_witness :
  decodeMultiplePathFields Examples.noEncoder Examples.emptyContext 2 Examples.Product
    [mkPath 2 "identifier>id"] [true] (zero Examples.Product)
    (Tok (TStart (mkStart (Examples.plain "id") []))
     :: [Examples.text "again"] ++ Examples.close "id" :: [Examples.close "identifier"])
  = ok (zero Examples.Product) [].
Proof.
  refine (eq_trans
            (path_group_skips_what_no_field_awaits Examples.noEncoder
               Examples.emptyContext 1 Examples.Product [mkPath 2 "identifier>id"] [true]
               (zero Examples.Product) (mkStart (Examples.plain "id") [])
               [Examples.text "again"] (Examples.plain "id")
               [Examples.close "identifier"] _ _) _).
  - intros [|i] pf Hpf; [|done]. by injection Hpf as <-.
  - reflexivity.
  - reflexivity.
Defined.

(** ** Paths come before plain fields *)

Lemma pathFieldMatches_spec (d : Decoder) (start : StartElement) (f : StructField) :
  pathFieldMatches d start f
  = Strings.Contains (tagName f) ">" && fieldMatchesElement d start f.
Proof.
  unfold pathFieldMatches, fieldMatchesElement, tagName.
  destruct (String.eqb (FTag f) "" || String.eqb (FTag f) "-"); [by rewrite andb_false_r|].
  destruct (Strings.HasPrefix (nth 0 (Strings.Split (FTag f) comma) "") "xmlns").
  { rewrite !orb_true_r. by repeat case_match; rewrite ?andb_false_r. }
  rewrite !orb_false_r.
  destruct ((1 <? length (Strings.Split (FTag f) comma))%nat
            && (String.eqb (nth 1 (Strings.Split (FTag f) comma) "") "attr"
                || String.eqb (nth 1 (Strings.Split (FTag f) comma) "") "chardata"));
    [by rewrite andb_false_r|].
  destruct (Strings.Contains (FTag f) "attr"); [by rewrite andb_false_r|].
  by destruct (Strings.Contains (nth 0 (Strings.Split (FTag f) comma) "") ">").
Qed.

Lemma pathFieldsFrom_nil (d : Decoder) (start : StartElement) (fs : list StructField) :
  forall k, pathFieldsFrom d start k fs = [] ->
            forall j f, fs !! j = Some f -> pathFieldMatches d start f = false.
Proof.
  induction fs as [|g fs IH]; intros k H j f Hf; [done|].
  cbn [pathFieldsFrom] in H. apply app_eq_nil in H as [Hg Hfs].
  destruct j as [|j]; cbn in Hf.
  - injection Hf as <-. by destruct (pathFieldMatches d start g).
  - by apply (IH (S k) Hfs j).
Qed.

Lemma pathFieldsFrom_nonempty (d : Decoder) (start : StartElement) (fs : list StructField) :
  forall k j f, fs !! j = Some f -> pathFieldMatches d start f = true ->
                (0 <? length (pathFieldsFrom d start k fs))%nat = true.
Proof.
  intros k j f Hf Hm. apply Nat.ltb_lt.
  destruct (pathFieldsFrom d start k fs) eqn:Hnil; [|cbn; lia].
  by rewrite (pathFieldsFrom_nil d start fs k Hnil j f Hf) in Hm.
Qed.

(** X7. An element that heads the path of some field is handed to the
    group of path fields, whatever plain field matches it as well and
    wherever that field is declared. A field heads a path exactly when
    the plain lookup would take it and its name holds a [>]; so the
    plain lookup, reached only when no path starts with the element,
    returns a field without a path, matched under its whole name. *)
Theorem path_heads_go_to_the_path_group (E : XmlEncoder) (d : Decoder) (t : GoType)
    (st : StartElement) :
  (forall f, pathFieldMatches d st f
             = Strings.Contains (tagName f) ">" && fieldMatchesElement d st f) /\
  (forall i, findAllPathFieldsWithPrefix d t st = [] ->
             findFieldWithTag d t st = Some i ->
             exists f, fieldsOf t !! i = Some f
                       /\ Strings.Contains (tagName f) ">" = false
                       /\ matchesField d (tagName f) (Local (EName st)) (Space (EName st))
                          = true) /\
  (forall j g, fieldsOf t !! j = Some g -> pathFieldMatches d st g = true ->
     forall fuel cf cdf af cmf cd cm v r,
       decodeStructLoop E d (S fuel) t cf cdf af cmf cd cm v (Tok (TStart st) :: r)
       = (let pathFields := findAllPathFieldsWithPrefix d t st in
          let o := decodeMultiplePathFields E d fuel t pathFields
                     (replicate (length pathFields) false) v r in
          match err o with
          | Some _ => o
          | None => decodeStructLoop E d fuel t cf cdf af cmf cd cm (val o) (rest o)
          end)).
Proof.
  split; [apply pathFieldMatches_spec|]. split.
  - intros i Hnil Hfind. apply findFieldWithTag_Some in Hfind as (f & Hf & Hm).
    exists f. split; [done|].
    pose proof (pathFieldsFrom_nil d st (fieldsOf t) 0 Hnil i f Hf) as Hp.
    rewrite pathFieldMatches_spec, Hm, andb_true_r in Hp. split; [done|].
    unfold fieldMatchesElement in Hm. unfold tagName in Hp |- *.
    repeat case_match; try done.
  - intros j g Hg Hm fuel cf cdf af cmf cd cm v r.
    rewrite decodeStructLoop_S. unfold decodeStructLoopBody.
    unfold findAllPathFieldsWithPrefix.
    by rewrite (pathFieldsFrom_nonempty d st (fieldsOf t) 0 j g Hg Hm).
Qed.

Lemma path_heads_go_to_the_path_group_witness :
  (exists f, fieldsOf Examples.Product !! 1%nat = Some f
             /\ Strings.Contains (tagName f) ">" = false
             /\ matchesField Examples.emptyContext (tagName f) "name" "" = true) /\
  decodeStructLoop Examples.noEncoder Examples.emptyContext 6 Examples.Product
    None None None None "" "" (zero Examples.Product)
    [Examples.open "details"; Examples.open "identifier"; Examples.open "id";
     Examples.text "7"; Examples.close "id"; Examples.close "identifier";
     Examples.close "details"; Examples.close "product"]
  = ok (VStruct [nameValue (mkName "" ""); VString ""; VString "7"; VString ""]) [].
Proof.
  split.
  - destruct (path_heads_go_to_the_path_group Examples.noEncoder Examples.emptyContext
                Examples.Product (mkStart (Examples.plain "name") [])) as (_ & H & _).
    apply (H 1%nat eq_refl eq_refl).
  - destruct (path_heads_go_to_the_path_group Examples.noEncoder Examples.emptyContext
                Examples.Product (mkStart (Examples.plain "details") [])) as (_ & _ & H).
    refine (eq_trans (H 2%nat (Field "ID" "details>identifier>id" TString) eq_refl eq_refl
                        5%nat None None None None "" "" (zero Examples.Product) _) _).
    reflexivity.
Defined.

(** ** Prefixed attribute names *)

(** X8. A prefixed attribute tag [p:loc] matches an attribute exactly
    when the context maps [p] to the namespace URI of the attribute and
    [loc] is its local name. An attribute written without a prefix is in
    no namespace, so such a tag takes it only under a context that maps
    [p] to the empty URI. *)
Theorem prefixed_attribute_resolution (d : Decoder) (p loc : string) (attr : Attr) :
  Strings.Contains p ":" = false ->
  (matchesAttribute d (p +:+ ":" +:+ loc) attr = true <->
   namespaces d !! p = Some (Space (AName attr)) /\ loc = Local (AName attr)) /\
  (Space (AName attr) = "" -> namespaces d !! p <> Some "" ->
   matchesAttribute d (p +:+ ":" +:+ loc) attr = false).
Proof.
  intros Hp. rewrite matchesAttribute_prefixed by done. split.
  - destruct (namespaces d !! p) as [u|].
    + rewrite andb_true_iff, !String.eqb_eq. intuition congruence.
    + intuition congruence.
  - intros Hs Hu. destruct (namespaces d !! p) as [u|]; [|done].
    destruct (String.eqb_spec u (Space (AName attr))) as [->|]; [|by rewrite andb_false_r].
    by rewrite Hs in Hu.
Qed.

Lemma prefixed_attribute_resolution_witness :
  (matchesAttribute Examples.userContext ("ns1" +:+ ":" +:+ "vis")
     (mkAttr (mkName Examples.NS_P "vis") "public") = true <->
   namespaces Examples.userContext !! "ns1" = Some Examples.NS_P /\ "vis" = "vis") /\
  matchesAttribute Examples.userContext ("ns1" +:+ ":" +:+ "vis")
    (mkAttr (mkName "" "vis") "public") = false.
Proof.
  split.
  - apply (prefixed_attribute_resolution Examples.userContext "ns1" "vis"
             (mkAttr (mkName Examples.NS_P "vis") "public") eq_refl).
  - apply (prefixed_attribute_resolution Examples.userContext "ns1" "vis"
             (mkAttr (mkName "" "vis") "public") eq_refl); [reflexivity|].
    vm_compute. discriminate.
Defined.

(** ** Blank elements and integers in range *)

Lemma TrimLeft_allSpace (s : string) : allSpace s = true -> Strings.TrimLeft s = "".
Proof.
  induction s as [|c s IH]; [done|]. cbn [allSpace Strings.TrimLeft].
  intros [Hc Hs]%andb_true_iff. rewrite Hc. by apply IH.
Qed.

Lemma TrimSpace_allSpace (s : string) : allSpace s = true -> Strings.TrimSpace s = "".
Proof. intros H. unfold Strings.TrimSpace. by rewrite TrimLeft_allSpace. Qed.

(** X9. An element without text, or with white space only, gives the
    empty string to a string target and [false] to a bool target, also
    over a value that was there before; for an integer target, signed
    or unsigned, it is a parse error and the target is left as it was.
    The same holds for an empty attribute value. *)
Theorem blank_element_is_zero_or_an_error (E : XmlEncoder) (d : Decoder) (fuel : nat)
    (w : Width) (v : Value) (start : StartElement) (chunks : list string) (n : Name)
    (r : list Read) :
  allSpace (concatChunks chunks) = true ->
  let reads := (charData chunks ++ Tok (TEnd n) :: r)%list in
  decodeElement E d (S fuel) TString v start reads = ok (VString "") r /\
  decodeElement E d (S fuel) TBool v start reads = ok (VBool false) r /\
  decodeElement E d (S fuel) (TInt w) v start reads = failed v r (ParseIntError "") /\
  decodeElement E d (S fuel) (TUint w) v start reads = failed v r (ParseUintError "") /\
  setFieldValue TString v "" = (VString "", None) /\
  setFieldValue TBool v "" = (VBool false, None) /\
  setFieldValue (TInt w) v "" = (v, Some (ParseIntError "")) /\
  setFieldValue (TUint w) v "" = (v, Some (ParseUintError "")).
Proof.
  intros Hblank reads. subst reads. rewrite !decodeElement_S.
  cbn [decodeElementBody setFieldValue].
  unfold decodeString, decodeBool, decodeInt, decodeUint.
  rewrite !readText_charData, !append_nil_l, !TrimSpace_allSpace by done.
  by repeat split.
Qed.

Lemma blank_element_is_zero_or_an_error_witness :
  decodeElement Examples.noEncoder Examples.emptyContext 1 TString (VString "old")
    (mkStart (Examples.plain "s") [])
    (charData [" "; String "010" ""] ++ [Examples.close "s"])
  = ok (VString "") [] /\
  decodeElement Examples.noEncoder Examples.emptyContext 1 (TInt W32) (VInt 5)
    (mkStart (Examples.plain "n") []) (charData [] ++ [Examples.close "n"])
  = failed (VInt 5) [] (ParseIntError "").
Proof.
  split.
  - apply (blank_element_is_zero_or_an_error Examples.noEncoder Examples.emptyContext 0
             W8 (VString "old") (mkStart (Examples.plain "s") [])
             [" "; String "010" ""] (Examples.plain "s") [] eq_refl).
  - apply (blank_element_is_zero_or_an_error Examples.noEncoder Examples.emptyContext 0
             W32 (VInt 5) (mkStart (Examples.plain "n") []) [] (Examples.plain "n") []
             eq_refl).
Defined.

Lemma digit_range (c : ascii) (k : Z) : Strconv.digit c = Some k -> 0 <= k <= 9.
Proof.
  unfold Strconv.digit. destruct (_ && _) eqn:H; [|done].
  apply andb_true_iff in H as [H1 H2]. apply Nat.leb_le in H1, H2.
  intros [= <-]. lia.
Qed.

Lemma digits_nonneg (s : string) :
  forall acc n, 0 <= acc -> Strconv.digits s acc = Some n -> 0 <= n.
Proof.
  induction s as [|c s IH]; intros acc n Hacc H; cbn [Strconv.digits] in H.
  - by injection H as <-.
  - destruct (Strconv.digit c) as [k|] eqn:Hk; [|done].
    apply digit_range in Hk. apply (IH (10 * acc + k)); [lia|done].
Qed.

Lemma ParseUint_range (s : string) (n : Z) :
  Strconv.ParseUint s = Some n -> 0 <= n < 2 ^ 64.
Proof.
  unfold Strconv.ParseUint. destruct s as [|c s]; [done|].
  destruct (Strconv.digits _ 0) as [m|] eqn:Hm; [|done].
  destruct (Z.ltb_spec m (2 ^ 64)); [|done]. intros [= <-].
  split; [|done]. by apply (digits_nonneg (String c s) 0 m).
Qed.

Lemma ParseInt_range (s : string) (i : Z) :
  Strconv.ParseInt s = Some i -> - 2 ^ 63 <= i < 2 ^ 63.
Proof.
  unfold Strconv.ParseInt. destruct s as [|c s]; [done|].
  set (body := if Ascii.eqb c "+" || Ascii.eqb c "-" then s else String c s).
  destruct body as [|c' body'] eqn:Hbody; [done|].
  destruct (Strconv.digits _ 0) as [un|] eqn:Hun; [|done].
  apply (digits_nonneg _ 0 un) in Hun; [|done].
  destruct (Ascii.eqb c "-"); cbn [negb andb].
  - destruct (Z.ltb_spec (2 ^ 63) un); [done|]. intros [= <-]. lia.
  - destruct (Z.leb_spec (2 ^ 63) un); [done|]. intros [= <-]. lia.
Qed.

Lemma wrapInt_id (w : Width) (i : Z) : inIntRange w i -> wrapInt w i = i.
Proof.
  unfold inIntRange, wrapInt. intros H.
  assert (Hpow : 2 ^ bits w = 2 * 2 ^ (bits w - 1)) by (destruct w; reflexivity).
  rewrite Z.mod_small by lia. lia.
Qed.

Lemma wrapUint_id (w : Width) (i : Z) : inUintRange w i -> wrapUint w i = i.
Proof. unfold inUintRange, wrapUint. intros H. by rewrite Z.mod_small. Qed.

(** X10. An integer text whose value is in the range of the target is
    stored as it was parsed, from element text and from an attribute
    value; every text that parses at all is in the range of a 64-bit
    target, so no value is ever changed on the way into [int64],
    [uint64], [int] or [uint]. *)
Theorem integers_in_range_are_stored_exactly (E : XmlEncoder) (d : Decoder) (fuel : nat)
    (w : Width) (txt : string) (i : Z) (v : Value) (start : StartElement) (n : Name)
    (r : list Read) :
  (Strconv.ParseInt (Strings.TrimSpace txt) = Some i -> inIntRange w i ->
   decodeElement E d (S fuel) (TInt w) v start (Tok (TCharData txt) :: Tok (TEnd n) :: r)
     = ok (VInt i) r) /\
  (Strconv.ParseUint (Strings.TrimSpace txt) = Some i -> inUintRange w i ->
   decodeElement E d (S fuel) (TUint w) v start (Tok (TCharData txt) :: Tok (TEnd n) :: r)
     = ok (VUint i) r) /\
  (Strconv.ParseInt txt = Some i -> inIntRange w i ->
   setFieldValue (TInt w) v txt = (VInt i, None)) /\
  (Strconv.ParseUint txt = Some i -> inUintRange w i ->
   setFieldValue (TUint w) v txt = (VUint i, None)) /\
  (bits w = 64 -> Strconv.ParseInt txt = Some i -> inIntRange w i) /\
  (bits w = 64 -> Strconv.ParseUint txt = Some i -> inUintRange w i).
Proof.
  split; [|split; [|split; [|split; [|split]]]].
  - intros Hp Hr. rewrite decodeElement_S. unfold decodeElementBody, decodeInt.
    cbn [readText]. by rewrite append_nil_l, Hp, wrapInt_id.
  - intros Hp Hr. rewrite decodeElement_S. unfold decodeElementBody, decodeUint.
    cbn [readText]. by rewrite append_nil_l, Hp, wrapUint_id.
  - intros Hp Hr. cbn [setFieldValue]. by rewrite Hp, wrapInt_id.
  - intros Hp Hr. cbn [setFieldValue]. by rewrite Hp, wrapUint_id.
  - intros Hw Hp. unfold inIntRange. rewrite Hw. by apply ParseInt_range in Hp.
  - intros Hw Hp. unfold inUintRange. rewrite Hw. by apply ParseUint_range in Hp.
Qed.

Lemma integers_in_range_are_stored_exactly_witness :
  decodeElement Examples.noEncoder Examples.emptyContext 1 (TInt W8) (VInt 0)
    (mkStart (Examples.plain "n") []) [Examples.text " -128 "; Examples.close "n"]
  = ok (VInt (-128)) [] /\
  setFieldValue (TUint W16) (VUint 0) "65535" = (VUint 65535, None) /\
  inIntRange W64 (-9223372036854775808).
Proof.
  destruct (integers_in_range_are_stored_exactly Examples.noEncoder Examples.emptyContext
              0 W8 " -128 " (-128) (VInt 0) (mkStart (Examples.plain "n") [])
              (Examples.plain "n") []) as (H1 & _).
  destruct (integers_in_range_are_stored_exactly Examples.noEncoder Examples.emptyContext
              0 W16 "65535" 65535 (VUint 0) (mkStart (Examples.plain "n") [])
              (Examples.plain "n") []) as (_ & _ & _ & H4 & _).
  destruct (integers_in_range_are_stored_exactly Examples.noEncoder Examples.emptyContext
              0 W64 "-9223372036854775808" (-9223372036854775808) (VInt 0)
              (mkStart (Examples.plain "n") []) (Examples.plain "n") [])
    as (_ & _ & _ & _ & H5 & _).
  split; [apply H1; [reflexivity|unfold inIntRange; cbn; lia]|].
  split; [apply H4; [reflexivity|unfold inUintRange; cbn; lia]|].
  apply H5; reflexivity.
Defined.

(** ** The raw capture of an ,innerxml record *)

Lemma innerXMLLoop_content (E : XmlEncoder) (sub : list Read) (n : Name) (r : list Read) :
  forall (enc enc' : EncState E) (k k' : nat),
    nesting k sub = Some k' ->
    encodeAll E enc (tokensOf sub) = inl enc' ->
    innerXMLLoop E enc k (sub ++ Tok (TEnd n) :: r)
    = innerXMLLoop E enc' k' (Tok (TEnd n) :: r).
Proof.
  induction sub as [|[[st|nm|data|data|tg inst|data]|msg] sub IH];
    intros enc enc' k k' Hn Henc; cbn [nesting tokensOf encodeAll] in Hn, Henc;
    cbn [app innerXMLLoop]; try done;
    try (destruct (EncodeToken E enc _) as [enc1|e]; [by eapply IH|done]).
  - injection Hn as <-. by injection Henc as <-.
  - destruct k as [|k]; [done|].
    destruct (EncodeToken E enc _) as [enc1|e]; [by eapply IH|done].
Qed.

(** X11. In a record with an ,innerxml field the children are not
    decoded into fields: after the XMLName and attribute writes, every
    token of the content, nested elements with their end elements
    included, is handed to the encoder in document order, and at the
    end element that closes the frame the encoder's output is stored in
    the ,innerxml field (a string or a byte slice; a field of another
    kind is left alone). *)
Theorem innerxml_captures_the_content (E : XmlEncoder) (d : Decoder) (fuel : nat)
    (t : GoType) (i : nat) (v v2 : Value) (st : StartElement) (sub : list Read)
    (enc' : EncState E) (n : Name) (r : list Read) :
  findInnerXMLField t = Some i ->
  decodeAttributes d t (setXMLName t v st) (EAttr st) = (v2, None) ->
  isContent sub ->
  encodeAll E (NewEncoder E) (tokensOf sub) = inl enc' ->
  decodeStruct E d (S fuel) t v st (sub ++ Tok (TEnd n) :: r)
    = ok (setInnerXML t v2 i (Flushed E enc')) r /\
  (forall j, j <> i ->
     getField (val (decodeStruct E d (S fuel) t v st (sub ++ Tok (TEnd n) :: r))) j
     = getField v2 j).
Proof.
  intros Hi Hattr Hsub Henc.
  assert (Heq : decodeStruct E d (S fuel) t v st (sub ++ Tok (TEnd n) :: r)
                = ok (setInnerXML t v2 i (Flushed E enc')) r).
  { rewrite decodeStruct_S. unfold decodeStructBody. rewrite Hattr, Hi.
    by rewrite (innerXMLLoop_content E sub n r _ enc' 0 0 Hsub Henc). }
  split; [done|]. intros j Hj. rewrite Heq. cbn [ok val].
  by apply setInnerXML_other.
Qed.

Lemma innerxml_captures_the_content_witness :
  decodeStruct Samples.sketchEncoder Examples.emptyContext 1 Samples.Document
    (zero Samples.Document)
    (mkStart (Examples.plain "document") [mkAttr (Examples.plain "id") "doc-001"])
    (Samples.documentContent ++ [Examples.close "document"; Examples.open "next"])
  = ok (VStruct [VString "doc-001"; VString "";
                 VString "<title>Test</title><content><data>value</data></content>"])
       [Examples.open "next"].
Proof.
  destruct (innerxml_captures_the_content Samples.sketchEncoder Examples.emptyContext 0
              Samples.Document 2 (zero Samples.Document)
              (VStruct [VString "doc-001"; VString ""; VString ""])
              (mkStart (Examples.plain "document") [mkAttr (Examples.plain "id") "doc-001"])
              Samples.documentContent
              "<title>Test</title><content><data>value</data></content>"
              (Examples.plain "document") [Examples.open "next"]
              eq_refl eq_refl eq_refl eq_refl) as [H _].
  exact H.
Defined.

(** ** Slices keep the order of the document *)

Lemma decodeElement_string_slice (E : XmlEncoder) (d : Decoder) (fuel : nat)
    (old : list Value) (st : StartElement) (txt : string) (n : Name) (r : list Read) :
  decodeElement E d (S (S fuel)) (TSlice TString) (VSlice old) st
    (Tok (TCharData txt) :: Tok (TEnd n) :: r)
  = ok (VSlice (old ++ [VString (Strings.TrimSpace txt)])) r.
Proof.
  rewrite decodeElement_S. cbn [decodeElementBody]. rewrite decodeElement_S.
  cbn [decodeElementBody]. unfold decodeString. cbn [readText].
  by rewrite append_nil_l.
Qed.

(** X12. A slice field takes every element that matches it: a run of
    matching elements appends one item each to the items the slice had
    before, in the order of the document, here for a slice of strings,
    each item the trimmed text of its element. *)
Theorem slice_field_keeps_document_order (E : XmlEncoder) (d : Decoder) (fuel : nat)
    (t : GoType) (i : nat) (f : StructField) (cf cdf af cmf : option nat)
    (cd cm : string) (st : StartElement) (n : Name) (texts : list string)
    (r : list Read) :
  findAllPathFieldsWithPrefix d t st = [] ->
  findFieldWithTag d t st = Some i ->
  fieldsOf t !! i = Some f ->
  FType f = TSlice TString ->
  forall (fs : list Value) (old : list Value),
    fs !! i = Some (VSlice old) ->
    decodeStructLoop E d (length texts + S (S (S fuel))) t cf cdf af cmf cd cm (VStruct fs)
      (concat (map (fun txt => textElement st txt n) texts) ++ r)
    = decodeStructLoop E d (S (S (S fuel))) t cf cdf af cmf cd cm
        (VStruct (<[i := VSlice (old ++ map (fun txt => VString (Strings.TrimSpace txt))
                                          texts)]> fs)) r.
Proof.
  intros Hpath Hfield Hf Hty. pose proof (field_type t i f Hf) as Hft.
  induction texts as [|txt texts IH]; intros fs old Hold.
  - cbn [length Nat.add map concat app]. rewrite app_nil_r. by rewrite list_insert_id.
  - cbn [length Nat.add map concat]. unfold textElement at 1. cbn [app].
    rewrite decodeStructLoop_S. unfold decodeStructLoopBody.
    rewrite Hpath, Hfield, Hft, Hty. cbn [length Nat.ltb Nat.leb getField].
    rewrite Hold. cbn [default from_option id].
    replace (length texts + S (S (S fuel)))%nat
      with (S (S (length texts + S fuel))) by lia.
    rewrite decodeElement_string_slice. cbn [ok err val rest setField].
    replace (S (S (length texts + S fuel)))
      with (length texts + S (S (S fuel)))%nat by lia.
    rewrite (IH _ (old ++ [VString (Strings.TrimSpace txt)])%list).
    + by rewrite list_insert_insert_eq, <- app_assoc.
    + apply list_lookup_insert_eq. by apply lookup_lt_Some in Hold.
Qed.

Lemma slice_field_keeps_document_order_witness :
  decodeStructLoop Examples.noEncoder Examples.emptyContext 6 Examples.Basket
    None None None None "" "" (VStruct [VSlice [VString "a"]])
    (concat (map (fun txt => textElement (mkStart (Examples.plain "item") []) txt
                               (Examples.plain "item")) [" b"; "c "; "d"])
     ++ [Examples.close "basket"])
  = ok (VStruct [VSlice [VString "a"; VString "b"; VString "c"; VString "d"]]) [].
Proof.
  refine (eq_trans
            (slice_field_keeps_document_order Examples.noEncoder Examples.emptyContext 0
               Examples.Basket 0 (Field "Items" "item" (TSlice TString))
               None None None None "" "" (mkStart (Examples.plain "item") [])
               (Examples.plain "item") [" b"; "c "; "d"] [Examples.close "basket"]
               eq_refl eq_refl eq_refl eq_refl [VSlice [VString "a"]] [VString "a"]
               eq_refl) _).
  reflexivity.
Defined.

(** ** [Decode] returns *)

(** X13. [Decode] returns on every token stream: its nested calls and
    loop iterations stay within the nesting depth of the target type
    times the length of the stream (plus three), it gives the same
    result with every larger allowance, and it only consumes: what it
    leaves unread is no longer than the stream. *)
Theorem Decode_returns (E : XmlEncoder) (d : Decoder) (fuel : nat) (t : GoType)
    (v : Value) (s : list Read) :
  (fuelFor t s <= fuel)%nat ->
  err (Decode E d fuel t v s) <> Some OutOfFuel /\
  Decode E d fuel t v s = Decode E d (fuelFor t s) t v s /\
  (length (rest (Decode E d fuel t v s)) <= length s)%nat.
Proof.
  intros Hf. destruct (Decode_enough_fuel E d fuel t v s Hf) as [He Heq].
  split; [done|]. split; [done|]. rewrite Heq. unfold Decode.
  destruct t; try done. destruct v as [| | | | |[x|]| |]; try done.
  pose proof (readRoot_length s) as Hlen.
  destruct (readRoot s) as [st r| |msg r]; cbn [ok failed rest length]; try lia.
  assert (Hr : (fuelFor t r <= fuelFor (TPtr t) s)%nat).
  { unfold fuelFor. cbn [depth]. nia. }
  destruct (enough_fuel E d (fuelFor (TPtr t) s)) as [Hel _].
  destruct (Hel t x st r Hr) as [Hle _]. lia.
Qed.

Lemma Decode_returns_witness :
  err (Decode Examples.noEncoder Examples.userContext 100 (TPtr Examples.UserRecord)
         (VPtr (Some (zero Examples.UserRecord))) Examples.userDoc1) <> Some OutOfFuel /\
  Decode Examples.noEncoder Examples.userContext 100 (TPtr Examples.UserRecord)
    (VPtr (Some (zero Examples.UserRecord))) Examples.userDoc1
  = Decode Examples.noEncoder Examples.userContext
      (fuelFor (TPtr Examples.UserRecord) Examples.userDoc1) (TPtr Examples.UserRecord)
      (VPtr (Some (zero Examples.UserRecord))) Examples.userDoc1 /\
  (length (rest (Decode Examples.noEncoder Examples.userContext 100
                   (TPtr Examples.UserRecord) (VPtr (Some (zero Examples.UserRecord)))
                   Examples.userDoc1)) <= length Examples.userDoc1)%nat.
Proof.
  apply (Decode_returns Examples.noEncoder Examples.userContext 100
           (TPtr Examples.UserRecord)). vm_compute. lia.
Defined.

(** ** The decoder reads forward *)

Lemma Skip_suffix (s : list Read) : forall n, (Skip n s).1 `suffix_of` s.
Proof.
  induction s as [|[[st|nm|data|data|tg inst|data]|msg] s IH]; intros n;
    cbn [Skip fst]; try done; try (apply suffix_cons_r, IH).
  - destruct n; [by apply suffix_cons_r|apply suffix_cons_r, IH].
  - by apply suffix_cons_r.
Qed.

Lemma readText_suffix (s : list Read) :
  forall acc,
    match readText acc s with
    | TextEnd _ r | TextErr _ r => r `suffix_of` s
    | TextEOF => True
    end.
Proof.
  induction s as [|[[st|nm|data|data|tg inst|data]|msg] s IH]; intros acc;
    cbn [readText]; try done; try (by apply suffix_cons_r);
    match goal with |- context [readText ?a s] => specialize (IH a) end;
    destruct (readText _ s); try done; by apply suffix_cons_r.
Qed.

Lemma decodeString_suffix (v : Value) (s : list Read) : rest (decodeString v s) `suffix_of` s.
Proof.
  unfold decodeString. pose proof (readText_suffix s "") as H.
  destruct (readText "" s); cbn; (done || apply suffix_nil).
Qed.

Lemma decodeBool_suffix (v : Value) (s : list Read) : rest (decodeBool v s) `suffix_of` s.
Proof.
  unfold decodeBool. pose proof (readText_suffix s "") as H.
  destruct (readText "" s); cbn; (done || apply suffix_nil).
Qed.

Lemma decodeInt_suffix (w : Width) (v : Value) (s : list Read) :
  rest (decodeInt w v s) `suffix_of` s.
Proof.
  unfold decodeInt. pose proof (readText_suffix s "") as H.
  destruct (readText "" s); try (cbn; (done || apply suffix_nil)).
  by destruct (Strconv.ParseInt _).
Qed.

Lemma decodeUint_suffix (w : Width) (v : Value) (s : list Read) :
  rest (decodeUint w v s) `suffix_of` s.
Proof.
  unfold decodeUint. pose proof (readText_suffix s "") as H.
  destruct (readText "" s); try (cbn; (done || apply suffix_nil)).
  by destruct (Strconv.ParseUint _).
Qed.

Section Forward.

Variable E : XmlEncoder.
Variable d : Decoder.

Lemma innerXMLLoop_suffix (s : list Read) :
  forall enc n,
    match innerXMLLoop E enc n s with
    | InnerEnd _ r | InnerErr _ r => r `suffix_of` s
    | InnerEOF => True
    end.
Proof.
  induction s as [|[[st|nm|data|data|tg inst|data]|msg] s IH]; intros enc n;
    cbn [innerXMLLoop]; try done; try (by apply suffix_cons_r).
  all: try (destruct n; [by apply suffix_cons_r|]).
  all: destruct (EncodeToken E enc _) as [enc'|e]; try (by apply suffix_cons_r).
  all: match goal with |- context [innerXMLLoop E ?a ?b _] => specialize (IH a b) end.
  all: destruct (innerXMLLoop E _ _ _); try done; by apply suffix_cons_r.
Qed.

Lemma pathPass_suffix
    (dec : GoType -> Value -> StartElement -> list Read -> Out)
    (t : GoType) (start : StartElement) (pfs : list pathFieldInfo) :
  (forall t' v st s, rest (dec t' v st s) `suffix_of` s) ->
  forall k st0, ppRest (pathPass d dec t start k pfs st0) `suffix_of` ppRest st0.
Proof.
  intros Hdec. induction pfs as [|pf pfs IH]; intros k st0; [done|].
  cbn [pathPass].
  destruct (default false (ppFound st0 !! k)); [by apply IH|].
  destruct (length (Strings.Split (pfTag pf) gt) <? 2)%nat; [by apply IH|].
  destruct (matchesField d _ _ _); [|by apply IH].
  destruct (length (Strings.Split (pfTag pf) gt) =? 2)%nat.
  - destruct (err (dec _ _ _ _)) as [e|]; cbn [ppRest]; [apply Hdec|].
    etrans; [apply IH|]. cbn [ppRest]. apply Hdec.
  - etrans; [apply IH|]. done.
Qed.

Lemma decodeAnyElement_suffix
    (dec : GoType -> Value -> StartElement -> list Read -> Out)
    (t : GoType) (v : Value) (start : StartElement) (s : list Read) :
  (forall t' v' st s', rest (dec t' v' st s') `suffix_of` s') ->
  rest (decodeAnyElement dec t v start s) `suffix_of` s.
Proof.
  intros Hdec. unfold decodeAnyElement.
  destruct t; try apply Hdec.
  destruct (err (dec t (zero t) start s)) as [e0|]; [|apply Hdec].
  destruct (isReturnedError e0); [|apply Hdec].
  pose proof (Skip_suffix (rest (dec t (zero t) start s)) 0) as H.
  destruct (Skip 0 _) as [r e]. cbn [fst rest] in *. etrans; [apply H|apply Hdec].
Qed.

(** What a call leaves unread is a suffix of what it was given. *)
Lemma engine_suffix (fuel : nat) :
  (forall t v st s, rest (decodeElement E d fuel t v st s) `suffix_of` s)
  /\ (forall t v st s, rest (decodeStruct E d fuel t v st s) `suffix_of` s)
  /\ (forall t cf cdf af cmf cd cm v s,
        rest (decodeStructLoop E d fuel t cf cdf af cmf cd cm v s) `suffix_of` s)
  /\ (forall t pfs found v s,
        rest (decodeMultiplePathFields E d fuel t pfs found v s) `suffix_of` s).
Proof.
  induction fuel as [|fuel (IHel & IHstruct & IHloop & IHpath)]; [done|].
  split; [|split; [|split]].
  - intros t v st s. rewrite decodeElement_S. unfold decodeElementBody.
    destruct t; try done.
    + apply decodeString_suffix.
    + apply decodeBool_suffix.
    + apply decodeInt_suffix.
    + apply decodeUint_suffix.
    + apply IHel.
    + destruct (err (decodeElement E d fuel t (zero t) st s)); apply IHel.
  - intros t v st s. rewrite decodeStruct_S. unfold decodeStructBody.
    destruct (decodeAttributes d t (setXMLName t v st) (EAttr st)) as [v2 [e|]]; [done|].
    destruct (findInnerXMLField t); [|apply IHloop].
    pose proof (innerXMLLoop_suffix s (NewEncoder E) 0) as H.
    destruct (innerXMLLoop E (NewEncoder E) 0 s); cbn; (done || apply suffix_nil).
  - intros t cf cdf af cmf cd cm v s. rewrite decodeStructLoop_S.
    unfold decodeStructLoopBody.
    destruct s as [|[[st|n|data|data|tg inst|data]|msg] r]; try done;
      try (by apply suffix_cons_r); try (apply suffix_cons_r, IHloop).
    + apply suffix_cons_r.
      destruct (0 <? length (findAllPathFieldsWithPrefix d t st))%nat.
      * destruct (err (decodeMultiplePathFields _ _ _ _ _ _ _ _)); [apply IHpath|].
        etrans; [apply IHloop|apply IHpath].
      * destruct (findFieldWithTag d t st) as [j|].
        -- destruct (err (decodeElement _ _ _ _ _ _ _)); cbn [failed rest]; [apply IHel|].
           etrans; [apply IHloop|apply IHel].
        -- destruct af as [a|].
           ++ pose proof (decodeAnyElement_suffix (decodeElement E d fuel)
                            (default (TOther "") (FType <$> fieldsOf t !! a))
                            (getField v a) st r IHel) as H.
              destruct (err (decodeAnyElement _ _ _ _ _)); cbn [failed rest]; [done|].
              etrans; [apply IHloop|done].
           ++ pose proof (Skip_suffix r 0) as H.
              destruct (Skip 0 r) as [r' [e|]]; cbn [fst failed rest] in *; [done|].
              etrans; [apply IHloop|done].
    + destruct (endOfStruct t cf cdf cmf cd cm v) as [v' e]. by apply suffix_cons_r.
    + apply suffix_cons_r. destruct (_ || _); apply IHloop.
    + apply suffix_cons_r. destruct cmf; apply IHloop.
  - intros t pfs found v s. rewrite decodeMultiplePathFields_S.
    unfold decodeMultiplePathFieldsBody.
    destruct s as [|[[st|n|data|data|tg inst|data]|msg] r]; try done;
      try (by apply suffix_cons_r); try (apply suffix_cons_r, IHpath).
    apply suffix_cons_r.
    pose proof (pathPass_suffix (decodeElement E d fuel) t st pfs IHel 0
                  (mkPass v r found [] [] false None)) as Hp.
    cbn [ppRest] in Hp. set (p := pathPass d _ t st 0 pfs _) in *.
    destruct (ppErr p); [done|].
    destruct (0 <? length (ppMatching p))%nat.
    + destruct (err (decodeMultiplePathFields _ _ _ _ _ _ _ _)).
      * etrans; [apply IHpath|done].
      * etrans; [apply IHpath|]. etrans; [apply IHpath|done].
    + destruct (negb (ppMatchedAny p)).
      * pose proof (Skip_suffix (ppRest p) 0) as H.
        destruct (Skip 0 (ppRest p)) as [r' [e|]]; cbn [fst failed rest] in *.
        -- by etrans.
        -- etrans; [apply IHpath|]. by etrans.
      * etrans; [apply IHpath|done].
Qed.

End Forward.

Lemma absentFrom_suffix (d : Decoder) (f : StructField) (s s' : list Read) :
  s' `suffix_of` s -> absentFrom d f s = true -> absentFrom d f s' = true.
Proof.
  intros [k ->]. unfold absentFrom. rewrite forallb_app.
  by intros [_ H]%andb_true_iff.
Qed.

(** ** Fields no element of the document is for *)

Lemma setXMLName_other (t : GoType) (v : Value) (start : StartElement) (i : nat)
    (f : StructField) :
  fieldsOf t !! i = Some f -> isXMLNameField f = false ->
  getField (setXMLName t v start) i = getField v i.
Proof.
  intros Hf Hn. unfold setXMLName.
  destruct (list_find _ _) as [[k g]|] eqn:Hfind; [|done].
  apply list_find_Some in Hfind as (Hg & Hp & _).
  apply getField_setField_ne. intros ->. rewrite Hf in Hg. injection Hg as <-.
  by rewrite Hn in Hp.
Qed.

Lemma attrFieldsFrom_keeps (d : Decoder) (anyIdx : option nat) (attrs : list Attr)
    (i : nat) (fs : list StructField) :
  forall (k : nat) (v : Value) (m : gset nat),
    (forall j f, fs !! j = Some f -> (k + j)%nat = i -> attrFieldName anyIdx i f = None) ->
    getField (attrFieldsFrom d anyIdx attrs k fs v m).1.1 i = getField v i.
Proof.
  induction fs as [|f fs IH]; intros k v m Hnone; [done|].
  assert (Htl : forall j g, fs !! j = Some g -> (S k + j)%nat = i ->
                            attrFieldName anyIdx i g = None).
  { intros j g Hg Hj. apply (Hnone (S j) g); [done|lia]. }
  cbn [attrFieldsFrom].
  destruct (attrFieldName anyIdx k f) as [attrName|] eqn:Hname; [|by apply IH].
  assert (Hne : k <> i).
  { intros ->. rewrite (Hnone 0%nat f) in Hname; (done || lia). }
  destruct (list_find _ attrs) as [[attrIdx attr]|]; [|by apply IH].
  destruct (setFieldValue (FType f) (getField v k) (AValue attr)) as [x [e|]].
  - by apply getField_setField_ne.
  - rewrite IH by done. by apply getField_setField_ne.
Qed.

(** The attribute pass writes the attribute fields and the ,any,attr
    field, and no other. *)
Lemma decodeAttributes_keeps (d : Decoder) (t : GoType) (v : Value) (attrs : list Attr)
    (i : nat) (f : StructField) :
  fieldsOf t !! i = Some f ->
  attrFieldName (findByTag isAnyAttrTag t) i f = None ->
  findByTag isAnyAttrTag t <> Some i ->
  getField (decodeAttributes d t v attrs).1 i = getField v i.
Proof.
  intros Hf Hnone Hany. unfold decodeAttributes.
  pose proof (attrFieldsFrom_keeps d (findByTag isAnyAttrTag t) attrs i (fieldsOf t)
                0 v ∅) as H.
  assert (Hv : getField (attrFieldsFrom d (findByTag isAnyAttrTag t) attrs 0
                           (fieldsOf t) v ∅).1.1 i = getField v i).
  { apply H. intros j g Hg Hj. cbn in Hj. subst j. rewrite Hf in Hg. by injection Hg as <-. }
  destruct (attrFieldsFrom _ _ _ _ _ _ _) as [[v' m] [e|]]; cbn [fst] in *; [done|].
  destruct (findByTag isAnyAttrTag t) as [a|]; [|done].
  case_match; [|done]. cbn [fst]. rewrite getField_setField_ne; [done|congruence].
Qed.

Lemma path_group_keeps_field (E : XmlEncoder) (d : Decoder) (t : GoType) (i : nat)
    (fuel : nat) :
  forall pfs found v s,
    (forall pf, pf ∈ pfs -> pfField pf <> i) ->
    getField (val (decodeMultiplePathFields E d fuel t pfs found v s)) i = getField v i.
Proof.
  induction fuel as [|fuel IHpath]; [done|].
  intros pfs found v s Hpfs. rewrite decodeMultiplePathFields_S.
  unfold decodeMultiplePathFieldsBody.
  destruct s as [|[[st|n|data|data|tg inst|data]|msg] r]; try done;
    try (by apply IHpath).
  destruct (pathPass_keeps d (decodeElement E d fuel) t st i pfs 0
              (mkPass v r found [] [] false None) Hpfs) as [Hv Hm].
  { intros pf Hpf. by apply elem_of_nil in Hpf. }
  cbn [ppVal] in Hv. set (p := pathPass d _ t st 0 pfs _) in *.
  destruct (ppErr p); [done|].
  destruct (0 <? length (ppMatching p))%nat.
  - pose proof (IHpath (ppMatching p) (replicate (length (ppMatching p)) false)
                  (ppVal p) (ppRest p) Hm) as H.
    destruct (err (decodeMultiplePathFields _ _ _ _ _ _ _ _)).
    + by rewrite H.
    + rewrite IHpath by done. by rewrite H.
  - destruct (negb (ppMatchedAny p)).
    + destruct (Skip 0 (ppRest p)) as [r' [e|]]; [done|]. by rewrite IHpath.
    + by rewrite IHpath.
Qed.

Section Untouched.

Variable E : XmlEncoder.
Variable d : Decoder.
Variable t : GoType.
Variable i : nat.
Variable f : StructField.
Hypothesis Hf : fieldsOf t !! i = Some f.

Lemma absent_findFieldWithTag (st : StartElement) :
  fieldMatchesElement d st f = false -> findFieldWithTag d t st <> Some i.
Proof.
  intros Hm H. apply findFieldWithTag_Some in H as (g & Hg & Hg').
  rewrite Hf in Hg. injection Hg as <-. by rewrite Hm in Hg'.
Qed.

Lemma absent_findAllPathFieldsWithPrefix (st : StartElement) (pf : pathFieldInfo) :
  fieldMatchesElement d st f = false ->
  pf ∈ findAllPathFieldsWithPrefix d t st -> pfField pf <> i.
Proof.
  intros Hm H Heq. apply findAllPathFieldsWithPrefix_elem in H as (g & Hg & Hg').
  rewrite Heq, Hf in Hg. injection Hg as <-.
  by rewrite pathFieldMatches_spec, Hm, andb_false_r in Hg'.
Qed.

(** The record loop leaves alone a field that is none of the special
    fields and that no start element of the stream is for. *)
Lemma loop_keeps_absent_field (fuel : nat) :
  forall cf cdf af cmf cd cm v s,
    cf <> Some i -> cdf <> Some i -> af <> Some i -> cmf <> Some i ->
    absentFrom d f s = true ->
    getField (val (decodeStructLoop E d fuel t cf cdf af cmf cd cm v s)) i = getField v i.
Proof.
  induction fuel as [|fuel IHloop]; [done|].
  intros cf cdf af cmf cd cm v s Hcf Hcdf Haf Hcmf Habs.
  destruct (engine_suffix E d fuel) as (Sel & _ & _ & Spath).
  rewrite decodeStructLoop_S. unfold decodeStructLoopBody.
  destruct s as [|[[st|n|data|data|tg inst|data]|msg] r]; try done;
    cbn [absentFrom forallb] in Habs; fold (absentFrom d f r) in Habs;
    try (by apply IHloop).
  - apply andb_true_iff in Habs as [Hst Hr]. apply negb_true_iff in Hst.
    destruct (0 <? length (findAllPathFieldsWithPrefix d t st))%nat.
    + pose proof (path_group_keeps_field E d t i fuel (findAllPathFieldsWithPrefix d t st)
                    (replicate (length (findAllPathFieldsWithPrefix d t st)) false) v r
                    (fun pf => absent_findAllPathFieldsWithPrefix st pf Hst)) as H.
      pose proof (Spath t (findAllPathFieldsWithPrefix d t st)
                    (replicate (length (findAllPathFieldsWithPrefix d t st)) false) v r) as Hs.
      destruct (err (decodeMultiplePathFields _ _ _ _ _ _ _ _)); [done|].
      rewrite IHloop; [done|done|done|done|done|]. by apply (absentFrom_suffix d f r).
    + pose proof (absent_findFieldWithTag st Hst) as Hskip.
      destruct (findFieldWithTag d t st) as [j|].
      * assert (j <> i) by congruence.
        pose proof (Sel (default (TOther "") (FType <$> fieldsOf t !! j))
                      (getField v j) st r) as Hs.
        destruct (err (decodeElement _ _ _ _ _ _ _)); cbn [val failed].
        -- by apply getField_setField_ne.
        -- rewrite IHloop; [by apply getField_setField_ne|done|done|done|done|].
           by apply (absentFrom_suffix d f r).
      * destruct af as [a|].
        -- assert (a <> i) by congruence.
           pose proof (decodeAnyElement_suffix (decodeElement E d fuel)
                         (default (TOther "") (FType <$> fieldsOf t !! a))
                         (getField v a) st r Sel) as Hs.
           destruct (err (decodeAnyElement _ _ _ _ _)); cbn [val failed].
           ++ by apply getField_setField_ne.
           ++ rewrite IHloop; [by apply getField_setField_ne|done|done|done|done|].
              by apply (absentFrom_suffix d f r).
        -- pose proof (Skip_suffix r 0) as Hs.
           destruct (Skip 0 r) as [r' [e|]]; cbn [fst] in Hs; [done|].
           apply IHloop; try done. by apply (absentFrom_suffix d f r).
  - pose proof (endOfStruct_keeps t cf cdf cmf cd cm v i Hcf Hcdf Hcmf) as H.
    by destruct (endOfStruct t cf cdf cmf cd cm v).
  - destruct (_ || _); by apply IHloop.
  - destruct cmf; by apply IHloop.
Qed.

End Untouched.

Lemma special_fields_skip (t : GoType) (i : nat) (f : StructField) :
  fieldsOf t !! i = Some f -> isSpecialTag (FTag f) = false ->
  findChardataField t <> Some i /\ findCDataField t <> Some i
  /\ findInnerXMLField t <> Some i /\ findAnyField t <> Some i
  /\ findCommentField t <> Some i.
Proof.
  intros Hf Hsp. unfold isSpecialTag in Hsp.
  repeat (apply orb_false_elim in Hsp as [Hsp ?]).
  repeat split; intros H'; apply findByTag_Some in H' as (g & Hg & Hp & _);
    rewrite Hf in Hg; injection Hg as <-; congruence.
Qed.

Lemma noAttr_attrFieldName (anyIdx : option nat) (i : nat) (f : StructField) :
  Strings.Contains (FTag f) "attr" = false -> attrFieldName anyIdx i f = None.
Proof.
  intros H. unfold attrFieldName. rewrite H. cbn [negb]. rewrite orb_true_r.
  by case_bool_decide.
Qed.

Lemma noAttr_not_anyAttr (t : GoType) (i : nat) (f : StructField) :
  fieldsOf t !! i = Some f -> Strings.Contains (FTag f) ",any,attr" = false ->
  findByTag isAnyAttrTag t <> Some i.
Proof.
  intros Hf H H'. apply findByTag_Some in H' as (g & Hg & Hp & _).
  rewrite Hf in Hg. injection Hg as <-. unfold isAnyAttrTag in Hp.
  by rewrite H, andb_false_r in Hp.
Qed.

(** X14. A field for an element the document does not have keeps its
    value: when no start element of the stream, at any depth, is one the
    plain lookup would hand to the field, and the field is none of the
    special fields, the children leave it as the attribute pass left
    it; a field that is no attribute field and not XMLName comes out of
    the frame exactly as the caller passed it in (a nil pointer stays
    nil, a preset default stays). *)
Theorem absent_element_leaves_field_untouched (E : XmlEncoder) (d : Decoder)
    (t : GoType) (i : nat) (f : StructField) (fuel : nat) (v : Value)
    (st : StartElement) (s : list Read) :
  fieldsOf t !! i = Some f ->
  isSpecialTag (FTag f) = false ->
  absentFrom d f s = true ->
  getField (val (decodeStruct E d (S fuel) t v st s)) i
    = getField (decodeAttributes d t (setXMLName t v st) (EAttr st)).1 i /\
  (Strings.Contains (FTag f) "attr" = false -> isXMLNameField f = false ->
   getField (val (decodeStruct E d (S fuel) t v st s)) i = getField v i).
Proof.
  intros Hf Hsp Habs.
  destruct (special_fields_skip t i f Hf Hsp) as (Hcd & Hcdata & Hinner & Hany & Hcm).
  assert (Heq : getField (val (decodeStruct E d (S fuel) t v st s)) i
                = getField (decodeAttributes d t (setXMLName t v st) (EAttr st)).1 i).
  { rewrite decodeStruct_S. unfold decodeStructBody.
    destruct (decodeAttributes d t (setXMLName t v st) (EAttr st)) as [v2 [e|]];
      cbn [fst]; [done|].
    destruct (findInnerXMLField t) as [k|].
    - destruct (innerXMLLoop E (NewEncoder E) 0 s); cbn [val ok failed]; try done.
      apply setInnerXML_other. congruence.
    - by apply (loop_keeps_absent_field E d t i f Hf fuel). }
  split; [done|]. intros Hattr Hname. rewrite Heq.
  rewrite (decodeAttributes_keeps d t _ _ i f Hf).
  - by apply (setXMLName_other t v st i f).
  - by apply noAttr_attrFieldName.
  - apply (noAttr_not_anyAttr t i f Hf).
    destruct (Strings.Contains (FTag f) ",any,attr") eqn:H; [|done].
    apply anyAttr_is_attr in H. congruence.
Qed.

Lemma absent_element_leaves_field_untouched_witness :
  getField (val (decodeStruct Examples.noEncoder Examples.userContext 5 Samples.Person
                   Samples.personBefore Samples.personStart Samples.personContent)) 4
  = VPtr None.
Proof.
  destruct (absent_element_leaves_field_untouched Examples.noEncoder Examples.userContext
              Samples.Person 4 (Field "Nick" "nick" (TPtr TString)) 4
              Samples.personBefore Samples.personStart Samples.personContent
              eq_refl eq_refl eq_refl) as [_ H].
  apply (H eq_refl eq_refl).
Defined.

(** ** Fields the decoder never writes *)

Lemma absentFrom_always (d : Decoder) (f : StructField) (s : list Read) :
  (forall st, fieldMatchesElement d st f = false) -> absentFrom d f s = true.
Proof.
  intros H. unfold absentFrom. apply forallb_forall. intros [[st| | | | |]|] _; try done.
  by rewrite H.
Qed.

Lemma unreachable_fieldMatchesElement (d : Decoder) (st : StartElement) (f : StructField) :
  FTag f = "" \/ FTag f = "-" \/ Strings.HasPrefix (tagName f) "xmlns" = true ->
  fieldMatchesElement d st f = false.
Proof.
  unfold fieldMatchesElement, tagName. intros [H|[H|H]].
  - by rewrite H.
  - by rewrite H.
  - rewrite H, !orb_true_r. by repeat case_match.
Qed.

Lemma unreachable_attrFieldName (anyIdx : option nat) (i : nat) (f : StructField) :
  FTag f = "" \/ FTag f = "-" \/ Strings.HasPrefix (tagName f) "xmlns" = true ->
  attrFieldName anyIdx i f = None.
Proof.
  unfold attrFieldName, tagName. intros [H|[H|H]].
  - rewrite H. by case_bool_decide.
  - rewrite H. by case_bool_decide.
  - rewrite H. by repeat case_match.
Qed.

(** X15. Three kinds of field are never written, whatever the document
    holds: a field without an [xml] tag (unless it is the XMLName
    field), a field tagged ["-"], and a field whose tag name starts
    with [xmlns] (unless the tag also makes it a special field or the
    ,any,attr field). Elements and attributes of that name are passed
    over, so the namespace declarations of a document never reach the
    record. *)
Theorem untagged_dash_and_xmlns_fields_are_never_written (E : XmlEncoder) (d : Decoder)
    (t : GoType) (i : nat) (f : StructField) :
  fieldsOf t !! i = Some f ->
  isXMLNameField f = false ->
  FTag f = "" \/ FTag f = "-"
  \/ (Strings.HasPrefix (tagName f) "xmlns" = true
      /\ isSpecialTag (FTag f) = false
      /\ Strings.Contains (FTag f) ",any,attr" = false) ->
  forall fuel v st s,
    getField (val (decodeStruct E d (S fuel) t v st s)) i = getField v i.
Proof.
  intros Hf Hname Hkind fuel v st s.
  assert (Hun : FTag f = "" \/ FTag f = "-"
                \/ Strings.HasPrefix (tagName f) "xmlns" = true) by tauto.
  assert (Hsp : isSpecialTag (FTag f) = false).
  { destruct Hkind as [H|[H|(_ & H & _)]]; [by rewrite H|by rewrite H|done]. }
  assert (Hany : Strings.Contains (FTag f) ",any,attr" = false).
  { destruct Hkind as [H|[H|(_ & _ & H)]]; [by rewrite H|by rewrite H|done]. }
  destruct (special_fields_skip t i f Hf Hsp) as (Hcd & Hcdata & Hinner & Hanyf & Hcm).
  assert (Hattrs : forall v' attrs, getField (decodeAttributes d t v' attrs).1 i
                                    = getField v' i).
  { intros v' attrs. apply (decodeAttributes_keeps d t v' attrs i f Hf).
    - by apply unreachable_attrFieldName.
    - by apply (noAttr_not_anyAttr t i f Hf). }
  rewrite decodeStruct_S. unfold decodeStructBody.
  specialize (Hattrs (setXMLName t v st) (EAttr st)).
  rewrite (setXMLName_other t v st i f Hf Hname) in Hattrs.
  destruct (decodeAttributes d t (setXMLName t v st) (EAttr st)) as [v2 [e|]];
    cbn [fst] in Hattrs; [done|].
  rewrite <- Hattrs.
  destruct (findInnerXMLField t) as [k|].
  - destruct (innerXMLLoop E (NewEncoder E) 0 s); cbn [val ok failed]; try done.
    apply setInnerXML_other. congruence.
  - apply (loop_keeps_absent_field E d t i f Hf fuel); try done.
    apply absentFrom_always. intros st'. by apply unreachable_fieldMatchesElement.
Qed.

Lemma untagged_dash_and_xmlns_fields_are_never_written_witness :
  let o := decodeStruct Examples.noEncoder Examples.userContext 5 Samples.Person
             Samples.personBefore Samples.personStart Samples.personContent in
  getField (val o) 1 = VString "x0" /\ getField (val o) 2 = VString "x1" /\
  getField (val o) 5 = VString "keep" /\ getField (val o) 6 = VString "kept" /\
  getField (val o) 3 = VString "Jane" /\ err o = None.
Proof.
  intros o. subst o.
  split; [|split; [|split; [|split; [|split]]]].
  - apply (untagged_dash_and_xmlns_fields_are_never_written Examples.noEncoder
             Examples.userContext Samples.Person 1 (Field "Xmlns" "xmlns,attr" TString)
             eq_refl eq_refl).
    right. right. by repeat split.
  - apply (untagged_dash_and_xmlns_fields_are_never_written Examples.noEncoder
             Examples.userContext Samples.Person 2
             (Field "XmlnsA" "xmlns:addr,attr" TString) eq_refl eq_refl).
    right. right. by repeat split.
  - apply (untagged_dash_and_xmlns_fields_are_never_written Examples.noEncoder
             Examples.userContext Samples.Person 5 (Field "Note" "" TString)
             eq_refl eq_refl). by left.
  - apply (untagged_dash_and_xmlns_fields_are_never_written Examples.noEncoder
             Examples.userContext Samples.Person 6 (Field "Skip" "-" TString)
             eq_refl eq_refl). right. by left.
  - reflexivity.
  - reflexivity.
Defined.

(** ** The ,any,attr field *)

Lemma attrFieldsFrom_hasField (d : Decoder) (anyIdx : option nat) (attrs : list Attr)
    (i : nat) (fs : list StructField) :
  forall (k : nat) (v : Value) (m : gset nat),
    hasField v i -> hasField (attrFieldsFrom d anyIdx attrs k fs v m).1.1 i.
Proof.
  induction fs as [|f fs IH]; intros k v m Hv; [done|]. cbn [attrFieldsFrom].
  destruct (attrFieldName anyIdx k f); [|by apply IH].
  destruct (list_find _ attrs) as [[ai a]|]; [|by apply IH].
  destruct (setFieldValue (FType f) (getField v k) (AValue a)) as [x [e|]]; cbn [fst].
  - by apply hasField_setField.
  - apply IH. by apply hasField_setField.
Qed.

(** The indices the second pass records: those of the first attribute
    each attribute field matches. *)
Lemma attrFieldsFrom_matched (d : Decoder) (anyIdx : option nat) (attrs : list Attr)
    (fs : list StructField) :
  forall (k : nat) (v : Value) (m : gset nat) (j : nat),
    (attrFieldsFrom d anyIdx attrs k fs v m).2 = None ->
    (j ∈ (attrFieldsFrom d anyIdx attrs k fs v m).1.2 <->
     j ∈ m \/ exists i f name x,
                fs !! i = Some f /\ attrFieldName anyIdx (k + i) f = Some name
                /\ list_find (fun a => matchesAttribute d name a = true) attrs
                   = Some (j, x)).
Proof.
  induction fs as [|f fs IH]; intros k v m j Hok.
  { cbn. split; [by left|]. intros [H|(i & f & ? & ? & H & _)]; done. }
  cbn [attrFieldsFrom] in *.
  assert (Hshift : forall M : gset nat,
            (j ∈ M \/ (exists i g name x,
                         fs !! i = Some g /\ attrFieldName anyIdx (S k + i) g = Some name
                         /\ list_find (fun a => matchesAttribute d name a = true) attrs
                            = Some (j, x)))
            -> forall P : Prop,
              (j ∈ M -> P) ->
              ((exists i g name x,
                  (f :: fs) !! i = Some g /\ attrFieldName anyIdx (k + i) g = Some name
                  /\ list_find (fun a => matchesAttribute d name a = true) attrs
                     = Some (j, x)) -> P) -> P).
  { intros M [H|(i & g & name & x & Hg & Hn & Hfind)] P HM HP; [by apply HM|].
    apply HP. exists (S i), g, name, x. by rewrite Nat.add_succ_r. }
  destruct (attrFieldName anyIdx k f) as [attrName|] eqn:Hname.
  - destruct (list_find _ attrs) as [[ai a]|] eqn:Hfind.
    + destruct (setFieldValue (FType f) (getField v k) (AValue a)) as [x [e|]]; [done|].
      rewrite IH by done. split.
      * intros H. apply (Hshift _ H).
        -- intros [->%elem_of_singleton|Hm]%elem_of_union; [|by left].
           right. exists 0%nat, f, attrName, a. by rewrite Nat.add_0_r.
        -- intros H'. by right.
      * intros [Hm|(i & g & name & y & Hg & Hn & Hy)].
        -- left. apply elem_of_union. by right.
        -- destruct i as [|i]; cbn in Hg.
           ++ injection Hg as <-. rewrite Nat.add_0_r, Hname in Hn. injection Hn as <-.
              rewrite Hfind in Hy. injection Hy as -> _.
              left. apply elem_of_union. left. by apply elem_of_singleton.
           ++ right. exists i, g, name, y. by rewrite Nat.add_succ_r in Hn.
    + rewrite IH by done. split.
      * intros H. apply (Hshift _ H); [by left|by right].
      * intros [Hm|(i & g & name & y & Hg & Hn & Hy)]; [by left|].
        destruct i as [|i]; cbn in Hg.
        -- injection Hg as <-. rewrite Nat.add_0_r, Hname in Hn. injection Hn as <-.
           by rewrite Hfind in Hy.
        -- right. exists i, g, name, y. by rewrite Nat.add_succ_r in Hn.
  - rewrite IH by done. split.
    + intros H. apply (Hshift _ H); [by left|by right].
    + intros [Hm|(i & g & name & y & Hg & Hn & Hy)]; [by left|].
      destruct i as [|i]; cbn in Hg.
      * injection Hg as <-. by rewrite Nat.add_0_r, Hname in Hn.
      * right. exists i, g, name, y. by rewrite Nat.add_succ_r in Hn.
Qed.

Lemma unmatchedFrom_elem (m : gset nat) (attrs : list Attr) :
  forall (k : nat) (x : Attr),
    x ∈ unmatchedFrom m k attrs <-> exists j, attrs !! j = Some x /\ (k + j)%nat ∉ m.
Proof.
  induction attrs as [|a attrs IH]; intros k x; cbn [unmatchedFrom].
  { split; [by intros ?%elem_of_nil|by intros (j & ? & _)]. }
  rewrite elem_of_app, IH. split.
  - intros [H|(j & Hj & Hm)].
    + case_bool_decide; [by apply elem_of_nil in H|].
      apply list_elem_of_singleton in H as ->. exists 0%nat. by rewrite Nat.add_0_r.
    + exists (S j). by rewrite Nat.add_succ_r.
  - intros ([|j] & Hj & Hm); cbn in Hj.
    + injection Hj as ->. rewrite Nat.add_0_r in Hm. left.
      rewrite bool_decide_false by done. by apply list_elem_of_singleton.
    + right. exists j. by rewrite Nat.add_succ_r in Hm.
Qed.

Lemma unmatchedFrom_sublist (m : gset nat) (attrs : list Attr) :
  forall k, unmatchedFrom m k attrs `sublist_of` attrs.
Proof.
  induction attrs as [|a attrs IH]; intros k; cbn [unmatchedFrom]; [done|].
  case_bool_decide; cbn [app].
  - by apply sublist_cons.
  - by apply sublist_skip.
Qed.

(** X16. The ,any,attr field of type [[]xml.Attr] receives the leftovers
    of the attribute pass: the attributes of the element, in document
    order, except those that were used, each as the first match of an
    attribute field. The leftovers replace what the slice held; when
    there are none the field is not written at all and keeps what it
    held. An attribute that matches no attribute field is always among
    the leftovers, namespace declarations included. *)
Theorem any_attr_field_takes_the_leftovers (d : Decoder) (t : GoType) (v v' : Value)
    (attrs : list Attr) (a : nat) (fa : StructField) :
  findByTag isAnyAttrTag t = Some a ->
  fieldsOf t !! a = Some fa ->
  FType fa = TSlice xmlAttrT ->
  hasField v a ->
  decodeAttributes d t v attrs = (v', None) ->
  exists (used : gset nat) (leftovers : list Attr),
    (forall j, j ∈ used <->
       exists i f name x,
         fieldsOf t !! i = Some f /\ attrFieldName (Some a) i f = Some name
         /\ list_find (fun y => matchesAttribute d name y = true) attrs = Some (j, x)) /\
    leftovers = unmatchedFrom used 0 attrs /\
    leftovers `sublist_of` attrs /\
    (forall x, x ∈ leftovers <-> exists j, attrs !! j = Some x /\ j ∉ used) /\
    getField v' a = match leftovers with
                    | [] => getField v a
                    | _ => VSlice (map attrValue leftovers)
                    end.
Proof.
  intros Hany Hfa Hty Hv Hdec. unfold decodeAttributes in Hdec. rewrite Hany in Hdec.
  pose proof (attrFieldsFrom_matched d (Some a) attrs (fieldsOf t) 0 v ∅) as Hm.
  pose proof (attrFieldsFrom_hasField d (Some a) attrs a (fieldsOf t) 0 v ∅ Hv) as Hhas.
  pose proof (attrFieldsFrom_keeps d (Some a) attrs a (fieldsOf t) 0 v ∅) as Hkeep.
  destruct (attrFieldsFrom d (Some a) attrs 0 (fieldsOf t) v ∅) as [[v1 used] [e|]];
    cbn [fst snd] in *; [done|].
  exists used, (unmatchedFrom used 0 attrs).
  split; [|split; [done|split; [apply unmatchedFrom_sublist|split]]].
  - intros j. rewrite (Hm j eq_refl). split.
    + intros [H|H]; [by apply elem_of_empty in H|done].
    + intros H. by right.
  - intros x. by rewrite unmatchedFrom_elem.
  - assert (Hv1 : getField v1 a = getField v a).
    { apply Hkeep. intros j g Hg Hj. cbn in Hj. subst j. unfold attrFieldName.
      by rewrite bool_decide_true. }
    rewrite Hfa in Hdec. cbn [fmap option_fmap option_map default] in Hdec.
    rewrite Hty in Hdec.
    destruct (unmatchedFrom used 0 attrs) as [|u us] eqn:Hu.
    + cbn in Hdec. by injection Hdec as <-.
    + change (GoType_eqb (TSlice xmlAttrT) (TSlice xmlAttrT)) with true in Hdec.
      cbn [length Nat.ltb Nat.leb andb] in Hdec. injection Hdec as <-.
      by apply getField_setField_same.
Qed.

Lemma any_attr_field_takes_the_leftovers_witness :
  exists (used : gset nat) (leftovers : list Attr),
    (forall j, j ∈ used <->
       exists i f name x,
         fieldsOf Examples.WithAnyAttr !! i = Some f
         /\ attrFieldName (Some 1%nat) i f = Some name
         /\ list_find (fun y => matchesAttribute Examples.userContext name y = true)
              [Examples.xmlnsDecl "a" Examples.NS_U; mkAttr (Examples.plain "id") "7";
               mkAttr (Examples.plain "version") "1.0"] = Some (j, x)) /\
    leftovers = unmatchedFrom used 0
                  [Examples.xmlnsDecl "a" Examples.NS_U; mkAttr (Examples.plain "id") "7";
                   mkAttr (Examples.plain "version") "1.0"] /\
    leftovers `sublist_of`
      [Examples.xmlnsDecl "a" Examples.NS_U; mkAttr (Examples.plain "id") "7";
       mkAttr (Examples.plain "version") "1.0"] /\
    (forall x, x ∈ leftovers <->
       exists j, [Examples.xmlnsDecl "a" Examples.NS_U; mkAttr (Examples.plain "id") "7";
                  mkAttr (Examples.plain "version") "1.0"] !! j = Some x /\ j ∉ used) /\
    getField (VStruct [VString "7";
                       VSlice [attrValue (Examples.xmlnsDecl "a" Examples.NS_U);
                               attrValue (mkAttr (Examples.plain "version") "1.0")]]) 1
    = match leftovers with
      | [] => getField (zero Examples.WithAnyAttr) 1
      | _ => VSlice (map attrValue leftovers)
      end.
Proof.
  apply (any_attr_field_takes_the_leftovers Examples.userContext Examples.WithAnyAttr
           (zero Examples.WithAnyAttr)
           (VStruct [VString "7";
                     VSlice [attrValue (Examples.xmlnsDecl "a" Examples.NS_U);
                             attrValue (mkAttr (Examples.plain "version") "1.0")]])
           [Examples.xmlnsDecl "a" Examples.NS_U; mkAttr (Examples.plain "id") "7";
            mkAttr (Examples.plain "version") "1.0"]
           1 (Field "AnyAttr" ",any,attr" (TSlice xmlAttrT)) eq_refl eq_refl eq_refl).
  - cbn. lia.
  - reflexivity.
Defined.

(** ** Records of strings *)

Lemma GoType_eqb_TString (t : GoType) : GoType_eqb t TString = true -> t = TString.
Proof. by destruct t. Qed.

Lemma GoType_eqb_string_slice (t : GoType) :
  GoType_eqb t (TSlice TString) = true -> t = TSlice TString.
Proof. destruct t as [| | | | | |elem|]; try done. by destruct elem. Qed.

Lemma endOfStruct_nothing_gathered (t : GoType) (cf cdf cmf : option nat) (v : Value) :
  endOfStruct t cf cdf cmf "" "" v = (v, None).
Proof.
  unfold endOfStruct, assignText, assignComments.
  destruct cf, cdf, cmf; reflexivity.
Qed.

(** X17. On children with text content, each for a string field, or
    for no field when the ,any field is a slice of strings or missing,
    the record loop is a fold over the children in document order: a
    child writes its trimmed text to the first field that matches it,
    over what was there, so the last of several children for one field
    wins; a child for no field becomes one more item of the ,any
    slice, or changes nothing when there is no ,any field. For a
    document that is such a record, [Decode] returns the target after
    the attribute pass with the children folded into it, and leaves
    what follows the root element unread. *)
Theorem record_of_strings_is_a_fold (E : XmlEncoder) (d : Decoder) (fuel : nat)
    (t : GoType) (cf cdf af cmf : option nat) (cd cm : string)
    (children : list TextChild) (r : list Read) :
  forallb (plainStringChild d t af) children = true ->
  (forall v : Value,
     decodeStructLoop E d (length children + S fuel) t cf cdf af cmf cd cm v
       (concat (map childReads children) ++ r)
     = decodeStructLoop E d (S fuel) t cf cdf af cmf cd cm
         (foldl (writeChild d t af) v children) r) /\
  (forall (name : string) (fs : list StructField) (x v2 : Value) (pre : list Read)
          (root : StartElement) (n : Name),
     t = TStruct name fs ->
     af = findAnyField t ->
     findInnerXMLField t = None ->
     beforeRoot pre = true ->
     decodeAttributes d t (setXMLName t x root) (EAttr root) = (v2, None) ->
     Decode E d (S (S (length children + S fuel))) (TPtr t) (VPtr (Some x))
       (pre ++ Tok (TStart root) :: concat (map childReads children) ++ Tok (TEnd n) :: r)
     = ok (VPtr (Some (foldl (writeChild d t af) v2 children))) r).
Proof.
  intros Hall.
  assert (Hfold : forall cf cdf cmf cd cm r v,
            decodeStructLoop E d (length children + S fuel) t cf cdf af cmf cd cm v
              (concat (map childReads children) ++ r)
            = decodeStructLoop E d (S fuel) t cf cdf af cmf cd cm
                (foldl (writeChild d t af) v children) r).
  { clear cf cdf cmf cd cm r. intros cf cdf cmf cd cm r.
    induction children as [|c cs IH]; intros v; [done|].
    cbn [forallb] in Hall. apply andb_true_iff in Hall as [Hc Hcs].
    unfold plainStringChild in Hc. apply andb_true_iff in Hc as [Hpath Hfield].
    apply Nat.eqb_eq in Hpath.
    cbn [length Nat.add map concat foldl]. unfold childReads at 1, textElement.
    cbn [app]. rewrite decodeStructLoop_S. unfold decodeStructLoopBody.
    rewrite Hpath. cbn [Nat.ltb Nat.leb]. unfold writeChild at 2.
    destruct (findFieldWithTag d t (cStart c)) as [i|]; [|destruct af as [a|]].
    - apply GoType_eqb_TString in Hfield. rewrite Hfield.
      rewrite Nat.add_succ_r, decodeElement_S. cbn [decodeElementBody].
      unfold decodeString. cbn [readText]. rewrite append_nil_l. cbn [ok err val rest].
      rewrite <- Nat.add_succ_r. by apply IH.
    - apply GoType_eqb_string_slice in Hfield. rewrite Hfield.
      unfold decodeAnyElement. rewrite Nat.add_succ_r, decodeElement_S.
      cbn [decodeElementBody zero]. unfold decodeString. cbn [readText].
      rewrite append_nil_l. cbn [ok err val rest].
      rewrite <- Nat.add_succ_r. by apply IH.
    - cbn [Skip]. by apply IH. }
  split; [apply Hfold|].
  intros name fs x v2 pre root n Ht Haf Hinner Hpre Hattr.
  subst t. unfold Decode. rewrite readRoot_beforeRoot by done. cbn [readRoot].
  rewrite decodeElement_S. cbn [decodeElementBody].
  rewrite decodeStruct_S. unfold decodeStructBody.
  rewrite Hattr, Hinner, <- Haf, Hfold.
  rewrite decodeStructLoop_S. unfold decodeStructLoopBody.
  by rewrite endOfStruct_nothing_gathered.
Qed.

Lemma record_of_strings_is_a_fold_witness :
  decodeStructLoop Examples.noEncoder Examples.emptyContext 5 Samples.Open
    None None (Some 1%nat) None "" "" (VStruct [VString "old"; VSlice []])
    (concat (map childReads
               [mkChild (mkStart (Examples.plain "name") []) " Jane " (Examples.plain "name");
                mkChild (mkStart (Examples.plain "other") []) "x" (Examples.plain "other");
                mkChild (mkStart (Examples.plain "name") []) "Joe" (Examples.plain "name");
                mkChild (mkStart (Examples.plain "more") []) " y" (Examples.plain "more")])
     ++ [Examples.close "root"; Examples.open "next"])
  = ok (VStruct [VString "Joe"; VSlice [VString "x"; VString "y"]]) [Examples.open "next"] /\
  Decode Examples.noEncoder Examples.emptyContext 7 (TPtr Samples.Open)
    (VPtr (Some (zero Samples.Open)))
    ([Tok (TProcInst "xml" "")]
     ++ Tok (TStart (mkStart (Examples.plain "root") []))
        :: concat (map childReads
                     [mkChild (mkStart (Examples.plain "name") []) " Jane "
                        (Examples.plain "name");
                      mkChild (mkStart (Examples.plain "other") []) "x"
                        (Examples.plain "other");
                      mkChild (mkStart (Examples.plain "name") []) "Joe"
                        (Examples.plain "name");
                      mkChild (mkStart (Examples.plain "more") []) " y"
                        (Examples.plain "more")])
        ++ Tok (TEnd (Examples.plain "root")) :: [])
  = ok (VPtr (Some (VStruct [VString "Joe"; VSlice [VString "x"; VString "y"]]))) [].
Proof.
  destruct (record_of_strings_is_a_fold Examples.noEncoder Examples.emptyContext 0
              Samples.Open None None (Some 1%nat) None "" ""
              [mkChild (mkStart (Examples.plain "name") []) " Jane " (Examples.plain "name");
               mkChild (mkStart (Examples.plain "other") []) "x" (Examples.plain "other");
               mkChild (mkStart (Examples.plain "name") []) "Joe" (Examples.plain "name");
               mkChild (mkStart (Examples.plain "more") []) " y" (Examples.plain "more")]
              [Examples.close "root"; Examples.open "next"] eq_refl) as [H1 _].
  destruct (record_of_strings_is_a_fold Examples.noEncoder Examples.emptyContext 0
              Samples.Open None None (Some 1%nat) None "" ""
              [mkChild (mkStart (Examples.plain "name") []) " Jane " (Examples.plain "name");
               mkChild (mkStart (Examples.plain "other") []) "x" (Examples.plain "other");
               mkChild (mkStart (Examples.plain "name") []) "Joe" (Examples.plain "name");
               mkChild (mkStart (Examples.plain "more") []) " y" (Examples.plain "more")]
              [] eq_refl) as [_ H2].
  split.
  - exact (eq_trans (H1 (VStruct [VString "old"; VSlice []])) eq_refl).
  - exact (eq_trans
             (H2 "Open" _ (zero Samples.Open) (zero Samples.Open)
                [Tok (TProcInst "xml" "")] (mkStart (Examples.plain "root") [])
                (Examples.plain "root") eq_refl eq_refl eq_refl eq_refl eq_refl)
             eq_refl).
Defined.

(** ** Comments of a frame *)

Lemma comments_accumulate (E : XmlEncoder) (d : Decoder) (fuel : nat) (t : GoType)
    (cf cdf af : option nat) (k : nat) (cd : string) (v : Value) (r : list Read)
    (cs : list string) :
  forall acc : string,
    acc <> "" ->
    decodeStructLoop E d (length cs + fuel) t cf cdf af (Some k) cd acc v
      (commentReads cs ++ r)
    = decodeStructLoop E d fuel t cf cdf af (Some k) cd
        (foldl (fun a c => a +:+ newline +:+ c) acc cs) v r.
Proof.
  induction cs as [|c cs IH]; intros acc Hacc; [done|].
  cbn [length Nat.add commentReads map app foldl].
  rewrite decodeStructLoop_S. unfold decodeStructLoopBody.
  destruct acc as [|a acc]; [done|]. cbn [String.length Nat.ltb Nat.leb].
  fold (commentReads cs). fold newline. by rewrite IH.
Qed.

Lemma Join_cons (c : string) (cs : list string) (sep : string) :
  foldl (fun a x => a +:+ sep +:+ x) c cs = Strings.Join (c :: cs) sep.
Proof.
  revert c. induction cs as [|x cs IH]; intros c; [done|].
  cbn [foldl]. rewrite IH. cbn [Strings.Join].
  destruct cs as [|y cs]; by rewrite ?append_assoc.
Qed.

Lemma Join_nonempty (c : string) (cs : list string) (sep : string) :
  c <> "" -> (0 <? String.length (Strings.Join (c :: cs) sep))%nat = true.
Proof.
  intros Hc. destruct c as [|a c]; [done|].
  destruct cs; cbn [Strings.Join]; by rewrite ?append_cons_l.
Qed.

(** X18. The comment field of a record receives the comments of the
    frame joined by a line feed, in document order, trimmed as one text;
    empty comments in front of the first non-empty one are not counted,
    and when nothing is left the field is not written. *)
Theorem comments_are_joined_by_newlines (E : XmlEncoder) (d : Decoder) (fuel : nat)
    (t : GoType) (cf cdf af : option nat) (k : nat) (f : StructField)
    (fs : list Value) (cs : list string) (n : Name) (r : list Read) :
  fieldsOf t !! k = Some f ->
  FType f = TString ->
  decodeStructLoop E d (length cs + S fuel) t cf cdf af (Some k) "" "" (VStruct fs)
    (commentReads cs ++ Tok (TEnd n) :: r)
  = ok (match dropEmpty cs with
        | [] => VStruct fs
        | cs' => VStruct (<[k := VString (Strings.TrimSpace (Strings.Join cs' newline))]> fs)
        end) r.
Proof.
  intros Hf Hty.
  assert (Hend : forall cm, decodeStructLoop E d (S fuel) t cf cdf af (Some k) "" cm
                              (VStruct fs) (Tok (TEnd n) :: r)
                            = ok (if (0 <? String.length cm)%nat
                                  then VStruct (<[k := VString (Strings.TrimSpace cm)]> fs)
                                  else VStruct fs) r).
  { intros cm. rewrite decodeStructLoop_S. unfold decodeStructLoopBody, endOfStruct.
    assert (Htext : assignText t cf cdf "" (VStruct fs) = (VStruct fs, None)).
    { unfold assignText. by destruct cf, cdf. }
    rewrite Htext. unfold assignComments, setStringField. rewrite Hf.
    cbn [fmap option_fmap option_map]. rewrite Hty.
    by destruct (0 <? String.length cm)%nat. }
  induction cs as [|c cs IH].
  - cbn [length Nat.add commentReads map app dropEmpty]. by rewrite Hend.
  - cbn [dropEmpty]. destruct (String.eqb_spec c "") as [->|Hc].
    + cbn [length Nat.add commentReads map app].
      rewrite decodeStructLoop_S. unfold decodeStructLoopBody.
      cbn [String.length Nat.ltb Nat.leb]. rewrite !append_nil_l.
      fold (commentReads cs). exact IH.
    + cbn [length Nat.add commentReads map app].
      rewrite decodeStructLoop_S. unfold decodeStructLoopBody.
      cbn [String.length Nat.ltb Nat.leb]. rewrite !append_nil_l.
      fold (commentReads cs).
      rewrite (comments_accumulate E d (S fuel) t cf cdf af k "" (VStruct fs)
                 (Tok (TEnd n) :: r) cs c Hc).
      rewrite Hend, Join_cons. by rewrite Join_nonempty.
Qed.

Lemma comments_are_joined_by_newlines_witness :
  decodeStructLoop Examples.noEncoder Examples.emptyContext 4 Examples.Doc
    None None None (Some 2%nat) "" "" (zero Examples.Doc)
    (commentReads [""; " First comment "; " Second comment "]
     ++ Tok (TEnd (Examples.plain "doc")) :: [])
  = ok (VStruct [nameValue (mkName "" ""); VString "";
                 VString ("First comment " +:+ newline +:+ " Second comment")]) [].
Proof.
  refine (eq_trans
            (comments_are_joined_by_newlines Examples.noEncoder Examples.emptyContext 0
               Examples.Doc None None None 2 (Field "Comment" ",comment" TString)
               [nameValue (mkName "" ""); VString ""; VString ""]
               [""; " First comment "; " Second comment "] (Examples.plain "doc") []
               eq_refl eq_refl) _).
  reflexivity.
Defined.

(** ** Path fields *)

Lemma Split_nosep (p : string) (sep : ascii) :
  Strings.Contains p (String sep "") = false -> Strings.Split p sep = [p].
Proof.
  induction p as [|c p IH]; intros Hp; [done|].
  rewrite Contains_char_cons in Hp. apply orb_false_elim in Hp as [Hc Hp].
  cbn [Strings.Split]. by rewrite Hc, IH.
Qed.

Lemma Split_app_sep (p rest : string) (sep : ascii) :
  Strings.Contains p (String sep "") = false ->
  Strings.Split (p +:+ String sep rest) sep = p :: Strings.Split rest sep.
Proof.
  induction p as [|c p IH]; intros Hp.
  - rewrite append_nil_l. cbn [Strings.Split]. by rewrite Ascii.eqb_refl.
  - rewrite Contains_char_cons in Hp. apply orb_false_elim in Hp as [Hc Hp].
    rewrite append_cons_l. cbn [Strings.Split]. by rewrite Hc, IH.
Qed.

(** Splitting what [Join] put together gives the segments back. *)
Lemma Split_Join (p : string) (ps : list string) (sep : ascii) :
  Forall (fun x => Strings.Contains x (String sep "") = false) (p :: ps) ->
  Strings.Split (Strings.Join (p :: ps) (String sep "")) sep = p :: ps.
Proof.
  revert p. induction ps as [|q ps IH]; intros p Hall.
  - cbn [Strings.Join]. apply Split_nosep. by apply Forall_inv in Hall.
  - apply Forall_cons in Hall as [Hp Hall].
    change (Strings.Join (p :: q :: ps) (String sep ""))
      with (p +:+ String sep "" +:+ Strings.Join (q :: ps) (String sep "")).
    change (String sep "" +:+ Strings.Join (q :: ps) (String sep ""))
      with (String sep (Strings.Join (q :: ps) (String sep ""))).
    by rewrite Split_app_sep, IH.
Qed.

Lemma pathPass_single (d : Decoder)
    (dec : GoType -> Value -> StartElement -> list Read -> Out)
    (t : GoType) (e : StartElement) (i : nat) (p q : string) (qs : list string)
    (v : Value) (s : list Read) :
  Forall (fun x => Strings.Contains x ">" = false) (p :: q :: qs) ->
  matchesField d q (Local (EName e)) (Space (EName e)) = true ->
  pathPass d dec t e 0 [mkPath i (Strings.Join (p :: q :: qs) ">")]
    (mkPass v s [false] [] [] false None)
  = match qs with
    | [] =>
        let o := dec (default (TOther "") (FType <$> fieldsOf t !! i)) (getField v i) e s in
        mkPass (setField v i (val o)) (rest o)
          (match err o with Some _ => [false] | None => [true] end) [] [] true (err o)
    | _ => mkPass v s [false] [mkPath i (Strings.Join (q :: qs) ">")] [0%nat] true None
    end.
Proof.
  intros Hall Hm. cbn [pathPass ppFound lookup list_lookup default from_option id pfTag].
  change ">" with (String gt "") in *. rewrite (Split_Join p (q :: qs) gt Hall).
  cbn [length Nat.ltb Nat.leb nth]. rewrite Hm.
  destruct qs as [|q' qs]; cbn [length Nat.eqb pfField ppVal ppRest ppFound ppMatching
                                  ppIndices drop app].
  - by destruct (err (dec _ _ e s)).
  - done.
Qed.

(** X19. A string field with the path [p1>p2>...>pn] is filled from the
    text of the element nested along that path: inside the element for
    [p1], the group of the field descends one element per segment, each
    matched under the namespace context, stores the trimmed text found
    at the end of the path, and returns behind the end element of the
    parent. At each level the remaining path is the path without its
    first segment. *)
Theorem path_field_is_filled_from_the_nested_element (E : XmlEncoder) (d : Decoder)
    (t : GoType) (i : nat) (f : StructField) (txt : string) :
  fieldsOf t !! i = Some f ->
  FType f = TString ->
  forall (ps : list string) (es : list StartElement) (ns : list Name) (p1 : string)
         (fuel : nat) (v : Value) (n1 : Name) (r : list Read),
    ps <> [] ->
    Forall (fun x => Strings.Contains x ">" = false) (p1 :: ps) ->
    Forall2 (fun p e => matchesField d p (Local (EName e)) (Space (EName e)) = true) ps es ->
    length ns = length es ->
    decodeMultiplePathFields E d (length es + S fuel) t
      [mkPath i (Strings.Join (p1 :: ps) ">")] [false] v
      (opens es ++ Tok (TCharData txt) :: closes ns ++ Tok (TEnd n1) :: r)
    = ok (setField v i (VString (Strings.TrimSpace txt))) r.
Proof.
  intros Hf Hty. pose proof (field_type t i f Hf) as Hft. rewrite Hty in Hft.
  induction ps as [|q qs IH]; intros es ns p1 fuel v n1 r Hne Hall Hmatch Hlen; [done|].
  destruct es as [|e es]; [by apply Forall2_length in Hmatch|].
  apply Forall2_cons in Hmatch as [Hm Hmatch].
  cbn [length Nat.add opens map app].
  rewrite decodeMultiplePathFields_S. unfold decodeMultiplePathFieldsBody.
  rewrite (pathPass_single d _ t e i p1 q qs v _ Hall Hm).
  destruct qs as [|q' qs].
  - apply Forall2_nil_inv_l in Hmatch as ->.
    destruct ns as [|n [|? ?]]; try done.
    cbn [map app closes length Nat.add]. rewrite Hft, decodeElement_S.
    cbn [decodeElementBody]. unfold decodeString. cbn [readText].
    rewrite append_nil_l.
    cbn [ok err val rest ppErr ppMatching ppMatchedAny ppVal ppRest ppFound length
         Nat.ltb Nat.leb negb].
    rewrite decodeMultiplePathFields_S. by cbn [decodeMultiplePathFieldsBody].
  - cbn [ppErr ppMatching ppMatchedAny ppVal ppRest ppFound ppIndices length
         Nat.ltb Nat.leb replicate].
    destruct (exists_last (l := ns)) as (ns' & nlast & ->).
    { intros ->. cbn in Hlen. lia. }
    rewrite length_app in Hlen. cbn [length] in Hlen.
    assert (Hlen' : length ns' = length es) by lia.
    unfold closes. rewrite map_app, <- app_assoc. cbn [map app]. fold (closes ns').
    fold (opens es).
    apply Forall_cons in Hall as [_ Hall].
    rewrite (IH es ns' q fuel v nlast (Tok (TEnd n1) :: r)); try done.
    cbn [ok err val rest markFound foldl].
    destruct es as [|e' es]; [by apply Forall2_length in Hmatch|].
    cbn [length Nat.add]. rewrite decodeMultiplePathFields_S.
    by cbn [decodeMultiplePathFieldsBody].
Qed.

Lemma path_field_is_filled_from_the_nested_element_witness :
  decodeMultiplePathFields Examples.noEncoder Examples.emptyContext 4 Examples.Product
    [mkPath 2 (Strings.Join ["details"; "identifier"; "id"] ">")] [false]
    (zero Examples.Product)
    (opens [mkStart (Examples.plain "identifier") []; mkStart (Examples.plain "id") []]
     ++ Tok (TCharData " 12345 ")
        :: closes [Examples.plain "id"; Examples.plain "identifier"]
        ++ Tok (TEnd (Examples.plain "details")) :: [Examples.close "product"])
  = ok (setField (zero Examples.Product) 2 (VString "12345")) [Examples.close "product"].
Proof.
  apply (path_field_is_filled_from_the_nested_element Examples.noEncoder
           Examples.emptyContext Examples.Product 2
           (Field "ID" "details>identifier>id" TString) " 12345 " eq_refl eq_refl
           ["identifier"; "id"]
           [mkStart (Examples.plain "identifier") []; mkStart (Examples.plain "id") []]
           [Examples.plain "id"; Examples.plain "identifier"] "details" 1).
  - discriminate.
  - repeat constructor.
  - repeat constructor.
  - reflexivity.
Defined.

(** ** Where the text of an element ends *)

Lemma readText_noEnd (pre : list Read) (n : Name) (r : list Read) :
  forall acc, noEnd pre = true ->
              readText acc (pre ++ Tok (TEnd n) :: r) = TextEnd (acc +:+ textOf pre) r.
Proof.
  induction pre as [|[[st|nm|data|data|tg inst|data]|msg] pre IH]; intros acc H;
    cbn [noEnd forallb] in H; try done; cbn [app readText textOf];
    try (by apply IH).
  - by rewrite append_nil_r.
  - rewrite IH by done. by rewrite append_assoc.
Qed.

(** X20. The text of a primitive target is every piece of character
    data in front of the first end element of the stream: comments,
    processing instructions, directives and also start elements in
    between are passed over. So the frame of a primitive ends at the
    end element of a nested child when it has one, and what follows
    that child is left to the enclosing frame. *)
Theorem primitive_text_runs_to_the_first_end_element (E : XmlEncoder) (d : Decoder)
    (fuel : nat) (w : Width) (v : Value) (start : StartElement) (pre : list Read)
    (n : Name) (r : list Read) :
  noEnd pre = true ->
  let txt := Strings.TrimSpace (textOf pre) in
  let reads := (pre ++ Tok (TEnd n) :: r)%list in
  decodeElement E d (S fuel) TString v start reads = ok (VString txt) r /\
  decodeElement E d (S fuel) TBool v start reads = ok (VBool (String.eqb txt "true")) r /\
  decodeElement E d (S fuel) (TInt w) v start reads =
    match Strconv.ParseInt txt with
    | Some i => ok (VInt (wrapInt w i)) r
    | None => failed v r (ParseIntError txt)
    end /\
  decodeElement E d (S fuel) (TUint w) v start reads =
    match Strconv.ParseUint txt with
    | Some i => ok (VUint (wrapUint w i)) r
    | None => failed v r (ParseUintError txt)
    end.
Proof.
  intros Hpre txt reads. subst txt reads. rewrite !decodeElement_S.
  cbn [decodeElementBody]. unfold decodeString, decodeBool, decodeInt, decodeUint.
  rewrite !readText_noEnd, !append_nil_l by done.
  by repeat split.
Qed.

Lemma primitive_text_runs_to_the_first_end_element_witness :
  decodeElement Examples.noEncoder Examples.emptyContext 1 TString (VString "")
    (mkStart (Examples.plain "name") [])
    ([Examples.text " a"; Tok (TComment "x"); Examples.open "b"; Examples.text "c "]
     ++ Examples.close "b" :: [Examples.text "d"; Examples.close "name"])
  = ok (VString "ac") [Examples.text "d"; Examples.close "name"].
Proof.
  apply (primitive_text_runs_to_the_first_end_element Examples.noEncoder
           Examples.emptyContext 0 W8 (VString "") (mkStart (Examples.plain "name") [])
           [Examples.text " a"; Tok (TComment "x"); Examples.open "b"; Examples.text "c "]
           (Examples.plain "b") [Examples.text "d"; Examples.close "name"] eq_refl).
Defined.

(** ** Targets with [UnmarshalText] *)

Lemma wellNested_content (st : StartElement) (c : list Read) (n : Name) :
  wellNested (IElement st c n) = true -> isContent c.
Proof.
  unfold wellNested, isContent. by destruct (nesting 0 c) as [[|k]|].
Qed.

(** X21. For a target with [UnmarshalText] the frame ends at its own
    end element: on mixed content, pieces of text and complete child
    elements, every child element is skipped with all it holds, and
    [UnmarshalText] is called once, at the end element of the frame,
    with the trimmed concatenation of the pieces of text that are
    direct children; its result and error are what the frame returns. *)
Theorem text_unmarshaler_sees_the_direct_text
    (unmarshalText : string -> Value -> Value * option Error) (fuel : nat)
    (v : Value) (items : list Item) (n : Name) (r : list Read) :
  forallb wellNested items = true ->
  forall text : string,
    textUnmarshalerLoop unmarshalText (length items + S fuel) text v
      (concat (map itemReads items) ++ Tok (TEnd n) :: r)
    = (let '(v', e) := unmarshalText (Strings.TrimSpace (text +:+ directText items)) v in
       mkOut v' r e).
Proof.
  induction items as [|it items IH]; intros Hall text.
  - cbn. by rewrite append_nil_r.
  - cbn [forallb] in Hall. apply andb_true_iff in Hall as [Hit Hall].
    cbn [length Nat.add map concat directText foldr].
    destruct it as [data|st c nm]; cbn [itemReads app textUnmarshalerLoop].
    + fold (directText items). rewrite IH by done. by rewrite append_assoc.
    + fold (directText items).
      rewrite <- !app_assoc. cbn [app].
      rewrite (Skip_content c nm _ (wellNested_content st c nm Hit)). by apply IH.
Qed.

Lemma text_unmarshaler_sees_the_direct_text_witness :
  textUnmarshalerLoop (fun s v => (VString s, None)) 4 "" (VString "")
    (concat (map itemReads
               [IElement (mkStart (Examples.plain "nested") []) [Examples.text "ignored"]
                  (Examples.plain "nested");
                IText " 7 ";
                IElement (mkStart (Examples.plain "other") [])
                  [Examples.open "deep"; Examples.text "also"; Examples.close "deep"]
                  (Examples.plain "other")])
     ++ Tok (TEnd (Examples.plain "custom")) :: [Examples.close "doc"])
  = ok (VString "7") [Examples.close "doc"].
Proof.
  apply (text_unmarshaler_sees_the_direct_text (fun s v => (VString s, None)) 0
           (VString "")
           [IElement (mkStart (Examples.plain "nested") []) [Examples.text "ignored"]
              (Examples.plain "nested");
            IText " 7 ";
            IElement (mkStart (Examples.plain "other") [])
              [Examples.open "deep"; Examples.text "also"; Examples.close "deep"]
              (Examples.plain "other")]
           (Examples.plain "custom") [Examples.close "doc"] eq_refl "").
Defined.

(** With one unit of fuel per read, and one more, the loop does not run
    out of fuel. *)
Lemma textUnmarshalerLoop_enough_fuel
    (unmarshalText : string -> Value -> Value * option Error) :
  (forall s v, (unmarshalText s v).2 <> Some OutOfFuel) ->
  forall fuel text v s,
    (length s < fuel)%nat ->
    err (textUnmarshalerLoop unmarshalText fuel text v s) <> Some OutOfFuel.
Proof.
  intros Hu. induction fuel as [|fuel IH]; intros text v s Hlen; [lia|].
  destruct s as [|[[st|n|data|data|tg inst|data]|msg] r]; cbn [textUnmarshalerLoop];
    try done; cbn [length] in Hlen; try (apply IH; lia).
  - pose proof (Skip_length r 0) as Hr. pose proof (Skip_fuel r 0) as He.
    destruct (Skip 0 r) as [r' [e|]]; cbn [fst snd] in *; [done|]. apply IH. lia.
  - pose proof (Hu (Strings.TrimSpace text) v) as H.
    by destruct (unmarshalText (Strings.TrimSpace text) v).
Qed.

(** ** Text between child elements *)

(** X22. The text of a record is gathered over the whole frame: with
    a chardata or cdata field, every piece of text that is a direct
    child is appended, in document order, to what was gathered before,
    and the text inside child elements that are skipped is not; without
    such a field no text is gathered at all. The loop reaches the end
    element of the frame with that text, where it is trimmed and
    stored. *)
Theorem record_text_is_the_direct_text (E : XmlEncoder) (d : Decoder) (fuel : nat)
    (t : GoType) (cf cdf cmf : option nat) (cm : string) (v : Value)
    (items : list Item) (r : list Read) :
  forallb (passedOver d t) items = true ->
  forall cd : string,
    decodeStructLoop E d (length items + fuel) t cf cdf None cmf cd cm v
      (concat (map itemReads items) ++ r)
    = decodeStructLoop E d fuel t cf cdf None cmf
        (if bool_decide (is_Some cf) || bool_decide (is_Some cdf)
         then cd +:+ directText items else cd) cm v r.
Proof.
  induction items as [|it items IH]; intros Hall cd.
  - cbn. rewrite append_nil_r. by destruct (_ || _).
  - cbn [forallb] in Hall. apply andb_true_iff in Hall as [Hit Hall].
    cbn [length Nat.add map concat directText foldr]. fold (directText items).
    rewrite decodeStructLoop_S. unfold decodeStructLoopBody.
    destruct it as [data|st c nm]; cbn [itemReads app].
    + destruct (bool_decide (is_Some cf) || bool_decide (is_Some cdf)) eqn:Hany.
      * rewrite IH by done. by rewrite append_assoc.
      * by rewrite IH.
    + cbn [passedOver] in Hit. apply andb_true_iff in Hit as [[Hwn Hpath]%andb_true_iff Hf].
      apply Nat.eqb_eq in Hpath. apply bool_decide_eq_true in Hf.
      rewrite Hpath, Hf. cbn [Nat.ltb Nat.leb].
      rewrite <- !app_assoc. cbn [app].
      rewrite (Skip_content c nm _ (wellNested_content st c nm Hwn)). by apply IH.
Qed.

Lemma record_text_is_the_direct_text_witness :
  decodeStructLoop Examples.noEncoder Examples.emptyContext 4 Examples.CDataFirst
    (Some 1%nat) (Some 0%nat) None None "" "" (zero Examples.CDataFirst)
    (concat (map itemReads
               [IText "This is ";
                IElement (mkStart (Examples.plain "bold") []) [Examples.text "bold"]
                  (Examples.plain "bold");
                IText " text"])
     ++ [Examples.close "para"])
  = ok (VStruct [VString ""; VString "This is  text"]) [].
Proof.
  refine (eq_trans
            (record_text_is_the_direct_text Examples.noEncoder Examples.emptyContext 1
               Examples.CDataFirst (Some 1%nat) (Some 0%nat) None ""
               (zero Examples.CDataFirst)
               [IText "This is ";
                IElement (mkStart (Examples.plain "bold") []) [Examples.text "bold"]
                  (Examples.plain "bold");
                IText " text"]
               [Examples.close "para"] eq_refl "") _).
  reflexivity.
Defined.

(** ** Attribute fields *)

Lemma setFieldValue_error (t : GoType) :
  forall v v' s, (setFieldValue t v s).2 = (setFieldValue t v' s).2.
Proof.
  induction t; intros v v' s; cbn [setFieldValue]; try done.
  - by destruct (Strconv.ParseInt s).
  - by destruct (Strconv.ParseUint s).
  - specialize (IHt (match v with VPtr (Some x) => x | _ => zero t end)
                    (match v' with VPtr (Some x) => x | _ => zero t end) s).
    by destruct (setFieldValue t _ s), (setFieldValue t _ s).
Qed.

Lemma coerces_spec (t : GoType) (v : Value) (s : string) :
  coerces t s = true <-> (setFieldValue t v s).2 = None.
Proof.
  unfold coerces. rewrite (setFieldValue_error t (zero t) v s).
  by destruct (setFieldValue t v s).2.
Qed.

Lemma attrFieldsFrom_succeeds (d : Decoder) (anyIdx : option nat) (attrs : list Attr)
    (fs : list StructField) :
  forall (k : nat) (v : Value) (m : gset nat),
    (attrFieldsFrom d anyIdx attrs k fs v m).2 = None <->
    (forall j f name idx a,
       fs !! j = Some f -> attrFieldName anyIdx (k + j) f = Some name ->
       list_find (fun y => matchesAttribute d name y = true) attrs = Some (idx, a) ->
       coerces (FType f) (AValue a) = true).
Proof.
  induction fs as [|f fs IH]; intros k v m; [done|].
  assert (Hshift : forall P : nat -> StructField -> Prop,
            (forall j g, (f :: fs) !! j = Some g -> P (k + j)%nat g) <->
            P k f /\ (forall j g, fs !! j = Some g -> P (S k + j)%nat g)).
  { intros P. split.
    - intros H. split; [by rewrite <- (Nat.add_0_r k); apply (H 0%nat)|].
      intros j g Hg. replace (S k + j)%nat with (k + S j)%nat by lia.
      by apply (H (S j)).
    - intros [H0 Hs] [|j] g Hg; cbn in Hg.
      + injection Hg as <-. by rewrite Nat.add_0_r.
      + replace (k + S j)%nat with (S k + j)%nat by lia. by apply Hs. }
  pose proof (Hshift (fun i g => forall name idx a,
                attrFieldName anyIdx i g = Some name ->
                list_find (fun y => matchesAttribute d name y = true) attrs = Some (idx, a) ->
                coerces (FType g) (AValue a) = true)) as Hs.
  cbn beta in Hs.
  assert (Hgoal : (forall j g name idx a,
                     (f :: fs) !! j = Some g -> attrFieldName anyIdx (k + j) g = Some name ->
                     list_find (fun y => matchesAttribute d name y = true) attrs
                     = Some (idx, a) -> coerces (FType g) (AValue a) = true)
                  <-> (forall j g, (f :: fs) !! j = Some g -> forall name idx a,
                         attrFieldName anyIdx (k + j) g = Some name ->
                         list_find (fun y => matchesAttribute d name y = true) attrs
                         = Some (idx, a) -> coerces (FType g) (AValue a) = true)).
  { split; intros H; intros; by eapply H. }
  rewrite Hgoal, Hs. clear Hgoal Hs Hshift.
  assert (Htail : forall v' m',
            (attrFieldsFrom d anyIdx attrs (S k) fs v' m').2 = None <->
            (forall j g, fs !! j = Some g -> forall name idx a,
               attrFieldName anyIdx (S k + j) g = Some name ->
               list_find (fun y => matchesAttribute d name y = true) attrs = Some (idx, a) ->
               coerces (FType g) (AValue a) = true)).
  { intros v' m'. rewrite IH. split; intros H; intros; by eapply H. }
  cbn [attrFieldsFrom].
  destruct (attrFieldName anyIdx k f) as [attrName|] eqn:Hname.
  - destruct (list_find _ attrs) as [[ai a]|] eqn:Hfind.
    + pose proof (coerces_spec (FType f) (getField v k) (AValue a)) as Hc.
      destruct (setFieldValue (FType f) (getField v k) (AValue a)) as [x [e|]];
        cbn [snd] in *.
      * split; [done|]. intros [H0 _].
        specialize (H0 attrName ai a eq_refl Hfind). apply Hc in H0. done.
      * rewrite Htail. split; [|by intros [_ H]].
        intros H. split; [|done]. intros name idx a' [= <-] Ha.
        rewrite Hfind in Ha. injection Ha as <- <-. by apply Hc.
    + rewrite Htail. split; [|by intros [_ H]].
      intros H. split; [|done]. intros name idx a' [= <-] Ha. by rewrite Hfind in Ha.
  - rewrite Htail. split; [|by intros [_ H]]. intros H. split; [|done]. done.
Qed.

Lemma attrFieldsFrom_takes (d : Decoder) (anyIdx : option nat) (attrs : list Attr)
    (i : nat) (f : StructField) (name : string) (fs : list StructField) :
  attrFieldName anyIdx i f = Some name ->
  forall (k : nat) (v : Value) (m : gset nat),
    (k <= i)%nat -> fs !! (i - k)%nat = Some f -> hasField v i ->
    (attrFieldsFrom d anyIdx attrs k fs v m).2 = None ->
    getField (attrFieldsFrom d anyIdx attrs k fs v m).1.1 i
    = match list_find (fun y => matchesAttribute d name y = true) attrs with
      | Some (_, a) => (setFieldValue (FType f) (getField v i) (AValue a)).1
      | None => getField v i
      end.
Proof.
  intros Hname.
  induction fs as [|g fs IH]; intros k v m Hk Hf Hv Hok; [done|].
  destruct (decide (k = i)) as [->|Hne].
  - rewrite Nat.sub_diag in Hf. injection Hf as ->.
    cbn [attrFieldsFrom] in *. rewrite Hname in *.
    destruct (list_find _ attrs) as [[ai a]|]; [|by apply attrFieldsFrom_before; lia].
    destruct (setFieldValue (FType f) (getField v i) (AValue a)) as [x [e|]]; [done|].
    rewrite attrFieldsFrom_before by lia. by apply getField_setField_same.
  - assert (Hf' : fs !! (i - S k)%nat = Some f).
    { replace (i - k)%nat with (S (i - S k)) in Hf by lia. done. }
    cbn [attrFieldsFrom] in *.
    destruct (attrFieldName anyIdx k g) as [gName|]; [|apply IH; (lia || done)].
    destruct (list_find (fun y => matchesAttribute d gName y = true) attrs)
      as [[gIdx gAttr]|]; [|apply IH; (lia || done)].
    destruct (setFieldValue (FType g) (getField v k) (AValue gAttr)) as [x [e|]];
      [done|].
    rewrite IH; try (lia || done); [|by apply hasField_setField].
    by rewrite getField_setField_ne.
Qed.

(** X23. The attribute pass gives every attribute field the first
    attribute of the element, in document order, that matches its
    name, coerced to the kind of the field; later attributes that match
    the same name are not looked at, and a field without a matching
    attribute keeps its value. The pass fails exactly when, for some
    attribute field, that first match cannot be coerced. *)
Theorem attribute_fields_take_their_first_match (d : Decoder) (t : GoType) (v : Value)
    (attrs : list Attr) :
  ((decodeAttributes d t v attrs).2 = None <->
   (forall i f name idx a,
      fieldsOf t !! i = Some f ->
      attrFieldName (findByTag isAnyAttrTag t) i f = Some name ->
      list_find (fun y => matchesAttribute d name y = true) attrs = Some (idx, a) ->
      coerces (FType f) (AValue a) = true)) /\
  (forall i f name,
     fieldsOf t !! i = Some f ->
     attrFieldName (findByTag isAnyAttrTag t) i f = Some name ->
     hasField v i ->
     (decodeAttributes d t v attrs).2 = None ->
     getField (decodeAttributes d t v attrs).1 i
     = match list_find (fun y => matchesAttribute d name y = true) attrs with
       | Some (_, a) => (setFieldValue (FType f) (getField v i) (AValue a)).1
       | None => getField v i
       end).
Proof.
  pose proof (attrFieldsFrom_succeeds d (findByTag isAnyAttrTag t) attrs (fieldsOf t)
                0 v ∅) as Hok.
  assert (Herr : (decodeAttributes d t v attrs).2
                 = (attrFieldsFrom d (findByTag isAnyAttrTag t) attrs 0 (fieldsOf t) v ∅).2).
  { unfold decodeAttributes.
    destruct (attrFieldsFrom _ _ _ _ _ _ _) as [[v1 m] [e|]]; [done|].
    destruct (findByTag isAnyAttrTag t); [|done]. by case_match. }
  split; [by rewrite Herr|].
  intros i f name Hf Hname Hv Hnone. rewrite Herr in Hnone.
  pose proof (attrFieldsFrom_takes d (findByTag isAnyAttrTag t) attrs i f name (fieldsOf t)
                Hname 0 v ∅ (Nat.le_0_l i)) as Htake.
  rewrite Nat.sub_0_r in Htake. specialize (Htake Hf Hv Hnone).
  rewrite <- Htake. unfold decodeAttributes.
  destruct (attrFieldsFrom _ _ _ _ _ _ _) as [[v1 m] [e|]]; [done|]. cbn [fst].
  destruct (findByTag isAnyAttrTag t) as [a0|] eqn:Hany; [|done].
  assert (a0 <> i).
  { intros ->. unfold attrFieldName in Hname. by rewrite bool_decide_true in Hname. }
  destruct (_ && _); [|done]. cbn [fst]. by rewrite getField_setField_ne.
Qed.

Lemma attribute_fields_take_their_first_match_witness :
  getField (decodeAttributes Examples.userContext Examples.Counted
              (zero Examples.Counted)
              [mkAttr (mkName Examples.NS_P "count") "12"; mkAttr (Examples.plain "count") "x"]).1
    1
  = VInt 12.
Proof.
  destruct (attribute_fields_take_their_first_match Examples.userContext Examples.Counted
              (zero Examples.Counted)
              [mkAttr (mkName Examples.NS_P "count") "12";
               mkAttr (Examples.plain "count") "x"]) as [_ H].
  refine (eq_trans (H 1%nat (Field "Count" "count,attr" (TInt WNative)) "count"
                      eq_refl eq_refl _ eq_refl) eq_refl).
  cbn. lia.
Defined.

(** ** What a decoding reads of the context *)

Lemma matchesField_sameOn (d1 d2 : Decoder) (seg l ns : string) :
  namespaces d1 !! segPrefix seg = namespaces d2 !! segPrefix seg ->
  matchesField d1 seg l ns = matchesField d2 seg l ns.
Proof.
  unfold segPrefix, matchesField. destruct (Strings.Contains seg ":").
  - by intros ->.
  - intros ->. done.
Qed.

Lemma matchesAttribute_sameOn (d1 d2 : Decoder) (name : string) (a : Attr) :
  namespaces d1 !! segPrefix name = namespaces d2 !! segPrefix name ->
  matchesAttribute d1 name a = matchesAttribute d2 name a.
Proof.
  unfold segPrefix, matchesAttribute. destruct (Strings.Contains name ":"); [|done].
  by intros ->.
Qed.

Lemma Split_nonempty (s : string) (sep : ascii) : (0 < length (Strings.Split s sep))%nat.
Proof.
  induction s as [|c s IH]; cbn [Strings.Split length]; [lia|].
  destruct (Ascii.eqb c sep); cbn [length]; [lia|].
  destruct (Strings.Split s sep); cbn [length]; lia.
Qed.

Lemma Split_segments (s : string) (sep : ascii) :
  Forall (fun x => Strings.Contains x (String sep "") = false) (Strings.Split s sep).
Proof.
  induction s as [|c s IH]; cbn [Strings.Split].
  - by constructor.
  - destruct (Ascii.eqb c sep) eqn:Hc; [by constructor|].
    destruct (Strings.Split s sep) as [|x xs]; constructor.
    + by rewrite Contains_char_cons, Hc.
    + done.
    + apply Forall_inv in IH. by rewrite Contains_char_cons, Hc.
    + by apply Forall_inv_tail in IH.
Qed.

Lemma list_find_bool_ext {A : Type} (p q : A -> bool) (l : list A) :
  (forall x, x ∈ l -> p x = q x) ->
  list_find (fun x => p x = true) l = list_find (fun x => q x = true) l.
Proof.
  induction l as [|a l IH]; intros H; [done|].
  cbn [list_find]. rewrite IH by (intros x Hx; apply H; by right).
  pose proof (H a (list_elem_of_here a l)) as Ha.
  destruct (decide (p a = true)), (decide (q a = true)); congruence.
Qed.

Section SameContext.

Variable E : XmlEncoder.
Variables d1 d2 : Decoder.

Lemma sameOn_fields (n : string) (fs : list StructField) :
  sameOn d1 d2 (typePrefixes (TStruct n fs)) ->
  Forall (fun f => sameOn d1 d2 (tagPrefixes (FTag f))
                   /\ sameOn d1 d2 (typePrefixes (FType f))) fs.
Proof.
  unfold sameOn. cbn [typePrefixes].
  induction fs as [|[fname tag ty] fs IH]; intros H; [by constructor|].
  apply Forall_app in H as [Htag H]. apply Forall_app in H as [Hty H].
  constructor; [done|]. by apply IH.
Qed.

Lemma sameOn_fieldsOf (t : GoType) :
  sameOn d1 d2 (typePrefixes t) ->
  Forall (fun f => sameOn d1 d2 (tagPrefixes (FTag f))
                   /\ sameOn d1 d2 (typePrefixes (FType f))) (fieldsOf t).
Proof.
  destruct t; try (by constructor). apply sameOn_fields.
Qed.

Lemma sameOn_field_type (t : GoType) (i : nat) :
  sameOn d1 d2 (typePrefixes t) ->
  sameOn d1 d2 (typePrefixes (default (TOther "") (FType <$> fieldsOf t !! i))).
Proof.
  intros H. apply sameOn_fieldsOf in H.
  destruct (fieldsOf t !! i) as [f|] eqn:Hf; [|by constructor].
  cbn. by apply (proj1 (Forall_lookup _ _) H i f Hf).
Qed.

Lemma sameOn_name (tag : string) :
  sameOn d1 d2 (tagPrefixes tag) ->
  namespaces d1 !! segPrefix (nth 0 (Strings.Split tag comma) "")
  = namespaces d2 !! segPrefix (nth 0 (Strings.Split tag comma) "").
Proof. intros H. by apply Forall_inv in H. Qed.

Lemma sameOn_segment (tag : string) (k : nat) :
  sameOn d1 d2 (tagPrefixes tag) ->
  (k < length (Strings.Split (nth 0 (Strings.Split tag comma) "") gt))%nat ->
  namespaces d1 !! segPrefix (nth k (Strings.Split (nth 0 (Strings.Split tag comma) "") gt) "")
  = namespaces d2 !! segPrefix (nth k (Strings.Split (nth 0 (Strings.Split tag comma) "") gt) "").
Proof.
  intros H Hk. apply Forall_inv_tail in H. apply Forall_map in H.
  by apply (proj1 (Forall_nth _ "" _) H k Hk).
Qed.

Lemma fieldMatchesElement_sameOn (st : StartElement) (f : StructField) :
  sameOn d1 d2 (tagPrefixes (FTag f)) ->
  fieldMatchesElement d1 st f = fieldMatchesElement d2 st f.
Proof.
  intros H. unfold fieldMatchesElement.
  destruct (_ || _); [done|]. destruct (_ && _); [done|]. destruct (_ || _); [done|].
  apply matchesField_sameOn. destruct (Strings.Contains _ ">").
  - apply sameOn_segment; [done|apply Split_nonempty].
  - by apply sameOn_name.
Qed.

Lemma pathFieldMatches_sameOn (st : StartElement) (f : StructField) :
  sameOn d1 d2 (tagPrefixes (FTag f)) ->
  pathFieldMatches d1 st f = pathFieldMatches d2 st f.
Proof.
  intros H. unfold pathFieldMatches.
  destruct (_ || _); [done|]. destruct (_ && _); [done|]. destruct (_ || _); [done|].
  destruct (negb _); [done|].
  apply matchesField_sameOn. apply sameOn_segment; [done|apply Split_nonempty].
Qed.

Lemma findFieldWithTag_sameOn (t : GoType) (st : StartElement) :
  sameOn d1 d2 (typePrefixes t) ->
  findFieldWithTag d1 t st = findFieldWithTag d2 t st.
Proof.
  intros H. apply sameOn_fieldsOf in H. unfold findFieldWithTag. f_equal.
  apply list_find_bool_ext. intros f Hf.
  apply fieldMatchesElement_sameOn. by apply (proj1 (Forall_forall _ _) H f Hf).
Qed.

Lemma pathFieldsFrom_sameOn (st : StartElement) (fs : list StructField) :
  Forall (fun f => sameOn d1 d2 (tagPrefixes (FTag f))
                   /\ sameOn d1 d2 (typePrefixes (FType f))) fs ->
  forall k, pathFieldsFrom d1 st k fs = pathFieldsFrom d2 st k fs.
Proof.
  induction 1 as [|f fs [Hf _] _ IH]; intros k; [done|].
  cbn [pathFieldsFrom]. by rewrite (pathFieldMatches_sameOn st f Hf), IH.
Qed.

Lemma findAllPathFieldsWithPrefix_sameOn (t : GoType) (st : StartElement) :
  sameOn d1 d2 (typePrefixes t) ->
  findAllPathFieldsWithPrefix d1 t st = findAllPathFieldsWithPrefix d2 t st.
Proof.
  intros H. apply pathFieldsFrom_sameOn. by apply sameOn_fieldsOf.
Qed.

Lemma attrFieldName_name (anyIdx : option nat) (i : nat) (f : StructField) (name : string) :
  attrFieldName anyIdx i f = Some name -> name = nth 0 (Strings.Split (FTag f) comma) "".
Proof.
  unfold attrFieldName. repeat case_match; congruence.
Qed.

Lemma attrFieldsFrom_sameOn (anyIdx : option nat) (attrs : list Attr)
    (fs : list StructField) :
  Forall (fun f => sameOn d1 d2 (tagPrefixes (FTag f))
                   /\ sameOn d1 d2 (typePrefixes (FType f))) fs ->
  forall k v m,
    attrFieldsFrom d1 anyIdx attrs k fs v m = attrFieldsFrom d2 anyIdx attrs k fs v m.
Proof.
  induction 1 as [|f fs [Hf _] _ IH]; intros k v m; [done|].
  cbn [attrFieldsFrom].
  destruct (attrFieldName anyIdx k f) as [name|] eqn:Hname; [|apply IH].
  apply attrFieldName_name in Hname. subst name.
  rewrite (list_find_bool_ext
             (matchesAttribute d1 (nth 0 (Strings.Split (FTag f) comma) ""))
             (matchesAttribute d2 (nth 0 (Strings.Split (FTag f) comma) "")) attrs)
    by (intros a _; apply matchesAttribute_sameOn; by apply sameOn_name).
  destruct (list_find _ attrs) as [[ai a]|]; [|apply IH].
  destruct (setFieldValue _ _ _) as [x [e|]]; [done|apply IH].
Qed.

Lemma decodeAttributes_sameOn (t : GoType) (v : Value) (attrs : list Attr) :
  sameOn d1 d2 (typePrefixes t) ->
  decodeAttributes d1 t v attrs = decodeAttributes d2 t v attrs.
Proof.
  intros H. unfold decodeAttributes.
  by rewrite (attrFieldsFrom_sameOn _ attrs (fieldsOf t) (sameOn_fieldsOf t H)).
Qed.

(** The path of a collected field mentions only prefixes bound alike. *)
Definition pathSameOn (pf : pathFieldInfo) : Prop :=
  Forall (fun seg => namespaces d1 !! segPrefix seg = namespaces d2 !! segPrefix seg)
    (Strings.Split (pfTag pf) gt).

Lemma pathFieldsFrom_pathSameOn (d : Decoder) (st : StartElement) (fs : list StructField) :
  Forall (fun f => sameOn d1 d2 (tagPrefixes (FTag f))
                   /\ sameOn d1 d2 (typePrefixes (FType f))) fs ->
  forall k, Forall pathSameOn (pathFieldsFrom d st k fs).
Proof.
  induction 1 as [|f fs [Hf _] _ IH]; intros k; [by constructor|].
  cbn [pathFieldsFrom]. apply Forall_app. split; [|apply IH].
  destruct (pathFieldMatches d st f); constructor; [|done].
  unfold pathSameOn. cbn [pfTag]. apply Forall_inv_tail in Hf. by apply Forall_map in Hf.
Qed.

Lemma remainingPath_pathSameOn (pf : pathFieldInfo) :
  pathSameOn pf ->
  (length (Strings.Split (pfTag pf) gt) <? 2)%nat = false ->
  pathSameOn (mkPath (pfField pf) (Strings.Join (drop 1 (Strings.Split (pfTag pf) gt)) ">")).
Proof.
  unfold pathSameOn. cbn [pfTag]. intros H Hlen. apply Nat.ltb_ge in Hlen.
  pose proof (Split_segments (pfTag pf) gt) as Hseg.
  destruct (Strings.Split (pfTag pf) gt) as [|a [|b segs]]; cbn [length] in Hlen; try lia.
  cbn [drop]. apply Forall_inv_tail in H, Hseg. by rewrite Split_Join.
Qed.

Lemma pathPass_sameOn
    (dec1 dec2 : GoType -> Value -> StartElement -> list Read -> Out)
    (t : GoType) (start : StartElement) (pfs : list pathFieldInfo) :
  (forall t' v st s, sameOn d1 d2 (typePrefixes t') -> dec1 t' v st s = dec2 t' v st s) ->
  sameOn d1 d2 (typePrefixes t) ->
  Forall pathSameOn pfs ->
  forall k st0,
    Forall pathSameOn (ppMatching st0) ->
    pathPass d1 dec1 t start k pfs st0 = pathPass d2 dec2 t start k pfs st0
    /\ Forall pathSameOn (ppMatching (pathPass d2 dec2 t start k pfs st0)).
Proof.
  intros Hdec Ht. induction 1 as [|pf pfs Hpf _ IH]; intros k st0 Hst; [done|].
  cbn [pathPass].
  destruct (default false (ppFound st0 !! k)); [by apply IH|].
  destruct (length (Strings.Split (pfTag pf) gt) <? 2)%nat eqn:Hlen; [by apply IH|].
  assert (Hnext : namespaces d1 !! segPrefix (nth 1 (Strings.Split (pfTag pf) gt) "")
                  = namespaces d2 !! segPrefix (nth 1 (Strings.Split (pfTag pf) gt) "")).
  { apply Nat.ltb_ge in Hlen. by apply (proj1 (Forall_nth _ "" _) Hpf 1%nat). }
  rewrite (matchesField_sameOn d1 d2 _ _ _ Hnext).
  destruct (matchesField d2 _ _ _); [|by apply IH].
  destruct (length (Strings.Split (pfTag pf) gt) =? 2)%nat.
  - rewrite (Hdec _ _ _ _ (sameOn_field_type t (pfField pf) Ht)).
    destruct (err (dec2 _ _ _ _)); [done|]. by apply IH.
  - apply IH. cbn [ppMatching]. apply Forall_app. split; [done|].
    constructor; [|done]. by apply remainingPath_pathSameOn.
Qed.

Lemma decodeAnyElement_sameOn
    (dec1 dec2 : GoType -> Value -> StartElement -> list Read -> Out)
    (t : GoType) (v : Value) (start : StartElement) (s : list Read) :
  (forall t' v st s, sameOn d1 d2 (typePrefixes t') -> dec1 t' v st s = dec2 t' v st s) ->
  sameOn d1 d2 (typePrefixes t) ->
  decodeAnyElement dec1 t v start s = decodeAnyElement dec2 t v start s.
Proof.
  intros Hdec Ht. unfold decodeAnyElement. destruct t; by rewrite Hdec.
Qed.

(** The four functions take from the context only the bindings of the
    prefixes their type mentions. *)
Lemma engine_sameOn (fuel : nat) :
  (forall t v st s,
     sameOn d1 d2 (typePrefixes t) ->
     decodeElement E d1 fuel t v st s = decodeElement E d2 fuel t v st s)
  /\ (forall t v st s,
        sameOn d1 d2 (typePrefixes t) ->
        decodeStruct E d1 fuel t v st s = decodeStruct E d2 fuel t v st s)
  /\ (forall t cf cdf af cmf cd cm v s,
        sameOn d1 d2 (typePrefixes t) ->
        decodeStructLoop E d1 fuel t cf cdf af cmf cd cm v s
        = decodeStructLoop E d2 fuel t cf cdf af cmf cd cm v s)
  /\ (forall t pfs found v s,
        sameOn d1 d2 (typePrefixes t) -> Forall pathSameOn pfs ->
        decodeMultiplePathFields E d1 fuel t pfs found v s
        = decodeMultiplePathFields E d2 fuel t pfs found v s).
Proof.
  induction fuel as [|fuel (IHel & IHstruct & IHloop & IHpath)]; [done|].
  split; [|split; [|split]].
  - intros t v st s Ht. rewrite !decodeElement_S. unfold decodeElementBody.
    destruct t; try done.
    + by rewrite IHel.
    + by rewrite IHel.
    + by apply IHstruct.
  - intros t v st s Ht. rewrite !decodeStruct_S. unfold decodeStructBody.
    rewrite (decodeAttributes_sameOn t _ _ Ht).
    destruct (decodeAttributes d2 t _ _) as [v2 [e|]]; [done|].
    destruct (findInnerXMLField t); [done|]. by apply IHloop.
  - intros t cf cdf af cmf cd cm v s Ht. rewrite !decodeStructLoop_S.
    unfold decodeStructLoopBody.
    destruct s as [|[[st|n|data|data|tg inst|data]|msg] r]; try done;
      try (by apply IHloop).
    + rewrite (findAllPathFieldsWithPrefix_sameOn t st Ht),
        (findFieldWithTag_sameOn t st Ht).
      destruct (0 <? length _)%nat.
      * rewrite IHpath; [|done|].
        -- destruct (err _); [done|]. by apply IHloop.
        -- apply pathFieldsFrom_pathSameOn. by apply sameOn_fieldsOf.
      * destruct (findFieldWithTag d2 t st) as [j|].
        -- rewrite IHel by (by apply sameOn_field_type).
           destruct (err _); [done|]. by apply IHloop.
        -- destruct af as [a|].
           ++ rewrite (decodeAnyElement_sameOn (decodeElement E d1 fuel)
                         (decodeElement E d2 fuel) _ _ _ _ IHel
                         (sameOn_field_type t a Ht)).
              destruct (err _); [done|]. by apply IHloop.
           ++ destruct (Skip 0 r) as [r' [e|]]; [done|]. by apply IHloop.
    + destruct (_ || _); by apply IHloop.
    + destruct cmf; by apply IHloop.
  - intros t pfs found v s Ht Hpfs. rewrite !decodeMultiplePathFields_S.
    unfold decodeMultiplePathFieldsBody.
    destruct s as [|[[st|n|data|data|tg inst|data]|msg] r]; try done;
      try (by apply IHpath).
    destruct (pathPass_sameOn (decodeElement E d1 fuel) (decodeElement E d2 fuel)
                t st pfs IHel Ht Hpfs 0 (mkPass v r found [] [] false None))
      as [Hp Hm]; [by constructor|].
    rewrite Hp. set (p := pathPass d2 _ t st 0 pfs _) in *.
    destruct (ppErr p); [done|].
    destruct (0 <? length (ppMatching p))%nat.
    + rewrite IHpath by done. destruct (err _); [done|]. by apply IHpath.
    + destruct (negb (ppMatchedAny p)); [|by apply IHpath].
      destruct (Skip 0 (ppRest p)) as [r' [e|]]; [done|]. by apply IHpath.
Qed.

End SameContext.

(** X24. A decoding reads of the context only the bindings of the
    prefixes written in the tags of the target type (the empty prefix
    for names written without one): two contexts that bind those alike,
    to the same namespace or not at all, give the same result on every
    token stream, whatever else they bind.  In particular bindings for
    prefixes that no tag mentions never change a result. *)
Theorem unused_bindings_change_nothing (E : XmlEncoder) (d1 d2 : Decoder) (fuel : nat)
    (t : GoType) (v : Value) (s : list Read) :
  sameOn d1 d2 (typePrefixes t) ->
  Decode E d1 fuel t v s = Decode E d2 fuel t v s.
Proof.
  intros Ht. unfold Decode. destruct t; try done.
  destruct v as [| | | | |[x|]| |]; try done.
  destruct (readRoot s) as [st r| |msg r]; try done.
  destruct (engine_sameOn E d1 d2 fuel) as [Hel _]. by rewrite Hel.
Qed.

Lemma unused_bindings_change_nothing_witness :
  Decode Examples.noEncoder Examples.userContext 20 (TPtr Examples.UserRecord)
    (VPtr (Some (zero Examples.UserRecord))) Examples.userDoc1
  = Decode Examples.noEncoder Samples.widerContext 20 (TPtr Examples.UserRecord)
      (VPtr (Some (zero Examples.UserRecord))) Examples.userDoc1.
Proof.
  apply (unused_bindings_change_nothing Examples.noEncoder Examples.userContext
           Samples.widerContext 20 (TPtr Examples.UserRecord)).
  repeat constructor.
Defined.

(** ** Processing instructions, directives and comments *)

Lemma readText_withoutMarkup (wc : bool) (s : list Read) :
  forall acc,
    readText acc (withoutMarkup wc s)
    = match readText acc s with
      | TextEnd text r => TextEnd text (withoutMarkup wc r)
      | TextEOF => TextEOF
      | TextErr e r => TextErr e (withoutMarkup wc r)
      end.
Proof.
  induction s as [|[[st|nm|data|data|tg inst|data]|msg] s IH]; intros acc;
    cbn [withoutMarkup isMarkup readText]; try done.
  destruct wc; cbn [readText]; apply IH.
Qed.

Lemma decodeString_withoutMarkup (wc : bool) (v : Value) (s : list Read) :
  decodeString v (withoutMarkup wc s) = restWithoutMarkup wc (decodeString v s).
Proof.
  unfold decodeString. rewrite readText_withoutMarkup. by destruct (readText "" s).
Qed.

Lemma decodeBool_withoutMarkup (wc : bool) (v : Value) (s : list Read) :
  decodeBool v (withoutMarkup wc s) = restWithoutMarkup wc (decodeBool v s).
Proof.
  unfold decodeBool. rewrite readText_withoutMarkup. by destruct (readText "" s).
Qed.

Lemma decodeInt_withoutMarkup (wc : bool) (w : Width) (v : Value) (s : list Read) :
  decodeInt w v (withoutMarkup wc s) = restWithoutMarkup wc (decodeInt w v s).
Proof.
  unfold decodeInt. rewrite readText_withoutMarkup.
  destruct (readText "" s); try done. by destruct (Strconv.ParseInt _).
Qed.

Lemma decodeUint_withoutMarkup (wc : bool) (w : Width) (v : Value) (s : list Read) :
  decodeUint w v (withoutMarkup wc s) = restWithoutMarkup wc (decodeUint w v s).
Proof.
  unfold decodeUint. rewrite readText_withoutMarkup.
  destruct (readText "" s); try done. by destruct (Strconv.ParseUint _).
Qed.

Lemma Skip_withoutMarkup (wc : bool) (s : list Read) :
  forall n, Skip n (withoutMarkup wc s) = (withoutMarkup wc (Skip n s).1, (Skip n s).2).
Proof.
  induction s as [|[[st|nm|data|data|tg inst|data]|msg] s IH]; intros n;
    cbn [withoutMarkup isMarkup Skip]; try done.
  - by destruct n.
  - destruct wc; cbn [Skip]; apply IH.
Qed.

Lemma readRoot_withoutMarkup (wc : bool) (s : list Read) :
  readRoot (withoutMarkup wc s)
  = match readRoot s with
    | RootStart st r => RootStart st (withoutMarkup wc r)
    | RootEOF => RootEOF
    | RootErr e r => RootErr e (withoutMarkup wc r)
    end.
Proof.
  induction s as [|[[st|nm|data|data|tg inst|data]|msg] s IH];
    cbn [withoutMarkup isMarkup readRoot]; try done.
  by destruct wc.
Qed.

Lemma withoutMarkup_length (wc : bool) (s : list Read) :
  (length (withoutMarkup wc s) <= length s)%nat.
Proof.
  induction s as [|r s IH]; cbn [withoutMarkup length]; [lia|].
  destruct (isMarkup wc r); cbn [length]; lia.
Qed.

Lemma plainRecord_fieldsOf (wc : bool) (t : GoType) :
  plainRecord wc t = true ->
  Forall (fun f => isInnerXMLTag (FTag f) = false
                   /\ (wc = true -> isCommentTag (FTag f) = false)
                   /\ plainRecord wc (FType f) = true) (fieldsOf t).
Proof.
  destruct t as [| | | | | | |n fs]; try (by constructor). cbn [plainRecord fieldsOf].
  induction fs as [|[fname tag ty] fs IH]; intros H; [by constructor|].
  apply andb_prop in H as [H Hfs]. apply andb_prop in H as [H Hty].
  apply andb_prop in H as [Hinner Hcomment].
  constructor; [|by apply IH]. cbn [FTag FType].
  split; [by apply negb_true_iff|]. split; [|done].
  intros ->. by apply negb_true_iff.
Qed.

Lemma plainRecord_noInnerXML (wc : bool) (t : GoType) :
  plainRecord wc t = true -> findInnerXMLField t = None.
Proof.
  intros H. apply plainRecord_fieldsOf in H. apply findByTag_None. intros i f Hf.
  by destruct (proj1 (Forall_lookup _ _) H i f Hf).
Qed.

Lemma plainRecord_noComment (t : GoType) :
  plainRecord true t = true -> findCommentField t = None.
Proof.
  intros H. apply plainRecord_fieldsOf in H. apply findByTag_None. intros i f Hf.
  destruct (proj1 (Forall_lookup _ _) H i f Hf) as (_ & Hc & _). by apply Hc.
Qed.

Lemma plainRecord_field_type (wc : bool) (t : GoType) (i : nat) :
  plainRecord wc t = true ->
  plainRecord wc (default (TOther "") (FType <$> fieldsOf t !! i)) = true.
Proof.
  intros H. apply plainRecord_fieldsOf in H.
  destruct (fieldsOf t !! i) as [f|] eqn:Hf; [|done].
  by destruct (proj1 (Forall_lookup _ _) H i f Hf) as (_ & _ & Hty).
Qed.

Section Markup.

Variable E : XmlEncoder.
Variable d : Decoder.
Variable wc : bool.

(** [dec] gives the same outcome without the markup. *)
Definition ignoresMarkup (dec : GoType -> Value -> StartElement -> list Read -> Out) : Prop :=
  forall t v st s,
    plainRecord wc t = true ->
    err (dec t v st s) <> Some OutOfFuel ->
    dec t v st (withoutMarkup wc s) = restWithoutMarkup wc (dec t v st s).

Lemma decodeAnyElement_withoutMarkup
    (dec : GoType -> Value -> StartElement -> list Read -> Out)
    (t : GoType) (v : Value) (start : StartElement) (s : list Read) :
  ignoresMarkup dec ->
  plainRecord wc t = true ->
  err (decodeAnyElement dec t v start s) <> Some OutOfFuel ->
  decodeAnyElement dec t v start (withoutMarkup wc s)
  = restWithoutMarkup wc (decodeAnyElement dec t v start s).
Proof.
  intros Hdec Ht Herr. unfold decodeAnyElement in *.
  destruct t; try (by rewrite Hdec).
  assert (Ho : err (dec t (zero t) start s) <> Some OutOfFuel).
  { intros Heq. by rewrite Heq in Herr. }
  rewrite (Hdec t (zero t) start s Ht Ho). cbn [restWithoutMarkup err rest val].
  destruct (err (dec t (zero t) start s)) as [e0|]; [|done].
  destruct (isReturnedError e0); [|done].
  rewrite Skip_withoutMarkup. by destruct (Skip 0 _).
Qed.

Lemma pathPass_withoutMarkup
    (dec : GoType -> Value -> StartElement -> list Read -> Out)
    (t : GoType) (start : StartElement) (pfs : list pathFieldInfo) :
  ignoresMarkup dec ->
  plainRecord wc t = true ->
  forall k st0,
    ppErr (pathPass d dec t start k pfs st0) <> Some OutOfFuel ->
    pathPass d dec t start k pfs
      (mkPass (ppVal st0) (withoutMarkup wc (ppRest st0)) (ppFound st0) (ppMatching st0)
         (ppIndices st0) (ppMatchedAny st0) (ppErr st0))
    = let p := pathPass d dec t start k pfs st0 in
      mkPass (ppVal p) (withoutMarkup wc (ppRest p)) (ppFound p) (ppMatching p)
        (ppIndices p) (ppMatchedAny p) (ppErr p).
Proof.
  intros Hdec Ht. induction pfs as [|pf pfs IH]; intros k st0 Herr; [done|].
  cbn [pathPass] in *. cbn [ppFound ppVal ppRest ppMatching ppIndices].
  destruct (default false (ppFound st0 !! k)); [by apply IH|].
  destruct (length (Strings.Split (pfTag pf) gt) <? 2)%nat; [by apply IH|].
  destruct (matchesField d _ _ _); [|by apply IH].
  destruct (length (Strings.Split (pfTag pf) gt) =? 2)%nat.
  - assert (Ho : err (dec (default (TOther "") (FType <$> fieldsOf t !! pfField pf))
                        (getField (ppVal st0) (pfField pf)) start (ppRest st0))
                 <> Some OutOfFuel).
    { intros Heq. by rewrite Heq in Herr. }
    rewrite (Hdec _ _ _ _ (plainRecord_field_type wc t (pfField pf) Ht) Ho).
    cbn [restWithoutMarkup err rest val].
    destruct (err (dec _ _ _ _)) as [e|]; [done|]. by apply (IH (S k) (mkPass _ _ _ _ _ _ _)).
  - by apply (IH (S k) (mkPass _ _ _ _ _ _ _)).
Qed.

(** Without the markup the four functions give the same outcome. *)
Lemma engine_withoutMarkup (fuel : nat) :
  ignoresMarkup (decodeElement E d fuel)
  /\ ignoresMarkup (decodeStruct E d fuel)
  /\ (forall t cf cdf af cmf cd cm v s,
        plainRecord wc t = true -> (wc = true -> cmf = None) ->
        err (decodeStructLoop E d fuel t cf cdf af cmf cd cm v s) <> Some OutOfFuel ->
        decodeStructLoop E d fuel t cf cdf af cmf cd cm v (withoutMarkup wc s)
        = restWithoutMarkup wc (decodeStructLoop E d fuel t cf cdf af cmf cd cm v s))
  /\ (forall t pfs found v s,
        plainRecord wc t = true ->
        err (decodeMultiplePathFields E d fuel t pfs found v s) <> Some OutOfFuel ->
        decodeMultiplePathFields E d fuel t pfs found v (withoutMarkup wc s)
        = restWithoutMarkup wc (decodeMultiplePathFields E d fuel t pfs found v s)).
Proof.
  induction fuel as [|fuel (IHel & IHstruct & IHloop & IHpath)].
  { repeat split; intros; done. }
  destruct (more_fuel E d fuel) as (_ & _ & Mloop & Mpath).
  assert (Hloop : forall t cf cdf af cmf cd cm v r,
            plainRecord wc t = true -> (wc = true -> cmf = None) ->
            err (decodeStructLoop E d fuel t cf cdf af cmf cd cm v r) <> Some OutOfFuel ->
            decodeStructLoop E d (S fuel) t cf cdf af cmf cd cm v (withoutMarkup wc r)
            = restWithoutMarkup wc (decodeStructLoop E d fuel t cf cdf af cmf cd cm v r)).
  { intros t cf cdf af cmf cd cm v r Ht Hcm Herr.
    rewrite Mloop; rewrite IHloop by done; done. }
  assert (Hpath : forall t pfs found v r,
            plainRecord wc t = true ->
            err (decodeMultiplePathFields E d fuel t pfs found v r) <> Some OutOfFuel ->
            decodeMultiplePathFields E d (S fuel) t pfs found v (withoutMarkup wc r)
            = restWithoutMarkup wc (decodeMultiplePathFields E d fuel t pfs found v r)).
  { intros t pfs found v r Ht Herr. rewrite Mpath; rewrite IHpath by done; done. }
  split; [|split; [|split]].
  - intros t v st s Ht Herr. rewrite decodeElement_S in Herr. rewrite !decodeElement_S.
    unfold decodeElementBody in *. destruct t; try done.
    + apply decodeString_withoutMarkup.
    + apply decodeBool_withoutMarkup.
    + apply decodeInt_withoutMarkup.
    + apply decodeUint_withoutMarkup.
    + by rewrite IHel.
    + assert (Ho : err (decodeElement E d fuel t (zero t) st s) <> Some OutOfFuel).
      { intros Heq. by rewrite Heq in Herr. }
      rewrite (IHel t (zero t) st s Ht Ho). cbn [restWithoutMarkup err rest val].
      by destruct (err (decodeElement E d fuel t (zero t) st s)).
    + by apply IHstruct.
  - intros t v st s Ht Herr. rewrite decodeStruct_S in Herr. rewrite !decodeStruct_S.
    unfold decodeStructBody in *.
    destruct (decodeAttributes d t _ _) as [v2 [e|]]; [done|].
    rewrite (plainRecord_noInnerXML wc t Ht) in *. apply IHloop; try done.
    intros ->. by apply plainRecord_noComment.
  - intros t cf cdf af cmf cd cm v s Ht Hcm Herr.
    rewrite decodeStructLoop_S in Herr.
    destruct s as [|[[st|n|data|data|tg inst|data]|msg] r];
      cbn [withoutMarkup isMarkup]; try (by rewrite !decodeStructLoop_S).
    + rewrite !decodeStructLoop_S. unfold decodeStructLoopBody in *.
      destruct (0 <? length (findAllPathFieldsWithPrefix d t st))%nat.
      * assert (Ho : err (decodeMultiplePathFields E d fuel t
                            (findAllPathFieldsWithPrefix d t st)
                            (replicate (length (findAllPathFieldsWithPrefix d t st)) false)
                            v r) <> Some OutOfFuel).
        { intros Heq. by rewrite Heq in Herr. }
        rewrite (IHpath _ _ _ _ _ Ht Ho). cbn [restWithoutMarkup err rest val].
        destruct (err (decodeMultiplePathFields _ _ _ _ _ _ _ _)); [done|].
        by apply IHloop.
      * destruct (findFieldWithTag d t st) as [j|].
        -- assert (Ho : err (decodeElement E d fuel
                               (default (TOther "") (FType <$> fieldsOf t !! j))
                               (getField v j) st r) <> Some OutOfFuel).
           { intros Heq. by rewrite Heq in Herr. }
           rewrite (IHel _ _ _ _ (plainRecord_field_type wc t j Ht) Ho).
           cbn [restWithoutMarkup err rest val].
           destruct (err (decodeElement _ _ _ _ _ _ _)); [done|]. by apply IHloop.
        -- destruct af as [a|].
           ++ assert (Ho : err (decodeAnyElement (decodeElement E d fuel)
                                  (default (TOther "") (FType <$> fieldsOf t !! a))
                                  (getField v a) st r) <> Some OutOfFuel).
              { intros Heq. by rewrite Heq in Herr. }
              rewrite (decodeAnyElement_withoutMarkup _ _ _ _ _ IHel
                         (plainRecord_field_type wc t a Ht) Ho).
              cbn [restWithoutMarkup err rest val].
              destruct (err (decodeAnyElement _ _ _ _ _)); [done|]. by apply IHloop.
           ++ rewrite Skip_withoutMarkup.
              destruct (Skip 0 r) as [r' [e|]]; cbn [fst snd]; [done|]. by apply IHloop.
    + rewrite !decodeStructLoop_S. unfold decodeStructLoopBody.
      by destruct (endOfStruct t cf cdf cmf cd cm v).
    + rewrite !decodeStructLoop_S. unfold decodeStructLoopBody in *.
      destruct (_ || _); by apply IHloop.
    + destruct wc eqn:Hwc.
      * rewrite (Hcm eq_refl) in *. rewrite (decodeStructLoop_S E d fuel).
        unfold decodeStructLoopBody in *. by apply Hloop.
      * rewrite !decodeStructLoop_S. unfold decodeStructLoopBody in *.
        destruct cmf; by apply IHloop.
    + rewrite (decodeStructLoop_S E d fuel). unfold decodeStructLoopBody in *.
      by apply Hloop.
    + rewrite (decodeStructLoop_S E d fuel). unfold decodeStructLoopBody in *.
      by apply Hloop.
  - intros t pfs found v s Ht Herr. rewrite decodeMultiplePathFields_S in Herr.
    destruct s as [|[[st|n|data|data|tg inst|data]|msg] r];
      cbn [withoutMarkup isMarkup]; try (by rewrite !decodeMultiplePathFields_S).
    + rewrite !decodeMultiplePathFields_S. unfold decodeMultiplePathFieldsBody in *.
      assert (Hp : ppErr (pathPass d (decodeElement E d fuel) t st 0 pfs
                            (mkPass v r found [] [] false None)) <> Some OutOfFuel).
      { intros Heq. by rewrite Heq in Herr. }
      pose proof (pathPass_withoutMarkup (decodeElement E d fuel) t st pfs IHel Ht 0
                    (mkPass v r found [] [] false None) Hp) as Hpass.
      cbn [ppVal ppRest ppFound ppMatching ppIndices ppMatchedAny ppErr] in Hpass.
      rewrite Hpass. cbn zeta. set (p := pathPass d _ t st 0 pfs _) in *.
      cbn [ppVal ppRest ppFound ppMatching ppIndices ppMatchedAny ppErr].
      destruct (ppErr p); [done|].
      destruct (0 <? length (ppMatching p))%nat.
      * assert (Ho : err (decodeMultiplePathFields E d fuel t (ppMatching p)
                            (replicate (length (ppMatching p)) false) (ppVal p) (ppRest p))
                     <> Some OutOfFuel).
        { intros Heq. by rewrite Heq in Herr. }
        rewrite (IHpath _ _ _ _ _ Ht Ho). cbn [restWithoutMarkup err rest val].
        destruct (err (decodeMultiplePathFields _ _ _ _ _ _ _ _)); [done|].
        by apply IHpath.
      * destruct (negb (ppMatchedAny p)); [|by apply IHpath].
        rewrite Skip_withoutMarkup.
        destruct (Skip 0 (ppRest p)) as [r' [e|]]; cbn [fst snd]; [done|].
        by apply IHpath.
    + rewrite !decodeMultiplePathFields_S. unfold decodeMultiplePathFieldsBody in *.
      by apply IHpath.
    + destruct wc.
      * rewrite (decodeMultiplePathFields_S E d fuel).
        unfold decodeMultiplePathFieldsBody in *. by apply Hpath.
      * rewrite !decodeMultiplePathFields_S. unfold decodeMultiplePathFieldsBody in *.
        by apply IHpath.
    + rewrite (decodeMultiplePathFields_S E d fuel).
      unfold decodeMultiplePathFieldsBody in *. by apply Hpath.
    + rewrite (decodeMultiplePathFields_S E d fuel).
      unfold decodeMultiplePathFieldsBody in *. by apply Hpath.
Qed.

End Markup.

(** X25. Processing instructions and directives, and comments when the
    target has no ,comment field, are ignored by a decoding into a
    target without an ,innerxml field (all the way down): taking them
    out of the stream, wherever they stand, changes neither the decoded
    value nor the error, and leaves unread the same tokens without the
    ones taken out. *)
Theorem markup_is_ignored (E : XmlEncoder) (d : Decoder) (wc : bool) (fuel : nat)
    (t : GoType) (v : Value) (s : list Read) :
  plainRecord wc t = true ->
  (fuelFor t s <= fuel)%nat ->
  Decode E d fuel t v (withoutMarkup wc s) = restWithoutMarkup wc (Decode E d fuel t v s).
Proof.
  intros Ht Hf. unfold Decode. destruct t; try done.
  destruct v as [| | | | |[x|]| |]; try done.
  rewrite readRoot_withoutMarkup. pose proof (readRoot_length s) as Hlen.
  destruct (readRoot s) as [st r| |msg r]; try done.
  assert (Hr : (fuelFor t r <= fuel)%nat).
  { etrans; [|exact Hf]. unfold fuelFor. cbn [depth]. nia. }
  destruct (enough_fuel E d fuel) as [Hel _]. destruct (Hel t x st r Hr) as [_ Herr].
  destruct (engine_withoutMarkup E d wc fuel) as [Hm _].
  by rewrite (Hm t x st r Ht Herr).
Qed.

Lemma markup_is_ignored_witness :
  Decode Examples.noEncoder Examples.emptyContext 50 (TPtr Examples.Named)
    (VPtr (Some (zero Examples.Named))) (withoutMarkup true Samples.annotated)
  = restWithoutMarkup true
      (Decode Examples.noEncoder Examples.emptyContext 50 (TPtr Examples.Named)
         (VPtr (Some (zero Examples.Named))) Samples.annotated).
Proof.
  apply (markup_is_ignored Examples.noEncoder Examples.emptyContext true 50
           (TPtr Examples.Named)).
  - reflexivity.
  - vm_compute. lia.
Defined.

(** ** The tests of the repository, replayed on the embedding *)

Section Replay.

Import Examples.

Example replay_TestPathSyntaxWithSiblings :
  decodeFresh noEncoder emptyContext Product productDoc
  = ok (VPtr (Some (VStruct [nameValue (plain "product"); VString "Widget";
                             VString "12345"; VString "WDG-001"]))) [].
Proof. reflexivity. Qed.

Example replay_TestAnyElement :
  decodeFresh noEncoder emptyContext Config configDoc
  = ok (VPtr (Some (VStruct
         [nameValue (plain "config"); VString "test";
          VSlice [VStruct [nameValue (plain "extension"); VString "ext1"];
                  VStruct [nameValue (plain "extension"); VString "ext2"]]]))) [].
Proof. reflexivity. Qed.

Example replay_TestComments :
  decodeFresh noEncoder emptyContext Doc docDoc
  = ok (VPtr (Some (VStruct
         [nameValue (plain "doc"); VString "Test";
          VString ("First comment " +:+ String "010" " Second comment")]))) [].
Proof. reflexivity. Qed.

Example replay_TestBoolVariations :
  decodeFresh noEncoder emptyContext BoolTest boolDoc
  = ok (VPtr (Some (VStruct [nameValue (plain "test"); VBool true; VBool false;
                             VBool false; VBool false]))) [].
Proof. reflexivity. Qed.

Example replay_TestWhitespaceOnlyElements :
  decodeFresh noEncoder emptyContext WhitespaceTest whitespaceDoc
  = ok (VPtr (Some (VStruct [nameValue (plain "test"); VString ""; VInt 42]))) [].
Proof. reflexivity. Qed.

(** The scenario of the user document: decoded under the context that
    binds [ns1] to the profile namespace, and under one that rebinds it. *)
Example replay_user_scenario :
  decodeFresh noEncoder userContext UserRecord userDoc1
  = ok (VPtr (Some (VStruct [VString "7"; VString "Jane"; VString "Hi"]))) []
  /\ decodeFresh noEncoder reboundContext UserRecord userDoc1
     = ok (VPtr (Some (VStruct [VString "7"; VString "Jane"; VString ""]))) [].
Proof. split; reflexivity. Qed.

End Replay.
